(** * MultiGaussNaiveBayesClassifier (naivebayes.py): a shallow embedding

    The program is numerical Python.  Its floating-point values are modelled
    as extended reals [fl]: a finite real, one of the two infinities, or NaN.
    Arithmetic follows IEEE 754 for the special values and is exact on the
    finite ones: rounding, overflow and the sign of zero are not modelled.
    One test of the program, [std > 0] in [_make_mixture_for_column], is
    decided by rounding on some columns; for it the file also has the
    float64 computation of [col.std()], on Rocq's binary64 numbers.

    Code of other packages is not part of the repository.  numpy, scipy and
    sklearn helpers are modelled by their documented behaviour next to the
    place where the program calls them; the two pypmc engines (the variational
    Bayes fitter and the importance sampler) are parameters of the model.

    Printing ([verbose]) and plotting ([plot_prefix], [noteworthy_information])
    have no effect on the values computed and are left out; the model is that
    of an instance with [plot_prefix = None].  The constructor stores
    [self.parallel = None] whatever it is given, so [_make_mixture] always
    takes its sequential branch. *)

From Stdlib Require Import Reals Lra Lia List ZArith Bool Sorted.
From Stdlib Require String Floats Uint63.
Import (notations) Stdlib.Floats.PrimFloat.
Import ListNotations.
Local Open Scope R_scope.

(** ** Idealised floating point *)

Inductive fl : Type :=
| Fin (r : R)
| PInf
| NInf
| NaN.

(** Comparisons of reals as booleans. *)
Definition Rltb (a b : R) : bool := if Rlt_dec a b then true else false.
Definition Reqb (a b : R) : bool := if Req_dec_T a b then true else false.

Definition isfinite (a : fl) : bool :=
  match a with Fin _ => true | _ => false end.

Definition isnan (a : fl) : bool :=
  match a with NaN => true | _ => false end.

Definition isinf (a : fl) : bool :=
  match a with PInf | NInf => true | _ => false end.

(** The infinity with the sign of [r]; [0 * inf] is NaN. *)
Definition inf_of_sign (r : R) : fl :=
  if Rltb 0 r then PInf else if Rltb r 0 then NInf else NaN.

Definition fl_opp (a : fl) : fl :=
  match a with
  | Fin r => Fin (- r)
  | PInf => NInf
  | NInf => PInf
  | NaN => NaN
  end.

Definition fl_add (a b : fl) : fl :=
  match a, b with
  | NaN, _ | _, NaN => NaN
  | Fin x, Fin y => Fin (x + y)
  | PInf, NInf | NInf, PInf => NaN
  | PInf, _ | _, PInf => PInf
  | NInf, _ | _, NInf => NInf
  end.

Definition fl_sub (a b : fl) : fl := fl_add a (fl_opp b).

Definition fl_mul (a b : fl) : fl :=
  match a, b with
  | NaN, _ | _, NaN => NaN
  | Fin x, Fin y => Fin (x * y)
  | Fin x, PInf | PInf, Fin x => inf_of_sign x
  | Fin x, NInf | NInf, Fin x => inf_of_sign (- x)
  | PInf, PInf | NInf, NInf => PInf
  | PInf, NInf | NInf, PInf => NInf
  end.

(** numpy division: [x / 0] is an infinity (NaN for [0 / 0]) with a warning. *)
Definition fl_div (a b : fl) : fl :=
  match a, b with
  | NaN, _ | _, NaN => NaN
  | Fin x, Fin y => if Reqb y 0 then inf_of_sign x else Fin (x / y)
  | Fin _, PInf | Fin _, NInf => Fin 0
  | PInf, Fin y => if Rltb y 0 then NInf else PInf
  | NInf, Fin y => if Rltb y 0 then PInf else NInf
  | _, _ => NaN
  end.

(** [x ** 2] *)
Definition fl_sqr (a : fl) : fl := fl_mul a a.

(** numpy [log]: [-inf] at zero, NaN below. *)
Definition fl_log (a : fl) : fl :=
  match a with
  | Fin x => if Rltb 0 x then Fin (ln x) else if Reqb x 0 then NInf else NaN
  | PInf => PInf
  | NInf => NaN
  | NaN => NaN
  end.

Definition fl_log10 (a : fl) : fl :=
  match a with
  | Fin x => if Rltb 0 x then Fin (ln x / ln 10) else if Reqb x 0 then NInf else NaN
  | PInf => PInf
  | NInf => NaN
  | NaN => NaN
  end.

Definition fl_exp (a : fl) : fl :=
  match a with
  | Fin x => Fin (exp x)
  | PInf => PInf
  | NInf => Fin 0
  | NaN => NaN
  end.

(** [a < b]; every comparison with NaN is false. *)
Definition fl_lt (a b : fl) : bool :=
  match a, b with
  | NaN, _ | _, NaN => false
  | Fin x, Fin y => Rltb x y
  | NInf, NInf => false
  | NInf, _ => true
  | _, NInf => false
  | PInf, _ => false
  | Fin _, PInf => true
  end.

(** [a <= b] *)
Definition fl_le (a b : fl) : bool :=
  match a, b with
  | NaN, _ | _, NaN => false
  | Fin x, Fin y => negb (Rltb y x)
  | NInf, _ => true
  | _, PInf => true
  | _, NInf => false
  | PInf, _ => false
  end.

(** ** numpy on vectors and matrices *)

Definition matrix : Type := list (list fl).

Definition Rsum (l : list R) : R := fold_right Rplus 0 l.

(** [a.sum()]: without rounding the order of the additions does not matter. *)
Definition fl_sum (l : list fl) : fl := fold_right fl_add (Fin 0) l.

(** [col[numpy.isfinite(col)]] *)
Fixpoint finite_values (col : list fl) : list R :=
  match col with
  | [] => []
  | Fin r :: t => r :: finite_values t
  | _ :: t => finite_values t
  end.

(** [a.mean()]; NaN on an empty array. *)
Definition np_mean (l : list R) : fl :=
  match l with
  | [] => NaN
  | _ => Fin (Rsum l / INR (length l))
  end.

(** The population variance [mean(abs(a - a.mean())**2)] of a non-empty array. *)
Definition variance (l : list R) : R :=
  let m := Rsum l / INR (length l) in
  Rsum (map (fun v => (v - m) * (v - m)) l) / INR (length l).

(** [a.std()] (ddof = 0) on exact numbers; NaN on an empty array.  The
    float64 value, which can be positive where this one is zero, is
    [float64_std] below. *)
Definition np_std (l : list R) : fl :=
  match l with
  | [] => NaN
  | _ => Fin (sqrt (variance l))
  end.

(** [a.mean()] on floats that may be special. *)
Definition fl_mean (l : list fl) : fl := fl_div (fl_sum l) (Fin (INR (length l))).

(** Insertion into a sorted array. *)
Fixpoint insert_sorted (v : R) (l : list R) : list R :=
  match l with
  | [] => [v]
  | h :: t => if Rltb h v then h :: insert_sorted v t else v :: l
  end.

(** The sorted copy of the sample that [numpy.percentile] works on. *)
Definition sort (l : list R) : list R := fold_right insert_sorted [] l.

(** [numpy.percentile(x, q)] with the default linear interpolation, for one
    level [q] in [0, 100]:
      indices = q/100 * (Nx - 1); below = floor(indices); above = below + 1,
      clipped to Nx - 1; the result weighs ap[below] and ap[above] by the
      fractional part. *)
Definition percentile (x : list R) (q : R) : R :=
  let ap := sort x in
  let Nx := length x in
  let indices := q / 100 * INR (Nx - 1) in
  let below := Z.to_nat (Int_part indices) in
  let above := Nat.min (below + 1) (Nx - 1) in
  let weights_above := indices - INR below in
  let weights_below := 1 - weights_above in
  nth below ap 0 * weights_below + nth above ap 0 * weights_above.

(** [numpy.maximum]: NaN propagates. *)
Definition fl_max (a b : fl) : fl :=
  if isnan a then a else if isnan b then b else if fl_lt a b then b else a.

(** [numpy.amax] along the reduced axis; raises on an empty axis. *)
Definition amax (l : list fl) : option fl :=
  match l with
  | [] => None
  | v :: t => Some (fold_left fl_max t v)
  end.

(** [scipy.misc.logsumexp(a, axis)] along the reduced axis:
      a_max = amax(a); a_max[~isfinite(a_max)] = 0;
      out = log(sum(exp(a - a_max))) + a_max. *)
Definition logsumexp (l : list fl) : option fl :=
  match amax l with
  | None => None
  | Some m =>
      let a_max := if isfinite m then m else Fin 0 in
      Some (fl_add (fl_log (fl_sum (map (fun a => fl_exp (fl_sub a a_max)) l))) a_max)
  end.

(** The scan of [argmax]: the best value so far, its index, the next index. *)
Fixpoint argmax_from (best : fl) (besti i : nat) (l : list fl) : nat :=
  match l with
  | [] => besti
  | v :: t =>
      if isnan best then besti
      else if isnan v || fl_lt best v then argmax_from v i (S i) t
      else argmax_from best besti (S i) t
  end.

(** [a.argmax()] along the reduced axis: the first index of the maximum, the
    first NaN when there is one; raises on an empty axis. *)
Definition argmax (l : list fl) : option nat :=
  match l with
  | [] => None
  | v :: t => Some (argmax_from v 0 1 t)
  end.

(** [x.shape[1]] of a matrix that has rows. *)
Definition ncols (x : matrix) : nat :=
  match x with
  | [] => 0%nat
  | r :: _ => length r
  end.

(** [x[:, i]] *)
Definition column (i : nat) (x : matrix) : list fl := map (fun r => nth i r NaN) x.

(** [x.transpose()], as the list of the columns. *)
Definition transpose (x : matrix) : list (list fl) :=
  map (fun i => column i x) (seq 0 (ncols x)).

(** All the results, or [None] as soon as one computation raised. *)
Fixpoint sequence {A : Type} (l : list (option A)) : option (list A) :=
  match l with
  | [] => Some []
  | None :: _ => None
  | Some a :: t =>
      match sequence t with
      | None => None
      | Some r => Some (a :: r)
      end
  end.

(** Elementwise [numpy.where(flag, log10(v), v)]. *)
Definition where_log10 (flag : bool) (v : fl) : fl := if flag then fl_log10 v else v.

(** One row of [numpy.where(islogvar, log10(X), X)]: [islogvar] has shape
    (1, d) and the row d' entries; numpy broadcasts when d = d', d = 1 or
    d' = 1 and raises otherwise. *)
Definition where_row (flags : list bool) (row : list fl) : option (list fl) :=
  if (length flags =? length row)%nat then
    Some (map (fun p => where_log10 (fst p) (snd p)) (combine flags row))
  else if (length flags =? 1)%nat then
    Some (map (where_log10 (hd false flags)) row)
  else if (length row =? 1)%nat then
    Some (map (fun f => where_log10 f (hd NaN row)) flags)
  else None.

(** [numpy.where(self.islogvar, log10(X), X)]; a condition [None] selects [X]. *)
Definition where_islogvar (islogvar : option (list bool)) (X : matrix) : option matrix :=
  match islogvar with
  | None => Some X
  | Some flags => sequence (map (where_row flags) X)
  end.

(** [~(X <= 0).any(axis=0)]: a comparison with NaN is false. *)
Definition positive_columns (X : matrix) : list bool :=
  map (fun col => negb (existsb (fun v => fl_le v (Fin 0)) col)) (transpose X).

(** sklearn [check_array(X, force_all_finite='allow-nan')] on a list of rows:
    at least one row and one feature, all rows of one length, NaN allowed,
    infinities refused. *)
Definition check_array (X : matrix) : option matrix :=
  match X with
  | [] => None
  | r :: _ =>
      if (0 <? length r)%nat
         && forallb (fun r' => (length r' =? length r)%nat) X
         && forallb (fun r' => forallb (fun v => negb (isinf v)) r') X
      then Some X else None
  end.

(** sklearn [check_X_y]: [check_array] on X and as many labels as rows. *)
Definition check_X_y (X : matrix) (y : list Z) : option (matrix * list Z) :=
  match check_array X with
  | None => None
  | Some X' => if (length X' =? length y)%nat then Some (X', y) else None
  end.

(** Insertion into an increasing list without duplicates. *)
Fixpoint insert_label (l : Z) (ls : list Z) : list Z :=
  match ls with
  | [] => [l]
  | h :: t =>
      if (l <? h)%Z then l :: ls
      else if (l =? h)%Z then ls
      else h :: insert_label l t
  end.

(** sklearn [unique_labels(y)]: the distinct labels, increasing. *)
Definition unique_labels (y : list Z) : list Z := fold_right insert_label [] y.

(** ** pypmc densities *)

(** A one-dimensional [pypmc.density.gauss.Gauss]: [sigma] is its covariance
    (here a 1x1 matrix, the variance). *)
Record Gauss : Type := { mu : fl; sigma : fl }.

Record MixtureDensity : Type := { components : list Gauss; weights : list fl }.

(** [pypmc.density.mixture.create_gaussian_mixture(means, covs)] with the
    weights left out: one Gauss per mean and covariance, all of equal weight. *)
Definition create_gaussian_mixture (means covs : list fl) : MixtureDensity :=
  let comps := map (fun p => {| mu := fst p; sigma := snd p |}) (combine means covs) in
  {| components := comps;
     weights := repeat (Fin (1 / INR (length comps))) (length comps) |}.

(** ** Module-level functions *)

(** [_make_single_mixture(x, Ngauss_init)], up to its [return]; the lines
    after it are dead code.  The two [reshape] calls raise unless there are
    exactly [Ngauss_init] means. *)
Definition _make_single_mixture (x : list R) (Ngauss_init : nat)
  : option (list R * list R) :=
  let q := map (fun i => INR i * 100 / INR Ngauss_init) (seq 1 (Ngauss_init - 1)) in
  let percentiles := map (percentile x) ([0] ++ q ++ [100]) in
  let mincov := ((last percentiles 0 - hd 0 percentiles) / 100) ^ 2 in
  let means :=
    map (fun p => (fst p + snd p) / 2) (combine (tl percentiles) (removelast percentiles)) in
  let covs :=
    map (fun p => (fst p - snd p) ^ 2) (combine (tl percentiles) (removelast percentiles)) in
  let covs := map (fun c => if negb (Rltb mincov c) then mincov else c) covs in
  if (length means =? Ngauss_init)%nat then Some (means, covs) else None.

(** The hyper-parameters kept by [__init__]. *)
Record params : Type := {
  all_labels : option (list Z);
  nmin_multigauss : nat;
  Ngauss_init : nat;
  VB_iter : nat;
  minprob : R;
  column_names : option (list String.string)
}.

Definition fdists : Type := list (option MixtureDensity).

(** The attributes of an instance; an attribute that was never assigned is
    [None] and reading it raises. *)
Record MultiGaussNaiveBayesClassifier : Type := {
  hyper : params;
  islogvar : option (list bool);
  classes_ : option (list Z);
  X_ : option matrix;
  y_ : option (list Z);
  populated_columns_ : option (list nat);
  KL_ : option (list (list (list fl)));
  class_properties_ : option (list (Z * fdists));
  nearest_ : option (list nat);
  logproba_ : option matrix;
  surprise_ : option (list fl)
}.

(** A call either returns a value or raises; both leave an instance behind. *)
Inductive result (A : Type) : Type :=
| Returned (v : A) (self : MultiGaussNaiveBayesClassifier)
| Raised (self : MultiGaussNaiveBayesClassifier).

Arguments Returned {A} v self.
Arguments Raised {A} self.

Definition instance_of {A : Type} (r : result A) : MultiGaussNaiveBayesClassifier :=
  match r with
  | Returned _ self => self
  | Raised self => self
  end.

Definition value_of {A : Type} (r : result A) : option A :=
  match r with
  | Returned v _ => Some v
  | Raised _ => None
  end.

(** [MultiGaussNaiveBayesClassifier(all_labels, nmin_multigauss, Ngauss_init,
    VB_iter, column_names=...)] *)
Definition __init__ (all_labels : option (list Z)) (nmin_multigauss Ngauss_init VB_iter : nat)
    (column_names : option (list String.string)) : MultiGaussNaiveBayesClassifier :=
  {| hyper := {| all_labels := all_labels; nmin_multigauss := nmin_multigauss;
                 Ngauss_init := Ngauss_init; VB_iter := VB_iter;
                 minprob := 1e-5; column_names := column_names |};
     islogvar := None; classes_ := None; X_ := None; y_ := None;
     populated_columns_ := None; KL_ := None; class_properties_ := None;
     nearest_ := None; logproba_ := None; surprise_ := None |}.

(** The constructor's defaults. *)
Definition default_classifier : MultiGaussNaiveBayesClassifier :=
  __init__ None 10 5 1000 None.

(** [self.classes_ = c; self.X_ = X; self.y_ = y] *)
Definition set_training (self : MultiGaussNaiveBayesClassifier)
    (c : list Z) (X : matrix) (y : list Z) : MultiGaussNaiveBayesClassifier :=
  {| hyper := hyper self; islogvar := islogvar self;
     classes_ := Some c; X_ := Some X; y_ := Some y;
     populated_columns_ := populated_columns_ self; KL_ := KL_ self;
     class_properties_ := class_properties_ self;
     nearest_ := nearest_ self; logproba_ := logproba_ self;
     surprise_ := surprise_ self |}.

(** [self.islogvar = f] *)
Definition set_islogvar (self : MultiGaussNaiveBayesClassifier)
    (f : list bool) : MultiGaussNaiveBayesClassifier :=
  {| hyper := hyper self; islogvar := Some f;
     classes_ := classes_ self; X_ := X_ self; y_ := y_ self;
     populated_columns_ := populated_columns_ self; KL_ := KL_ self;
     class_properties_ := class_properties_ self;
     nearest_ := nearest_ self; logproba_ := logproba_ self;
     surprise_ := surprise_ self |}.

(** [self.populated_columns_ = j] *)
Definition set_populated_columns_ (self : MultiGaussNaiveBayesClassifier)
    (j : list nat) : MultiGaussNaiveBayesClassifier :=
  {| hyper := hyper self; islogvar := islogvar self;
     classes_ := classes_ self; X_ := X_ self; y_ := y_ self;
     populated_columns_ := Some j; KL_ := KL_ self;
     class_properties_ := class_properties_ self;
     nearest_ := nearest_ self; logproba_ := logproba_ self;
     surprise_ := surprise_ self |}.

(** [self.KL_ = KL; self.class_properties_ = cp] *)
Definition set_fitted (self : MultiGaussNaiveBayesClassifier)
    (KL : list (list (list fl))) (cp : list (Z * fdists))
  : MultiGaussNaiveBayesClassifier :=
  {| hyper := hyper self; islogvar := islogvar self;
     classes_ := classes_ self; X_ := X_ self; y_ := y_ self;
     populated_columns_ := populated_columns_ self; KL_ := Some KL;
     class_properties_ := Some cp;
     nearest_ := nearest_ self; logproba_ := logproba_ self;
     surprise_ := surprise_ self |}.

(** [self.nearest_ = n; self.logproba_ = lp; self.surprise_ = s] *)
Definition set_prediction (self : MultiGaussNaiveBayesClassifier)
    (n : list nat) (lp : matrix) (s : list fl) : MultiGaussNaiveBayesClassifier :=
  {| hyper := hyper self; islogvar := islogvar self;
     classes_ := classes_ self; X_ := X_ self; y_ := y_ self;
     populated_columns_ := populated_columns_ self; KL_ := KL_ self;
     class_properties_ := class_properties_ self;
     nearest_ := Some n; logproba_ := Some lp; surprise_ := Some s |}.

(** [XT[mask, :]] for [mask = (y == label)] *)
Definition rows_of_class (label : Z) (y : list Z) (XT : matrix) : matrix :=
  map snd (filter (fun p => (fst p =? label)%Z) (combine y XT)).

(** The log-density of one component at [x], with the logarithm of its weight:
    [- 0.5 * log(variances * 2 * pi) - 0.5 * ((x - means)**2 / variances)
     + log(weights)]. *)
Definition component_logprob (x : fl) (g : Gauss) (w : fl) : fl :=
  fl_add
    (fl_sub
       (fl_mul (Fin (- 0.5)) (fl_log (fl_mul (fl_mul (sigma g) (Fin 2)) (Fin PI))))
       (fl_mul (Fin 0.5) (fl_div (fl_sqr (fl_sub x (mu g))) (sigma g))))
    (fl_log w).

(** The column [logprob[:, i]] that the loop of [_evaluate_feature_dist]
    leaves for one feature.  [weights.reshape(means.shape)] raises when the
    mixture has not one weight per component, and the subtraction or the
    assertion on [len(logprob_col)] raises when it has no component. *)
Definition logprob_column (mix : option MixtureDensity) (xcol : list fl)
  : option (list fl) :=
  match mix with
  | None => Some (map (fun _ => Fin 0) xcol)
  | Some m =>
      if (length (weights m) =? length (components m))%nat then
        sequence
          (map (fun x =>
                  logsumexp (map (fun p => component_logprob x (fst p) (snd p))
                                 (combine (components m) (weights m))))
               xcol)
      else None
  end.

(** [logprob[~numpy.isfinite(logprob)] = 0] *)
Definition zero_missing (v : fl) : fl := if isfinite v then v else Fin 0.

(** [logprob[logprob < log(self.minprob)] = log(self.minprob)] *)
Definition floor_minprob (minprob : R) (v : fl) : fl :=
  if fl_lt v (fl_log (Fin minprob)) then fl_log (Fin minprob) else v.

(** ** Notions used in the statements *)

(** The part of an instance that [fit] writes: the stored training data, the
    class set, the class profiles, the transform flags, the KL structure and
    the positions of the populated classes. *)
Definition fitted_state (self : MultiGaussNaiveBayesClassifier) :=
  (X_ self, y_ self, classes_ self, class_properties_ self, islogvar self,
   KL_ self, populated_columns_ self).

(** How many labels of [classes] at least one training row carries. *)
Definition populated_classes (classes y : list Z) : nat :=
  length (filter (fun label => existsb (fun l => (l =? label)%Z) y) classes).

(** A mixture as pypmc keeps them: at least one component and one weight for
    each. *)
Definition mixture_ok (m : MixtureDensity) : bool :=
  negb (length (components m) =? 0)%nat
  && (length (weights m) =? length (components m))%nat.

Definition fdists_ok (fd : fdists) : Prop :=
  Forall (fun o => match o with None => True | Some m => mixture_ok m = true end) fd.

(** The percentile level of the [i]-th of the [K + 1] boundaries. *)
Definition level (K i : nat) : R := INR i * 100 / INR K.

Definition Rmin_list (l : list R) : R :=
  match l with
  | [] => 0
  | h :: t => fold_left Rmin t h
  end.

Definition Rmax_list (l : list R) : R :=
  match l with
  | [] => 0
  | h :: t => fold_left Rmax t h
  end.

(** A list without its [i]-th element. *)
Definition delete_nth {A : Type} (i : nat) (l : list A) : list A :=
  firstn i l ++ skipn (S i) l.

(** Both classes have a mixture for the feature. *)
Definition both_present (p : option MixtureDensity * option MixtureDensity) : bool :=
  match p with
  | (Some _, Some _) => true
  | _ => false
  end.

(** Stand-ins for the two pypmc engines, used where a statement is
    evaluated on concrete data: a fitter that hands back its initial guess,
    and a sampler whose draws all have importance weight one and whose
    generator state counts the draws. *)
Definition keep_initial_guess (data : list R) (initial_guess : MixtureDensity)
    (W0 : R) (iterations : nat) (rel_tol abs_tol prune : R) : MixtureDensity :=
  initial_guess.

Definition unit_weights (target proposal : MixtureDensity) (N : nat) (g : nat)
  : list fl * nat :=
  (repeat (Fin 1) N, (g + N)%nat).

(** The instance left by [fit([[1]], [0])] on a fresh default instance: the
    only column is positive, so its transform flag is set. *)
Definition fitted_on_positive : MultiGaussNaiveBayesClassifier :=
  set_fitted
    (set_populated_columns_
       (set_islogvar (set_training default_classifier [0%Z] [[Fin 1]] [0%Z]) [true])
       [0%nat])
    [[]] [(0%Z, [None])].

(** ** [col.std()] and the branches of the builder in float64

    The branch of [_make_mixture_for_column] is chosen by the test
    [std > 0] on the float64 value of [col.std()].  The exact value above is
    zero on every constant column; the float64 value is computed as numpy
    does, with the rounding of each operation. *)

(** [float(n)] of a length. *)
Definition float64_of_nat (n : nat) : PrimFloat.float :=
  PrimFloat.of_uint63 (Uint63.of_Z (Z.of_nat n)).

(** The loop of [pairwise_sum] over the blocks of 8 that follow the first:
    [r[j] += a[i + j]]. *)
Fixpoint add_blocks (r a : list PrimFloat.float) (blocks : nat) : list PrimFloat.float :=
  match blocks with
  | O => r
  | S blocks' =>
      add_blocks (map (fun p => PrimFloat.add (fst p) (snd p)) (combine r (firstn 8 a)))
                 (skipn 8 a) blocks'
  end.

(** [((r[0] + r[1]) + (r[2] + r[3])) + ((r[4] + r[5]) + (r[6] + r[7]))] *)
Definition sum_accumulators (r : list PrimFloat.float) : PrimFloat.float :=
  let r i := nth i r 0%float in
  PrimFloat.add
    (PrimFloat.add (PrimFloat.add (r 0%nat) (r 1%nat)) (PrimFloat.add (r 2%nat) (r 3%nat)))
    (PrimFloat.add (PrimFloat.add (r 4%nat) (r 5%nat)) (PrimFloat.add (r 6%nat) (r 7%nat))).

(** numpy's [pairwise_sum] of a contiguous float64 array: fewer than 8
    entries are added from left to right; up to 128 entries go through 8
    accumulators and the entries after the last block of 8 are added one by
    one; a longer array is split at [n / 2] rounded down to a multiple of 8.
    [fuel] bounds the depth of the splitting; the length is enough. *)
Fixpoint pairwise_sum (fuel : nat) (a : list PrimFloat.float) : PrimFloat.float :=
  let n := length a in
  if (n <? 8)%nat then fold_left PrimFloat.add a 0%float
  else if (n <=? 128)%nat then
    let r := add_blocks (firstn 8 a) (skipn 8 a) (n / 8 - 1) in
    fold_left PrimFloat.add (skipn (n - n mod 8) a) (sum_accumulators r)
  else
    match fuel with
    | O => PrimFloat.nan
    | S fuel' =>
        let n2 := (n / 2 - (n / 2) mod 8)%nat in
        PrimFloat.add (pairwise_sum fuel' (firstn n2 a)) (pairwise_sum fuel' (skipn n2 a))
    end.

(** [numpy.add.reduce(a)]: the identity 0 plus the pairwise sum. *)
Definition float64_sum (a : list PrimFloat.float) : PrimFloat.float :=
  PrimFloat.add 0%float (pairwise_sum (length a) a).

(** [a.mean()]: [umr_sum(a) / n]. *)
Definition float64_mean (a : list PrimFloat.float) : PrimFloat.float :=
  PrimFloat.div (float64_sum a) (float64_of_nat (length a)).

(** [a.std()] (numpy's [_var] with [ddof = 0], then the square root):
      arrmean = umr_sum(a) / n; x = a - arrmean; x = x * x;
      sqrt(umr_sum(x) / n). *)
Definition float64_std (a : list PrimFloat.float) : PrimFloat.float :=
  let arrmean := float64_mean a in
  let x := map (fun v => PrimFloat.sub v arrmean) a in
  let x := map (fun v => PrimFloat.mul v v) x in
  PrimFloat.sqrt (PrimFloat.div (float64_sum x) (float64_of_nat (length a))).

(** The float64 number that Python reads for [0.1]: the nearest to one
    tenth, a little above it. *)
Definition float64_tenth : PrimFloat.float := 0x1.999999999999ap-4%float.

(** What [_make_mixture_for_column] does with a column: it returns [None],
    it returns the single Gaussian built from [col.mean()] and [std], or it
    goes on to the quantile partition and the variational fitter with the
    finite entries. *)
Inductive builder_branch : Type :=
| no_useful_samples
| single_gaussian (mean std : PrimFloat.float)
| variational_fit (col : list PrimFloat.float).

(** Lines 47 to 55 of [_make_mixture_for_column] on a float64 column. *)
Definition _make_mixture_for_column_float64 (col : list PrimFloat.float)
    (nmin_multigauss VB_iter : nat) : builder_branch :=
  let col := filter PrimFloat.is_finite col in
  let std := float64_std col in
  if (length col =? 0)%nat || negb (PrimFloat.ltb 0%float std) then no_useful_samples
  else if (length col <? nmin_multigauss)%nat || (VB_iter =? 0)%nat then
    single_gaussian (float64_mean col) std
  else variational_fit col.

(** ** The classifier over the pypmc engines *)

Section Classifier.

(** The state of numpy's global random generator. *)
Variable rng : Type.

(** [GaussianInference(data, initial_guess=mix, W0=...)], [run(iterations,
    rel_tol, abs_tol, prune, verbose)] and [make_mixture()], as one function
    of [data], [initial_guess], [W0], [iterations], [rel_tol], [abs_tol] and
    [prune]. *)
Variable GaussianInference :
  list R -> MixtureDensity -> R -> nat -> R -> R -> R -> MixtureDensity.

(** [ImportanceSampler(target.evaluate, proposal)], [run(N)] and
    [weights[:]]: the importance weights of [N] draws from the proposal, and
    the generator state after them. *)
Variable ImportanceSampler :
  MixtureDensity -> MixtureDensity -> nat -> rng -> list fl * rng.

(** [_make_mixture_for_column(colname, col, verbose, Ngauss_init,
    nmin_multigauss, VB_iter)].  The outer [option] is [None] when the call
    raises; the inner one is Python's [None], the absent mixture. *)
Definition _make_mixture_for_column (col : list fl)
    (Ngauss_init nmin_multigauss VB_iter : nat) : option (option MixtureDensity) :=
  let col := finite_values col in
  let std := np_std col in
  if (length col =? 0)%nat || negb (fl_lt (Fin 0) std) then Some None
  else if (length col <? nmin_multigauss)%nat || (VB_iter =? 0)%nat then
    Some (Some (create_gaussian_mixture [np_mean col] [std]))
  else
    match _make_single_mixture col Ngauss_init with
    | None => None
    | Some (means, covs) =>
        let mix := create_gaussian_mixture (map Fin means) (map Fin covs) in
        let vb_prune := 0.5 * INR (length col) / INR (length (components mix)) in
        Some (Some (GaussianInference col mix 1e10 VB_iter 1e-8 1e-5 vb_prune))
    end.

(** [self._make_mixture(x, colnames)] *)
Definition _make_mixture (self : MultiGaussNaiveBayesClassifier) (x : matrix)
    (colnames : option (list String.string)) : option fdists :=
  let ncolnames :=
    match colnames with
    | None => ncols x
    | Some names => length names
    end in
  if (ncolnames =? ncols x)%nat then
    sequence
      (map (fun col =>
              _make_mixture_for_column col (Ngauss_init (hyper self))
                (nmin_multigauss (hyper self)) (VB_iter (hyper self)))
           (transpose x))
  else None.

(** [self._evaluate_feature_dist(feature_distributions, x, logprior)] *)
Definition _evaluate_feature_dist (self : MultiGaussNaiveBayesClassifier)
    (feature_distributions : fdists) (x : matrix) (logprior : fl)
  : option (list fl) :=
  if (length feature_distributions =? ncols x)%nat then
    match sequence
            (map (fun p => logprob_column (snd p) (column (fst p) x))
                 (combine (seq 0 (length feature_distributions)) feature_distributions))
    with
    | None => None
    | Some logprob =>
        let logprob := map (map zero_missing) logprob in
        let logprob := map (map (floor_minprob (minprob (hyper self)))) logprob in
        Some (map (fun r => fl_add (fl_sum (map (fun c => nth r c (Fin 0)) logprob)) logprior)
                  (seq 0 (length x)))
    end
  else None.

(** The loop of [_evaluate_information_single] over the features that the
    [zip] pairs up. *)
Fixpoint information_loop (pairs : list (option MixtureDensity * option MixtureDensity))
    (g : rng) : list fl * rng :=
  match pairs with
  | [] => ([], g)
  | (Some mix1, Some mix2) :: rest =>
      let (w, g1) := ImportanceSampler mix2 mix1 2000 g in
      let KL := fl_opp (fl_mean (map (fun v => fl_log (fl_add v (Fin 1e-300))) w)) in
      let (KL_vector, g2) := information_loop rest g1 in
      (KL :: KL_vector, g2)
  | _ :: rest => information_loop rest g
  end.

(** [self._evaluate_information_single(columns, XT, l1, features1, mask1, l2,
    features2, mask2)]; the labels and the masks only reach the printing and
    the plots. *)
Definition _evaluate_information_single (columns : option (list String.string))
    (XT : matrix) (features1 features2 : fdists) (g : rng) : list fl * rng :=
  let ncolumns :=
    match columns with
    | None => ncols XT
    | Some names => length names
    end in
  information_loop (firstn ncolumns (combine features1 features2)) g.

(** [e] is the divergence estimate of line 213 for the two mixtures of one
    feature: both are present, and [e] is [-log(weights + 1e-300).mean()] for
    the weights of one run of the sampler over 2000 samples, with the density
    of the second mixture as target and the first mixture as proposal, from
    some state of the generator. *)
Definition KL_estimate_of (pair : option MixtureDensity * option MixtureDensity) (e : fl)
  : Prop :=
  exists mix1 mix2 g0,
    pair = (Some mix1, Some mix2)
    /\ e = fl_opp (fl_mean (map (fun w => fl_log (fl_add w (Fin 1e-300)))
                                (fst (ImportanceSampler mix2 mix1 2000 g0)))).

(** The first loop of [fit]: the profiles of the populated classes and their
    positions in [self.classes_]. *)
Fixpoint class_loop (self : MultiGaussNaiveBayesClassifier) (XT : matrix) (y : list Z)
    (i : nat) (classes : list Z) : option (list (Z * fdists) * list nat) :=
  match classes with
  | [] => Some ([], [])
  | label :: rest =>
      if negb (existsb (fun l => (l =? label)%Z) y) then class_loop self XT y (S i) rest
      else
        match _make_mixture self (rows_of_class label y XT) (column_names (hyper self)) with
        | None => None
        | Some feature_distributions =>
            match class_loop self XT y (S i) rest with
            | None => None
            | Some (class_properties, j) =>
                Some ((label, feature_distributions) :: class_properties, i :: j)
            end
        end
  end.

(** The inner loop of the second loop of [fit], for one [l1]. *)
Fixpoint KL_inner (self : MultiGaussNaiveBayesClassifier) (XT : matrix)
    (l1 : Z) (feature_distributions : fdists)
    (class_properties : list (Z * fdists)) (g : rng) : list (list fl) * rng :=
  match class_properties with
  | [] => ([], g)
  | (l2, feature_distributions2) :: rest =>
      if (l2 <=? l1)%Z then KL_inner self XT l1 feature_distributions rest g
      else
        let (KL12, g1) :=
          _evaluate_information_single (column_names (hyper self)) XT
            feature_distributions feature_distributions2 g in
        let (KL_vector, g2) := KL_inner self XT l1 feature_distributions rest g1 in
        (KL12 :: KL_vector, g2)
  end.

(** The second loop of [fit]. *)
Fixpoint KL_outer (self : MultiGaussNaiveBayesClassifier) (XT : matrix)
    (todo class_properties : list (Z * fdists)) (g : rng)
  : list (list (list fl)) * rng :=
  match todo with
  | [] => ([], g)
  | (l1, feature_distributions) :: rest =>
      let (KL_vector, g1) := KL_inner self XT l1 feature_distributions class_properties g in
      let (KL, g2) := KL_outer self XT rest class_properties g1 in
      (KL_vector :: KL, g2)
  end.

(** [self.fit(X, y)], from generator state [g].  [numpy.array(KL)] keeps the
    nested lists as they are. *)
Definition fit (self : MultiGaussNaiveBayesClassifier) (g : rng) (X : matrix) (y : list Z)
  : result unit * rng :=
  match check_X_y X y with
  | None => (Raised self, g)
  | Some (X, y) =>
      let classes :=
        match all_labels (hyper self) with
        | None => unique_labels y
        | Some labels => labels
        end in
      let self := set_training self classes X y in
      let self :=
        match islogvar self with
        | None => set_islogvar self (positive_columns X)
        | Some _ => self
        end in
      match where_islogvar (islogvar self) X with
      | None => (Raised self, g)
      | Some XT =>
          match class_loop self XT y 0 classes with
          | None => (Raised self, g)
          | Some (class_properties, j) =>
              let self := set_populated_columns_ self j in
              let (KL, g') := KL_outer self XT class_properties class_properties g in
              (Returned tt (set_fitted self KL class_properties), g')
          end
      end
  end.

(** [Ncovered = len(self.classes_); logprior = -log(Ncovered)] *)
Definition logprior_of (classes : list Z) : fl :=
  fl_opp (fl_log (Fin (INR (length classes)))).

(** [self._predict(X)].  Nothing is assigned before the last three lines, so
    a call that raises leaves the instance as it was. *)
Definition _predict (self : MultiGaussNaiveBayesClassifier) (X : matrix) : result unit :=
  match X_ self, y_ self with
  | Some _, Some _ =>
      match check_array X, classes_ self, class_properties_ self with
      | Some X, Some classes, Some class_properties =>
          let logprior := logprior_of classes in
          match where_islogvar (islogvar self) X with
          | None => Raised self
          | Some XT =>
              match sequence
                      (map (fun p => _evaluate_feature_dist self (snd p) XT logprior)
                           class_properties)
              with
              | None => Raised self
              | Some cols =>
                  let Xlogprobs :=
                    map (fun r => map (fun c => nth r c NaN) cols) (seq 0 (length X)) in
                  match sequence (map logsumexp Xlogprobs),
                        sequence (map argmax Xlogprobs) with
                  | Some logprobany, Some nearest =>
                      let Xlogprobs :=
                        map (fun p => map (fun v => fl_sub v (snd p)) (fst p))
                            (combine Xlogprobs logprobany) in
                      Returned tt (set_prediction self nearest Xlogprobs logprobany)
                  | _, _ => Raised self
                  end
              end
          end
      | _, _, _ => Raised self
      end
  | _, _ => Raised self
  end.

(** [self.predict(X)]: [self.nearest_] after [_predict]. *)
Definition predict (self : MultiGaussNaiveBayesClassifier) (X : matrix)
  : result (list nat) :=
  match _predict self X with
  | Raised self' => Raised self'
  | Returned _ self' =>
      match nearest_ self' with
      | Some nearest => Returned nearest self'
      | None => Raised self'
      end
  end.

(** [self.predict_proba(X)]: [exp(self.logproba_)] after [_predict]. *)
Definition predict_proba (self : MultiGaussNaiveBayesClassifier) (X : matrix)
  : result matrix :=
  match _predict self X with
  | Raised self' => Raised self'
  | Returned _ self' =>
      match logproba_ self' with
      | Some logproba => Returned (map (map fl_exp) logproba) self'
      | None => Raised self'
      end
  end.

(** [self.predict_log_proba(X)]: [self.logproba_] after [_predict]. *)
Definition predict_log_proba (self : MultiGaussNaiveBayesClassifier) (X : matrix)
  : result matrix :=
  match _predict self X with
  | Raised self' => Raised self'
  | Returned _ self' =>
      match logproba_ self' with
      | Some logproba => Returned logproba self'
      | None => Raised self'
      end
  end.

(** ** Properties of the idealised floats *)

#[local] Set Default Proof Using "Type".

Lemma Rltb_true (a b : R) : a < b -> Rltb a b = true.
Proof. intros H. unfold Rltb. destruct (Rlt_dec a b); [reflexivity | contradiction]. Qed.

Lemma Rltb_false (a b : R) : ~ a < b -> Rltb a b = false.
Proof. intros H. unfold Rltb. destruct (Rlt_dec a b); [contradiction | reflexivity]. Qed.

Lemma Reqb_true (a b : R) : a = b -> Reqb a b = true.
Proof. intros H. unfold Reqb. destruct (Req_dec_T a b); [reflexivity | contradiction]. Qed.

Lemma Reqb_false (a b : R) : a <> b -> Reqb a b = false.
Proof. intros H. unfold Reqb. destruct (Req_dec_T a b); [contradiction | reflexivity]. Qed.

Lemma Rltb_spec (a b : R) : Rltb a b = true <-> a < b.
Proof.
  unfold Rltb. destruct (Rlt_dec a b); split; intros H;
    [assumption | reflexivity | discriminate | contradiction].
Qed.

Lemma inf_of_sign_nonfinite (r : R) : isfinite (inf_of_sign r) = false.
Proof. unfold inf_of_sign. destruct (Rltb 0 r), (Rltb r 0); reflexivity. Qed.

Lemma fl_add_nonfinite_l (a b : fl) : isfinite a = false -> isfinite (fl_add a b) = false.
Proof. destruct a, b; simpl; intros; congruence. Qed.

Lemma fl_add_nonfinite_r (a b : fl) : isfinite b = false -> isfinite (fl_add a b) = false.
Proof. destruct a, b; simpl; intros; congruence. Qed.

Lemma fl_opp_nonfinite (a : fl) : isfinite a = false -> isfinite (fl_opp a) = false.
Proof. destruct a; simpl; intros; congruence. Qed.

Lemma fl_sub_nonfinite_l (a b : fl) : isfinite a = false -> isfinite (fl_sub a b) = false.
Proof. intros. unfold fl_sub. now apply fl_add_nonfinite_l. Qed.

Lemma fl_sub_nonfinite_r (a b : fl) : isfinite b = false -> isfinite (fl_sub a b) = false.
Proof. intros. unfold fl_sub. now apply fl_add_nonfinite_r, fl_opp_nonfinite. Qed.

Lemma fl_mul_nonfinite_r (a b : fl) : isfinite b = false -> isfinite (fl_mul a b) = false.
Proof.
  destruct a, b; simpl; intros; try congruence; apply inf_of_sign_nonfinite.
Qed.

Lemma fl_sqr_nonfinite (a : fl) : isfinite a = false -> isfinite (fl_sqr a) = false.
Proof. intros. unfold fl_sqr. now apply fl_mul_nonfinite_r. Qed.

Lemma fl_div_nonfinite_l (a b : fl) : isfinite a = false -> isfinite (fl_div a b) = false.
Proof.
  destruct a, b; simpl; intros; try congruence;
    match goal with |- context [Rltb ?x ?y] => destruct (Rltb x y) end; reflexivity.
Qed.

Lemma fl_add_0_l (a : fl) : fl_add (Fin 0) a = a.
Proof. destruct a; simpl; try reflexivity. now rewrite Rplus_0_l. Qed.

Lemma fl_add_0_r (a : fl) : fl_add a (Fin 0) = a.
Proof. destruct a; simpl; try reflexivity. now rewrite Rplus_0_r. Qed.

Lemma fl_sum_zeros (l : list fl) : Forall (fun v => v = Fin 0) l -> fl_sum l = Fin 0.
Proof.
  induction 1 as [|v l Hv _ IH]; simpl; [reflexivity|].
  now rewrite Hv, IH, fl_add_0_l.
Qed.

Lemma fl_max_choice (a b : fl) : fl_max a b = a \/ fl_max a b = b.
Proof. unfold fl_max. destruct (isnan a), (isnan b), (fl_lt a b); auto. Qed.

Lemma fold_fl_max_nonfinite (l : list fl) (v : fl) :
  isfinite v = false -> Forall (fun a => isfinite a = false) l ->
  isfinite (fold_left fl_max l v) = false.
Proof.
  revert v. induction l as [|a l IH]; simpl; intros v Hv Hl; [assumption|].
  inversion Hl; subst. apply IH; [|assumption].
  destruct (fl_max_choice v a) as [E|E]; rewrite E; assumption.
Qed.

(** The sum of exponentials of entries that are all missing: NaN, an
    infinity, or an exact zero. *)
Lemma sum_exp_nonfinite (l : list fl) :
  Forall (fun a => isfinite a = false) l ->
  isfinite (fl_log (fl_sum (map (fun a => fl_exp (fl_sub a (Fin 0))) l))) = false
  \/ l = [].
Proof.
  intros Hl.
  assert (H : fl_sum (map (fun a => fl_exp (fl_sub a (Fin 0))) l) = Fin 0
              \/ isfinite (fl_sum (map (fun a => fl_exp (fl_sub a (Fin 0))) l)) = false).
  { induction Hl as [|a l Ha _ IH]; simpl; [now left|].
    destruct IH as [E|E].
    - rewrite E. destruct a; simpl in *; try discriminate; auto.
      left. now rewrite Rplus_0_l.
    - right. now apply fl_add_nonfinite_r. }
  destruct l as [|a l]; [now right|left].
  destruct H as [E|E].
  - rewrite E. simpl. rewrite Rltb_false, Reqb_true by lra. reflexivity.
  - destruct (fl_sum _); simpl in *; try discriminate; reflexivity.
Qed.

Lemma logsumexp_nonfinite (l : list fl) :
  l <> [] -> Forall (fun a => isfinite a = false) l ->
  exists v, logsumexp l = Some v /\ isfinite v = false.
Proof.
  intros Hne Hl. destruct l as [|a l]; [congruence|].
  unfold logsumexp. simpl amax. cbv beta iota.
  inversion Hl; subst.
  rewrite (fold_fl_max_nonfinite l a) by assumption.
  eexists. split; [reflexivity|].
  apply fl_add_nonfinite_l.
  destruct (sum_exp_nonfinite (a :: l) Hl) as [E|E]; [exact E | discriminate].
Qed.

Lemma component_logprob_nonfinite (x : fl) (g : Gauss) (w : fl) :
  isfinite x = false -> isfinite (component_logprob x g w) = false.
Proof.
  intros Hx. unfold component_logprob.
  apply fl_add_nonfinite_l, fl_sub_nonfinite_r, fl_mul_nonfinite_r,
    fl_div_nonfinite_l, fl_sqr_nonfinite, fl_sub_nonfinite_l.
  assumption.
Qed.


(** ** Lists of optional results *)

Lemma sequence_Some {A : Type} (l : list (option A)) (r : list A) :
  sequence l = Some r <-> l = map Some r.
Proof.
  revert r. induction l as [|o l IH]; intros r; simpl.
  - split; intros H.
    + injection H as <-. reflexivity.
    + destruct r; [reflexivity | discriminate].
  - destruct o as [a|].
    + destruct (sequence l) as [r'|] eqn:E.
      * split; intros H.
        -- injection H as <-. simpl. f_equal. now apply IH.
        -- destruct r as [|b r]; [discriminate|]. simpl in H.
           injection H as -> H. apply IH in H. congruence.
      * split; intros H; [discriminate|].
        destruct r as [|b r]; [discriminate|]. simpl in H.
        injection H as -> H. apply IH in H. discriminate.
    + split; intros H; [discriminate|].
      destruct r; discriminate.
Qed.

Lemma sequence_map_Some {A B : Type} (f : A -> option B) (g : A -> B) (l : list A) :
  (forall a, In a l -> f a = Some (g a)) -> sequence (map f l) = Some (map g l).
Proof.
  intros H. apply sequence_Some. rewrite map_map.
  apply map_ext_in. exact H.
Qed.

Lemma sequence_length {A : Type} (l : list (option A)) (r : list A) :
  sequence l = Some r -> length r = length l.
Proof. intros H. apply sequence_Some in H. subst. now rewrite length_map. Qed.

Lemma sequence_total {A : Type} (l : list (option A)) :
  (forall o, In o l -> o <> None) -> exists r, sequence l = Some r.
Proof.
  induction l as [|o l IH]; intros H; simpl.
  - now exists [].
  - destruct o as [a|]; [|exfalso; apply (H None); [now left | reflexivity]].
    destruct IH as [r E]; [intros o Ho; apply H; now right|].
    rewrite E. now eexists.
Qed.

Lemma sequence_nth {A : Type} (l : list (option A)) (r : list A) (i : nat) (a : A) :
  sequence l = Some r -> nth_error l i = Some (Some a) -> nth_error r i = Some a.
Proof.
  intros H Hi. apply sequence_Some in H. subst.
  rewrite nth_error_map in Hi. destruct (nth_error r i); simpl in Hi; congruence.
Qed.

(** ** The aggregator on missing values *)

Lemma floor_minprob_zero (mp : R) : mp <= 1 -> floor_minprob mp (Fin 0) = Fin 0.
Proof.
  intros Hmp. unfold floor_minprob, fl_log.
  destruct (Rlt_dec 0 mp) as [Hpos|Hneg].
  - rewrite (Rltb_true 0 mp) by assumption. simpl.
    rewrite Rltb_false; [reflexivity|].
    assert (ln mp <= 0).
    { rewrite <- ln_1. destruct (Req_dec mp 1) as [->|Hne]; [lra|].
      left. apply ln_increasing; lra. }
    lra.
  - rewrite (Rltb_false 0 mp) by assumption.
    destruct (Reqb mp 0); reflexivity.
Qed.

Lemma mixture_ok_spec (m : MixtureDensity) :
  mixture_ok m = true ->
  components m <> [] /\ length (weights m) = length (components m).
Proof.
  unfold mixture_ok. intros H. apply andb_true_iff in H as [H1 H2].
  apply Nat.eqb_eq in H2. split; [|assumption].
  destruct (components m); [discriminate | congruence].
Qed.

(** Where the observation is missing, a present mixture yields a value that
    is not finite. *)
Lemma mixture_logprob_nonfinite (m : MixtureDensity) (x : fl) :
  mixture_ok m = true -> isfinite x = false ->
  exists v,
    logsumexp (map (fun p => component_logprob x (fst p) (snd p))
                   (combine (components m) (weights m))) = Some v
    /\ isfinite v = false.
Proof.
  intros Hok Hx. apply mixture_ok_spec in Hok as [Hne Hlen].
  apply logsumexp_nonfinite.
  - destruct (components m) as [|c cs]; [congruence|].
    destruct (weights m) as [|w ws]; [discriminate|]. discriminate.
  - apply Forall_forall. intros v Hv. apply in_map_iff in Hv as [p [<- _]].
    now apply component_logprob_nonfinite.
Qed.

(** Every column of [logprob] exists when the mixtures are well formed. *)
Lemma logprob_column_total (mix : option MixtureDensity) (xcol : list fl) :
  match mix with None => True | Some m => mixture_ok m = true end ->
  exists col, logprob_column mix xcol = Some col /\ length col = length xcol.
Proof.
  intros Hok. destruct mix as [m|]; simpl.
  - destruct (mixture_ok_spec m Hok) as [Hne Hlen].
    rewrite Hlen, Nat.eqb_refl.
    destruct (sequence_total
                (map (fun x => logsumexp (map (fun p => component_logprob x (fst p) (snd p))
                                              (combine (components m) (weights m)))) xcol))
      as [col E].
    + intros o Ho. apply in_map_iff in Ho as [x [<- _]].
      unfold logsumexp.
      destruct (components m) as [|c cs]; [congruence|].
      destruct (weights m) as [|w ws]; [discriminate|]. simpl. discriminate.
    + exists col. split; [assumption|].
      apply sequence_length in E. now rewrite E, length_map.
  - eexists. split; [reflexivity|]. now rewrite length_map.
Qed.

(** The entry of a cleaned column at a row whose observation is missing. *)
Lemma cleaned_entry_missing (mp : R) (mix : option MixtureDensity) (xcol col : list fl)
    (r : nat) :
  mp <= 1 ->
  logprob_column mix xcol = Some col ->
  isfinite (nth r xcol NaN) = false ->
  nth r (map (floor_minprob mp) (map zero_missing col)) (Fin 0) = Fin 0.
Proof.
  intros Hmp Hcol Hx.
  rewrite map_map.
  destruct (nth_error col r) as [v|] eqn:Ev.
  2:{ apply nth_error_None in Ev. apply nth_overflow. now rewrite length_map. }
  rewrite (nth_indep _ (Fin 0) (floor_minprob mp (zero_missing v)))
    by (rewrite length_map; apply nth_error_Some; congruence).
  rewrite (map_nth (fun v => floor_minprob mp (zero_missing v))).
  rewrite (nth_error_nth _ _ _ Ev).
  assert (Hz : zero_missing v = Fin 0).
  { destruct mix as [m|]; simpl in Hcol.
    - destruct (length (weights m) =? length (components m))%nat eqn:El; [|discriminate].
      apply sequence_Some in Hcol.
      assert (Hlen : length col = length xcol).
      { apply (f_equal (@length _)) in Hcol. rewrite !length_map in Hcol. congruence. }
      assert (Hr : (r < length xcol)%nat).
      { rewrite <- Hlen. apply nth_error_Some. congruence. }
      apply (f_equal (fun l => nth_error l r)) in Hcol.
      rewrite !nth_error_map, Ev in Hcol.
      rewrite (nth_error_nth' xcol NaN Hr) in Hcol. simpl in Hcol.
      destruct (mixture_logprob_nonfinite m (nth r xcol NaN)) as [w [Ew Hw]].
      + unfold mixture_ok. rewrite El, andb_true_r.
        destruct (components m) as [|c cs] eqn:Ec; [|reflexivity].
        exfalso. simpl in Hcol. unfold logsumexp in Hcol. simpl in Hcol. discriminate.
      + assumption.
      + rewrite Ew in Hcol. injection Hcol as <-.
        unfold zero_missing. now rewrite Hw.
    - injection Hcol as <-. rewrite nth_error_map in Ev.
      destruct (nth_error xcol r); simpl in Ev; [|discriminate].
      injection Ev as <-. reflexivity. }
  rewrite Hz. now apply floor_minprob_zero.
Qed.

Lemma column_nth (i r : nat) (x : matrix) (row : list fl) :
  nth_error x r = Some row -> nth r (column i x) NaN = nth i row NaN.
Proof.
  intros H. unfold column.
  rewrite (nth_indep _ NaN (nth i [] NaN))
    by (rewrite length_map; apply nth_error_Some; congruence).
  rewrite (map_nth (fun r0 => nth i r0 NaN)).
  now rewrite (nth_error_nth _ _ _ H).
Qed.

Lemma missing_entry (row : list fl) (i : nat) :
  Forall (fun v => isfinite v = false) row -> isfinite (nth i row NaN) = false.
Proof.
  intros H. destruct (nth_in_or_default i row NaN) as [Hin | ->]; [|reflexivity].
  rewrite Forall_forall in H. now apply H.
Qed.

(** C6.  In a batch whose columns are those of the feature distributions, a
    row all of whose values are non-finite gets from the aggregator exactly
    the log-prior it was given, for any class: every feature contributes
    zero.  The mixtures are any well-formed ones and [minprob] is at most
    one, as the constructor's [1e-5] is. *)
Theorem missing_row_scores_logprior
    (self : MultiGaussNaiveBayesClassifier) (feature_distributions : fdists)
    (x : matrix) (logprior : fl) (r : nat) (row : list fl) :
  minprob (hyper self) <= 1 ->
  fdists_ok feature_distributions ->
  length feature_distributions = ncols x ->
  nth_error x r = Some row ->
  Forall (fun v => isfinite v = false) row ->
  exists scores,
    _evaluate_feature_dist self feature_distributions x logprior = Some scores
    /\ nth_error scores r = Some logprior.
Proof.
  intros Hmp Hok Hlen Hrow Hmiss.
  unfold _evaluate_feature_dist. rewrite Hlen, Nat.eqb_refl. rewrite <- Hlen.
  set (f := fun p : nat * option MixtureDensity => logprob_column (snd p) (column (fst p) x)).
  destruct (sequence_total
              (map f (combine (seq 0 (length feature_distributions)) feature_distributions)))
    as [logprob E].
  { intros o Ho. apply in_map_iff in Ho as [[i mix] [<- Hin]].
    apply in_combine_r in Hin. unfold f. simpl.
    destruct (logprob_column_total mix (column i x)) as [col [-> _]]; [|discriminate].
    unfold fdists_ok in Hok. rewrite Forall_forall in Hok. now apply Hok. }
  rewrite E. eexists. split; [reflexivity|].
  assert (Hr : (r < length x)%nat) by (apply nth_error_Some; congruence).
  rewrite nth_error_map, (nth_error_nth' _ 0%nat) by (now rewrite length_seq).
  rewrite seq_nth by assumption. simpl. f_equal.
  rewrite fl_sum_zeros; [apply fl_add_0_l|].
  apply Forall_forall. intros v Hv.
  apply in_map_iff in Hv as [c [<- Hc]].
  apply in_map_iff in Hc as [c1 [<- Hc1]].
  apply in_map_iff in Hc1 as [col [<- Hcol]].
  apply sequence_Some in E.
  assert (Hs : In (Some col) (map f (combine (seq 0 (length feature_distributions))
                                             feature_distributions))).
  { rewrite E. now apply in_map. }
  apply in_map_iff in Hs as [[i mix] [Hf _]]. unfold f in Hf. simpl in Hf.
  apply (cleaned_entry_missing _ mix (column i x)); [assumption | assumption |].
  rewrite (column_nth i r x row Hrow). now apply missing_entry.
Qed.

(** ** Prediction leaves the fitted state alone *)

Lemma _predict_frame (self : MultiGaussNaiveBayesClassifier) (X : matrix) :
  fitted_state (instance_of (_predict self X)) = fitted_state self.
Proof.
  unfold _predict.
  repeat match goal with
         | |- context [match ?t with _ => _ end] => destruct t
         end; reflexivity.
Qed.

(** C10.  Whatever the instance and the input, and whether the call returns
    or raises, the instance left by [predict], [predict_proba] and
    [predict_log_proba] has the stored training data, class set, class
    profiles, transform flags, KL structure and populated positions it had
    before the call. *)
Theorem prediction_keeps_fitted_state (self : MultiGaussNaiveBayesClassifier) (X : matrix) :
  fitted_state (instance_of (predict self X)) = fitted_state self
  /\ fitted_state (instance_of (predict_proba self X)) = fitted_state self
  /\ fitted_state (instance_of (predict_log_proba self X)) = fitted_state self.
Proof.
  pose proof (_predict_frame self X) as H.
  unfold predict, predict_proba, predict_log_proba.
  destruct (_predict self X) as [v self'|self']; simpl in *.
  - destruct (nearest_ self'), (logproba_ self'); simpl; auto.
  - auto.
Qed.

(** ** Degenerate columns *)

Lemma variance_constant (c : R) (l : list R) :
  (forall v, In v l -> v = c) -> variance l = 0.
Proof.
  intros H. destruct l as [|a l]; [unfold variance; simpl; lra|].
  assert (Hn : INR (length (a :: l)) <> 0) by (apply not_0_INR; discriminate).
  assert (Hs : forall l', (forall v, In v l' -> v = c) -> Rsum l' = c * INR (length l')).
  { induction l' as [|b l' IH]; intros Hl'; [simpl; lra|].
    change (Rsum (b :: l')) with (b + Rsum l').
    rewrite IH by (intros; apply Hl'; now right).
    rewrite (Hl' b) by now left.
    simpl length. rewrite S_INR. lra. }
  unfold variance. rewrite (Hs _ H).
  replace (c * INR (length (a :: l)) / INR (length (a :: l))) with c by (field; assumption).
  assert (Hz : forall l', (forall v, In v l' -> v = c) ->
                          Rsum (map (fun v => (v - c) * (v - c)) l') = 0).
  { induction l' as [|b l' IH]; intros Hl'; [reflexivity|].
    simpl. rewrite IH by (intros; apply Hl'; now right).
    rewrite (Hl' b) by now left. lra. }
  rewrite (Hz _ H). field. assumption.
Qed.

Lemma degenerate_column_absent (col : list fl) (K nmin it : nat) :
  finite_values col = [] \/ variance (finite_values col) = 0 ->
  _make_mixture_for_column col K nmin it = Some None.
Proof.
  intros H. unfold _make_mixture_for_column.
  destruct (finite_values col) as [|a l] eqn:E; [reflexivity|].
  destruct H as [H|H]; [discriminate|].
  unfold np_std. rewrite H, sqrt_0. simpl.
  rewrite (Rltb_false 0 0) by lra. reflexivity.
Qed.

(** ** An absent mixture can be deleted from the aggregation *)

Lemma combine_seq_app {A : Type} (s : nat) (l1 l2 : list A) :
  combine (seq s (length (l1 ++ l2))) (l1 ++ l2)
  = combine (seq s (length l1)) l1 ++ combine (seq (s + length l1) (length l2)) l2.
Proof.
  revert s. induction l1 as [|a l1 IH]; intros s; simpl.
  - now rewrite Nat.add_0_r.
  - f_equal. rewrite IH. now rewrite Nat.add_succ_r.
Qed.

Lemma sequence_app {A : Type} (l1 l2 : list (option A)) :
  sequence (l1 ++ l2)
  = match sequence l1, sequence l2 with
    | Some r1, Some r2 => Some (r1 ++ r2)
    | _, _ => None
    end.
Proof.
  induction l1 as [|o l1 IH]; simpl.
  - destruct (sequence l2); reflexivity.
  - destruct o; [|reflexivity]. rewrite IH.
    destruct (sequence l1), (sequence l2); reflexivity.
Qed.

Lemma fl_sum_insert_zero (a b : list fl) :
  fl_sum (a ++ Fin 0 :: b) = fl_sum (a ++ b).
Proof.
  induction a as [|v a IH]; simpl.
  - apply fl_add_0_l.
  - now rewrite IH.
Qed.

Lemma delete_nth_before {A : Type} (d : A) (i k : nat) (l : list A) :
  (k < i)%nat -> (i <= length l)%nat -> nth k (delete_nth i l) d = nth k l d.
Proof.
  intros Hk Hi. unfold delete_nth.
  rewrite app_nth1 by (rewrite length_firstn; lia).
  rewrite <- (firstn_skipn i l) at 2.
  rewrite app_nth1 by (rewrite length_firstn; lia). reflexivity.
Qed.

Lemma delete_nth_after {A : Type} (d : A) (i k : nat) (l : list A) :
  (i <= k)%nat -> (i <= length l)%nat -> nth k (delete_nth i l) d = nth (S k) l d.
Proof.
  intros Hk Hi. unfold delete_nth.
  rewrite app_nth2 by (rewrite length_firstn; lia).
  rewrite length_firstn, Nat.min_l by assumption.
  rewrite nth_skipn. f_equal. lia.
Qed.

Lemma delete_nth_length {A : Type} (i : nat) (l : list A) :
  (i < length l)%nat -> length (delete_nth i l) = (length l - 1)%nat.
Proof.
  intros H. unfold delete_nth. rewrite length_app, length_firstn, length_skipn. lia.
Qed.

Lemma variance_singleton (a : R) : variance [a] = 0.
Proof. apply (variance_constant a). intros v [<-|[]]. reflexivity. Qed.

Lemma zero_column_entry (mp : R) (r : nat) (l : list fl) :
  mp <= 1 ->
  nth r (map (floor_minprob mp) (map zero_missing (map (fun _ => Fin 0) l))) (Fin 0) = Fin 0.
Proof.
  intros Hmp. rewrite !map_map. revert r.
  induction l as [|a l IH]; intros [|r]; simpl; try reflexivity.
  - now apply floor_minprob_zero.
  - apply IH.
Qed.

Lemma column_delete_before (n k : nat) (x : matrix) :
  (k < n)%nat -> (forall row, In row x -> (n <= length row)%nat) ->
  column k (map (delete_nth n) x) = column k x.
Proof.
  intros Hk Hx. unfold column. rewrite map_map. apply map_ext_in.
  intros row Hrow. apply delete_nth_before; auto.
Qed.

Lemma column_delete_after (n k : nat) (x : matrix) :
  (n <= k)%nat -> (forall row, In row x -> (n <= length row)%nat) ->
  column k (map (delete_nth n) x) = column (S k) x.
Proof.
  intros Hk Hx. unfold column. rewrite map_map. apply map_ext_in.
  intros row Hrow. apply delete_nth_after; auto.
Qed.

Lemma columns_shift (n : nat) (x : matrix) (fd : fdists) (s : nat) :
  (n <= s)%nat -> (forall row, In row x -> (n <= length row)%nat) ->
  map (fun p => logprob_column (snd p) (column (fst p) x))
      (combine (seq (S s) (length fd)) fd)
  = map (fun p => logprob_column (snd p) (column (fst p) (map (delete_nth n) x)))
        (combine (seq s (length fd)) fd).
Proof.
  intros Hs Hx. revert s Hs. induction fd as [|mix fd IH]; intros s Hs; [reflexivity|].
  simpl. rewrite (column_delete_after n s x) by assumption.
  f_equal. apply IH. lia.
Qed.

Lemma columns_keep (n : nat) (x : matrix) (fd : fdists) :
  (length fd <= n)%nat -> (forall row, In row x -> (n <= length row)%nat) ->
  map (fun p => logprob_column (snd p) (column (fst p) x))
      (combine (seq 0 (length fd)) fd)
  = map (fun p => logprob_column (snd p) (column (fst p) (map (delete_nth n) x)))
        (combine (seq 0 (length fd)) fd).
Proof.
  intros Hn Hx. apply map_ext_in. intros [k mix] Hin. simpl.
  apply in_combine_l in Hin. apply in_seq in Hin.
  rewrite (column_delete_before n k x); [reflexivity | lia | assumption].
Qed.

(** X22.  A feature whose mixture is absent adds exactly zero to every
    row's score: on every batch that has rows of the width of the profile,
    [_evaluate_feature_dist] returns what it returns on the profile and the
    batch without that feature, and raises when it raises there ([minprob]
    at most one, as the constructor's 1e-5). *)
Theorem absent_mixture_contributes_zero
    (self : MultiGaussNaiveBayesClassifier) (fd1 fd2 : fdists) (x : matrix)
    (logprior : fl) :
  minprob (hyper self) <= 1 ->
  x <> [] ->
  (forall row, In row x -> length row = length (fd1 ++ None :: fd2)) ->
  _evaluate_feature_dist self (fd1 ++ None :: fd2) x logprior
  = _evaluate_feature_dist self (fd1 ++ fd2) (map (delete_nth (length fd1)) x) logprior.
Proof.
  intros Hmp Hne Hrect.
  assert (Hrows : forall row, In row x -> (length fd1 <= length row)%nat).
  { intros row Hrow. rewrite (Hrect row Hrow), length_app. lia. }
  assert (Hn1 : ncols x = length (fd1 ++ None :: fd2)).
  { destruct x as [|row0 x']; [congruence|]. simpl. apply Hrect. now left. }
  assert (Hn2 : ncols (map (delete_nth (length fd1)) x) = length (fd1 ++ fd2)).
  { destruct x as [|row0 x']; [congruence|]. simpl.
    assert (H0 : length row0 = length (fd1 ++ None :: fd2)) by (apply Hrect; now left).
    rewrite delete_nth_length; rewrite H0, !length_app; simpl; lia. }
  unfold _evaluate_feature_dist. rewrite Hn1, Hn2, !Nat.eqb_refl.
  rewrite !combine_seq_app, !map_app, !sequence_app. simpl.
  rewrite <- (columns_keep (length fd1) x fd1) by auto.
  rewrite (columns_shift (length fd1) x fd2 (length fd1)) by auto.
  destruct (sequence (map (fun p => logprob_column (snd p) (column (fst p) x))
                          (combine (seq 0 (length fd1)) fd1))) as [c1|]; [|reflexivity].
  destruct (sequence (map (fun p => logprob_column (snd p)
                                      (column (fst p) (map (delete_nth (length fd1)) x)))
                          (combine (seq (length fd1) (length fd2)) fd2))) as [c2|];
    [|reflexivity].
  f_equal. rewrite length_map. apply map_ext. intros r. f_equal.
  rewrite !map_app. simpl. rewrite zero_column_entry by assumption.
  apply fl_sum_insert_zero.
Qed.

(** The fast path of the builder: a single Gauss whose covariance is given
    the standard deviation [std]. *)
Lemma small_column_single (col : list fl) (K nmin it : nat) :
  finite_values col <> [] ->
  0 < variance (finite_values col) ->
  (length (finite_values col) < nmin)%nat \/ it = 0%nat ->
  _make_mixture_for_column col K nmin it =
    Some (Some (create_gaussian_mixture [np_mean (finite_values col)]
                                        [np_std (finite_values col)])).
Proof.
  intros Hne Hvar Hsmall. unfold _make_mixture_for_column.
  destruct (finite_values col) as [|a l] eqn:E; [congruence|].
  replace (length (a :: l) =? 0)%nat with false by reflexivity.
  unfold np_std at 1. simpl fl_lt.
  rewrite Rltb_true by (now apply sqrt_lt_R0). simpl negb. simpl orb.
  cbv iota.
  match goal with |- (if ?b then _ else _) = _ => replace b with true end;
    [reflexivity|].
  symmetry. apply orb_true_iff. destruct Hsmall as [H| ->].
  - left. apply Nat.ltb_lt. simpl in H. lia.
  - now right.
Qed.

(** ** What [fit] computes *)

Lemma check_array_inv (X X' : matrix) :
  check_array X = Some X' ->
  X' = X /\ X <> [] /\ (0 < ncols X)%nat
  /\ (forall row, In row X -> length row = ncols X)
  /\ (forall row v, In row X -> In v row -> isinf v = false).
Proof.
  unfold check_array. destruct X as [|r X]; [discriminate|].
  destruct (_ && _ && _) eqn:E; [|discriminate].
  intros H. injection H as <-.
  apply andb_true_iff in E as [E E3]. apply andb_true_iff in E as [E1 E2].
  apply Nat.ltb_lt in E1.
  rewrite forallb_forall in E2, E3.
  repeat split; try assumption; try discriminate.
  - intros row Hrow. apply Nat.eqb_eq. now apply E2.
  - intros row v Hrow Hv. specialize (E3 row Hrow).
    rewrite forallb_forall in E3. specialize (E3 v Hv).
    now apply negb_true_iff in E3.
Qed.

Lemma check_X_y_inv (X : matrix) (y : list Z) (X' : matrix) (y' : list Z) :
  check_X_y X y = Some (X', y') ->
  X' = X /\ y' = y /\ check_array X = Some X /\ length X = length y.
Proof.
  unfold check_X_y. destruct (check_array X) as [X0|] eqn:E; [|discriminate].
  destruct (check_array_inv X X0 E) as [-> _].
  destruct (length X =? length y)%nat eqn:El; [|discriminate].
  intros H. injection H as <- <-. apply Nat.eqb_eq in El. auto.
Qed.

Lemma _make_mixture_hyper (a b : MultiGaussNaiveBayesClassifier) (x : matrix)
    (colnames : option (list String.string)) :
  hyper a = hyper b -> _make_mixture a x colnames = _make_mixture b x colnames.
Proof. intros H. unfold _make_mixture. now rewrite H. Qed.

Lemma class_loop_hyper (a b : MultiGaussNaiveBayesClassifier) (XT : matrix) (y : list Z)
    (i : nat) (classes : list Z) :
  hyper a = hyper b -> class_loop a XT y i classes = class_loop b XT y i classes.
Proof.
  intros H. revert i. induction classes as [|label rest IH]; intros i; [reflexivity|].
  simpl. rewrite (IH (S i)), (_make_mixture_hyper a b) by assumption.
  now rewrite H.
Qed.

Lemma KL_inner_hyper (a b : MultiGaussNaiveBayesClassifier) (XT : matrix) (l1 : Z)
    (fd : fdists) (cp : list (Z * fdists)) (g : rng) :
  hyper a = hyper b -> KL_inner a XT l1 fd cp g = KL_inner b XT l1 fd cp g.
Proof.
  intros H. revert g. induction cp as [|[l2 fd2] rest IH]; intros g; [reflexivity|].
  simpl. rewrite H. destruct (l2 <=? l1)%Z; [apply IH|].
  destruct (_evaluate_information_single _ _ _ _ _) as [KL12 g1].
  now rewrite IH.
Qed.

Lemma KL_outer_hyper (a b : MultiGaussNaiveBayesClassifier) (XT : matrix)
    (todo cp : list (Z * fdists)) (g : rng) :
  hyper a = hyper b -> KL_outer a XT todo cp g = KL_outer b XT todo cp g.
Proof.
  intros H. revert g. induction todo as [|[l1 fd] rest IH]; intros g; [reflexivity|].
  simpl. rewrite (KL_inner_hyper a b) by assumption.
  destruct (KL_inner b XT l1 fd cp g) as [v g1]. now rewrite IH.
Qed.

(** The class set and the transform flags that a call of [fit] works with. *)
Lemma fit_returned (self : MultiGaussNaiveBayesClassifier) (g : rng) (X : matrix)
    (y : list Z) (self' : MultiGaussNaiveBayesClassifier) (g' : rng) :
  fit self g X y = (Returned tt self', g') ->
  exists XT cp j KL,
    check_X_y X y = Some (X, y)
    /\ where_islogvar
         (Some (match islogvar self with
                | None => positive_columns X
                | Some flags => flags
                end)) X = Some XT
    /\ class_loop self XT y 0
         (match all_labels (hyper self) with
          | None => unique_labels y
          | Some labels => labels
          end) = Some (cp, j)
    /\ KL_outer self XT cp cp g = (KL, g')
    /\ self' =
         {| hyper := hyper self;
            islogvar := Some (match islogvar self with
                              | None => positive_columns X
                              | Some flags => flags
                              end);
            classes_ := Some (match all_labels (hyper self) with
                              | None => unique_labels y
                              | Some labels => labels
                              end);
            X_ := Some X; y_ := Some y;
            populated_columns_ := Some j; KL_ := Some KL;
            class_properties_ := Some cp;
            nearest_ := nearest_ self; logproba_ := logproba_ self;
            surprise_ := surprise_ self |}.
Proof.
  unfold fit. destruct (check_X_y X y) as [[X0 y0]|] eqn:Ec; [|discriminate].
  destruct (check_X_y_inv _ _ _ _ Ec) as [-> [-> _]].
  set (classes := match all_labels (hyper self) with
                  | None => unique_labels y | Some labels => labels end).
  set (s1 := set_training self classes X y).
  set (s2 := match islogvar s1 with
             | None => set_islogvar s1 (positive_columns X) | Some _ => s1 end).
  assert (Hh : hyper s2 = hyper self).
  { unfold s2. destruct (islogvar s1); reflexivity. }
  assert (Hf : islogvar s2 = Some (match islogvar self with
                                   | None => positive_columns X
                                   | Some flags => flags end)).
  { unfold s2, s1. simpl. destruct (islogvar self) eqn:E; simpl; [assumption|reflexivity]. }
  rewrite Hf.
  destruct (where_islogvar _ X) as [XT|] eqn:Ew; [|discriminate].
  rewrite (class_loop_hyper s2 self) by assumption.
  destruct (class_loop self XT y 0 classes) as [[cp j]|] eqn:El; [|discriminate].
  rewrite (KL_outer_hyper (set_populated_columns_ s2 j) self) by assumption.
  destruct (KL_outer self XT cp cp g) as [KL g1] eqn:Ek.
  intros H. injection H as <- <-.
  exists XT, cp, j, KL. repeat split; try assumption.
  clear. subst s2 s1. unfold set_fitted, set_populated_columns_. cbn.
  destruct (islogvar self) eqn:E; cbn; rewrite ?E; reflexivity.
Qed.

(** ** The class set and the log-prior *)

Lemma class_loop_labels (self : MultiGaussNaiveBayesClassifier) (XT : matrix) (y : list Z)
    (i : nat) (classes : list Z) (cp : list (Z * fdists)) (j : list nat) :
  class_loop self XT y i classes = Some (cp, j) ->
  map fst cp = filter (fun label => existsb (fun l => (l =? label)%Z) y) classes
  /\ length j = length cp.
Proof.
  revert i cp j. induction classes as [|label rest IH]; intros i cp j; simpl.
  - intros H. injection H as <- <-. auto.
  - destruct (existsb (fun l => (l =? label)%Z) y) eqn:E; simpl.
    + destruct (_make_mixture self (rows_of_class label y XT) (column_names (hyper self)))
        as [fd|]; [|discriminate].
      destruct (class_loop self XT y (S i) rest) as [[cp' j']|] eqn:El; [|discriminate].
      intros H. injection H as <- <-. destruct (IH _ _ _ El) as [H1 H2].
      simpl. split; congruence.
    + apply IH.
Qed.

Lemma insert_label_in (l a : Z) (ls : list Z) :
  In a (insert_label l ls) -> a = l \/ In a ls.
Proof.
  clear. induction ls as [|h t IH]; simpl.
  - intros [H|[]]; auto.
  - destruct (l <? h)%Z; [simpl; intuition|].
    destruct (l =? h)%Z; [simpl; intuition|].
    simpl. intros [H|H]; [auto|]. destruct (IH H); auto.
Qed.

Lemma unique_labels_in (a : Z) (y : list Z) : In a (unique_labels y) -> In a y.
Proof.
  induction y as [|l y IH]; simpl; [auto|].
  intros H. apply insert_label_in in H as [H|H]; auto.
Qed.

Lemma populated_all (classes y : list Z) :
  (forall label, In label classes -> In label y) ->
  populated_classes classes y = length classes.
Proof.
  intros H. unfold populated_classes. f_equal.
  induction classes as [|c classes IH]; [reflexivity|].
  simpl. replace (existsb (fun l => (l =? c)%Z) y) with true.
  - f_equal. apply IH. intros; apply H; now right.
  - symmetry. apply existsb_exists. exists c. split; [apply H; now left | apply Z.eqb_refl].
Qed.

(** ** The shape of the transformed matrix and of the class profiles *)

Lemma sequence_in {A B : Type} (f : A -> option B) (l : list A) (r : list B) (b : B) :
  sequence (map f l) = Some r -> In b r -> exists a, In a l /\ f a = Some b.
Proof.
  intros H Hb. apply sequence_Some in H.
  assert (Hin : In (Some b) (map f l)) by (rewrite H; now apply in_map).
  apply in_map_iff in Hin as [a [Ha Hin]]. eauto.
Qed.

Lemma where_row_length (flags : list bool) (row row' : list fl) :
  where_row flags row = Some row' ->
  length row' =
    if (length flags =? length row)%nat then length row
    else if (length flags =? 1)%nat then length row
    else length flags.
Proof.
  unfold where_row.
  destruct (length flags =? length row)%nat eqn:E1.
  - intros H. injection H as <-. rewrite length_map, length_combine.
    apply Nat.eqb_eq in E1. lia.
  - destruct (length flags =? 1)%nat.
    + intros H. injection H as <-. now rewrite length_map.
    + destruct (length row =? 1)%nat; [|discriminate].
      intros H. injection H as <-. now rewrite length_map.
Qed.

Lemma where_islogvar_rect (flags : list bool) (X XT : matrix) (d0 : nat) :
  (forall row, In row X -> length row = d0) ->
  where_islogvar (Some flags) X = Some XT ->
  length XT = length X
  /\ exists d, forall row, In row XT -> length row = d.
Proof.
  simpl. intros Hrect H. split.
  - apply sequence_length in H. now rewrite length_map in H.
  - exists (if (length flags =? d0)%nat then d0
            else if (length flags =? 1)%nat then d0 else length flags).
    intros row' Hin.
    destruct (sequence_in _ _ _ _ H Hin) as [row [Hrow Hw]].
    apply where_row_length in Hw. now rewrite (Hrect row Hrow) in Hw.
Qed.

Lemma ncols_rect (x : matrix) (d : nat) :
  x <> [] -> (forall row, In row x -> length row = d) -> ncols x = d.
Proof.
  intros Hne H. destruct x as [|r x]; [congruence|]. simpl. apply H. now left.
Qed.

Lemma rows_of_class_in (label : Z) (y : list Z) (XT : matrix) (row : list fl) :
  In row (rows_of_class label y XT) -> In row XT.
Proof.
  unfold rows_of_class. intros H. apply in_map_iff in H as [[l r] [<- H]].
  apply filter_In in H as [H _]. now apply in_combine_r in H.
Qed.

Lemma rows_of_class_nonempty (label : Z) (y : list Z) (XT : matrix) :
  length XT = length y ->
  existsb (fun l => (l =? label)%Z) y = true ->
  rows_of_class label y XT <> [].
Proof.
  revert XT. induction y as [|l y IH]; intros XT Hlen; simpl; [discriminate|].
  destruct XT as [|row XT]; [discriminate|].
  unfold rows_of_class. simpl. destruct (l =? label)%Z eqn:E; simpl.
  - discriminate.
  - intros H. apply (IH XT); [simpl in Hlen; lia | assumption].
Qed.

Lemma transpose_length (x : matrix) : length (transpose x) = ncols x.
Proof. unfold transpose. now rewrite length_map, length_seq. Qed.

Lemma _make_mixture_length (self : MultiGaussNaiveBayesClassifier) (x : matrix)
    (colnames : option (list String.string)) (fd : fdists) :
  _make_mixture self x colnames = Some fd ->
  length fd = ncols x
  /\ match colnames with None => True | Some names => length names = ncols x end.
Proof.
  unfold _make_mixture.
  destruct (_ =? ncols x)%nat eqn:E; [|discriminate].
  intros H. apply sequence_length in H.
  rewrite length_map, transpose_length in H. split; [assumption|].
  destruct colnames; [now apply Nat.eqb_eq in E | exact I].
Qed.

(** Every profile has one entry per column of the transformed matrix, and
    the column names, when given, are as many. *)
Lemma class_loop_shape (self : MultiGaussNaiveBayesClassifier) (XT : matrix) (y : list Z)
    (d i : nat) (classes : list Z) (cp : list (Z * fdists)) (j : list nat) :
  length XT = length y ->
  (forall row, In row XT -> length row = d) ->
  class_loop self XT y i classes = Some (cp, j) ->
  forall c, In c cp ->
    length (snd c) = d
    /\ match column_names (hyper self) with
       | None => True
       | Some names => length names = d
       end.
Proof.
  intros Hlen Hrect. revert i cp j.
  induction classes as [|label rest IH]; intros i cp j; simpl.
  - intros H. injection H as <- <-. intros c [].
  - destruct (existsb (fun l => (l =? label)%Z) y) eqn:E; simpl; [|apply IH].
    destruct (_make_mixture self (rows_of_class label y XT) (column_names (hyper self)))
      as [fd|] eqn:Em; [|discriminate].
    destruct (class_loop self XT y (S i) rest) as [[cp' j']|] eqn:El; [|discriminate].
    intros H. injection H as <- <-.
    intros c [<-|Hc]; [|exact (IH _ _ _ El c Hc)].
    apply _make_mixture_length in Em.
    rewrite (ncols_rect _ d) in Em.
    + exact Em.
    + now apply rows_of_class_nonempty.
    + intros row Hrow. apply Hrect. now apply rows_of_class_in in Hrow.
Qed.

(** [fit] returns as soon as the validation, the transform and the first
    loop go through: the second loop cannot raise. *)
Lemma fit_returns (self : MultiGaussNaiveBayesClassifier) (g : rng) (X : matrix)
    (y : list Z) (XT : matrix) (cp : list (Z * fdists)) (j : list nat) :
  check_X_y X y = Some (X, y) ->
  where_islogvar
    (Some (match islogvar self with
           | None => positive_columns X
           | Some flags => flags
           end)) X = Some XT ->
  class_loop self XT y 0
    (match all_labels (hyper self) with
     | None => unique_labels y
     | Some labels => labels
     end) = Some (cp, j) ->
  fit self g X y =
    (Returned tt
       {| hyper := hyper self;
          islogvar := Some (match islogvar self with
                            | None => positive_columns X
                            | Some flags => flags
                            end);
          classes_ := Some (match all_labels (hyper self) with
                            | None => unique_labels y
                            | Some labels => labels
                            end);
          X_ := Some X; y_ := Some y;
          populated_columns_ := Some j;
          KL_ := Some (fst (KL_outer self XT cp cp g));
          class_properties_ := Some cp;
          nearest_ := nearest_ self; logproba_ := logproba_ self;
          surprise_ := surprise_ self |},
     snd (KL_outer self XT cp cp g)).
Proof.
  intros Hc Hw Hl. unfold fit. rewrite Hc.
  set (classes := match all_labels (hyper self) with
                  | None => unique_labels y | Some labels => labels end) in *.
  set (s1 := set_training self classes X y).
  set (s2 := match islogvar s1 with
             | None => set_islogvar s1 (positive_columns X) | Some _ => s1 end).
  assert (Hh : hyper s2 = hyper self).
  { unfold s2. destruct (islogvar s1); reflexivity. }
  assert (Hf : islogvar s2 = Some (match islogvar self with
                                   | None => positive_columns X
                                   | Some flags => flags end)).
  { unfold s2, s1. simpl. destruct (islogvar self) eqn:E; simpl; [assumption|reflexivity]. }
  rewrite Hf, Hw, (class_loop_hyper s2 self), Hl by assumption.
  rewrite (KL_outer_hyper (set_populated_columns_ s2 j) self) by assumption.
  destruct (KL_outer self XT cp cp g) as [KL g1]. simpl. f_equal. f_equal.
  clear. subst s2 s1. unfold set_fitted, set_populated_columns_. cbn.
  destruct (islogvar self) eqn:E; cbn; rewrite ?E; reflexivity.
Qed.

(** ** The entries of the KL structure *)

Lemma information_loop_entries
    (pairs : list (option MixtureDensity * option MixtureDensity)) (g : rng) :
  Forall2 KL_estimate_of (filter both_present pairs) (fst (information_loop pairs g)).
Proof.
  revert g. induction pairs as [|[o1 o2] rest IH]; intros g; simpl; [constructor|].
  destruct o1 as [m1|], o2 as [m2|]; simpl; try apply IH.
  specialize (IH (snd (ImportanceSampler m2 m1 2000 g))).
  destruct (ImportanceSampler m2 m1 2000 g) as [w g1] eqn:E. simpl in IH.
  destruct (information_loop rest g1) as [v g2]. simpl in *.
  constructor; [|assumption].
  exists m1, m2, g. split; [reflexivity|]. now rewrite E.
Qed.

Lemma KL_inner_entries (self : MultiGaussNaiveBayesClassifier) (XT : matrix) (d : nat)
    (l1 : Z) (fd1 : fdists) (cp : list (Z * fdists)) (g : rng) :
  length fd1 = d ->
  (forall c, In c cp -> length (snd c) = d) ->
  match column_names (hyper self) with
  | None => ncols XT = d
  | Some names => length names = d
  end ->
  Forall2 (fun c2 v =>
             Forall2 KL_estimate_of (filter both_present (combine fd1 (snd c2))) v)
          (filter (fun c2 => (l1 <? fst c2)%Z) cp)
          (fst (KL_inner self XT l1 fd1 cp g)).
Proof.
  intros H1 Hcp Hn. revert g.
  induction cp as [|[l2 fd2] rest IH]; intros g; simpl; [constructor|].
  rewrite Z.leb_antisym. destruct (l1 <? l2)%Z; simpl.
  - destruct (_evaluate_information_single _ XT fd1 fd2 g) as [KL12 g1] eqn:E.
    specialize (IH (fun c Hc => Hcp c (or_intror Hc)) g1).
    destruct (KL_inner self XT l1 fd1 rest g1) as [v g2]. simpl in *.
    constructor; [|assumption].
    apply (f_equal fst) in E. simpl in E. rewrite <- E.
    unfold _evaluate_information_single. cbv zeta.
    rewrite firstn_all2; [apply information_loop_entries|].
    rewrite length_combine, H1.
    destruct (column_names (hyper self)); rewrite Hn; lia.
  - apply IH. intros c Hc. apply Hcp. now right.
Qed.

Lemma KL_outer_entries (self : MultiGaussNaiveBayesClassifier) (XT : matrix) (d : nat)
    (todo cp : list (Z * fdists)) (g : rng) :
  (forall c, In c todo -> length (snd c) = d) ->
  (forall c, In c cp -> length (snd c) = d) ->
  match column_names (hyper self) with
  | None => ncols XT = d
  | Some names => length names = d
  end ->
  Forall2 (fun c1 row =>
             Forall2 (fun c2 v =>
                        Forall2 KL_estimate_of
                                (filter both_present (combine (snd c1) (snd c2))) v)
                     (filter (fun c2 => (fst c1 <? fst c2)%Z) cp) row)
          todo (fst (KL_outer self XT todo cp g)).
Proof.
  intros Htodo Hcp Hn. revert g.
  induction todo as [|[l1 fd1] rest IH]; intros g; simpl; [constructor|].
  pose proof (KL_inner_entries self XT d l1 fd1 cp g
                (Htodo (l1, fd1) (or_introl eq_refl)) Hcp Hn) as Hin.
  destruct (KL_inner self XT l1 fd1 cp g) as [v g1].
  specialize (IH (fun c Hc => Htodo c (or_intror Hc)) g1).
  destruct (KL_outer self XT rest cp g1) as [KL g2]. simpl in *.
  constructor; assumption.
Qed.

(** C4, as amended.  After a fit the KL structure holds, for every populated
    class [l1] in turn, one vector for every populated class [l2] with
    [l1 < l2], in the order of the profiles.  That vector holds, for the
    features for which both classes have a mixture and in the order of the
    features, the divergence estimate of the two mixtures of the feature,
    [-log(weights + 1e-300).mean()] over a run of the sampler: one entry for
    each such feature and no other entry.  A feature for which one of the
    mixtures is absent is skipped and leaves no entry, so a position in the
    vector is not a feature index.  Building the structure cannot raise. *)
Theorem KL_entries_where_both_present (self : MultiGaussNaiveBayesClassifier) (g : rng)
    (X : matrix) (y : list Z) (self' : MultiGaussNaiveBayesClassifier) (g' : rng) :
  fit self g X y = (Returned tt self', g') ->
  exists cp KL,
    class_properties_ self' = Some cp
    /\ KL_ self' = Some KL
    /\ Forall2
         (fun c1 row =>
            Forall2
              (fun c2 v =>
                 Forall2 KL_estimate_of
                         (filter both_present (combine (snd c1) (snd c2))) v)
              (filter (fun c2 => (fst c1 <? fst c2)%Z) cp) row)
         cp KL.
Proof.
  intros H. apply fit_returned in H as (XT & cp & j & KL & Hc & Hw & Hl & Hk & ->).
  exists cp, KL. split; [reflexivity|]. split; [reflexivity|].
  apply check_X_y_inv in Hc as (_ & _ & Hc & Hlen).
  apply check_array_inv in Hc as (_ & Hne & _ & Hrect & _).
  destruct (where_islogvar_rect _ _ _ _ Hrect Hw) as [HlenT [d Hd]].
  pose proof (class_loop_shape self XT y d 0 _ cp j
                (eq_trans HlenT Hlen) Hd Hl) as Hshape.
  replace KL with (fst (KL_outer self XT cp cp g)) by now rewrite Hk.
  destruct cp as [|c cp']; [constructor|].
  apply (KL_outer_entries self XT d).
  - intros c0 Hc0. now apply Hshape.
  - intros c0 Hc0. now apply Hshape.
  - destruct (Hshape c (or_introl eq_refl)) as [_ Hn].
    destruct (column_names (hyper self)); [assumption|].
    apply ncols_rect; [|assumption].
    destruct XT; [|discriminate]. destruct X; [congruence | discriminate].
Qed.

(** ** Refitting *)

(** C5, as amended.  A refit overwrites the training data, the class set, the
    class profiles and the KL structure, and keeps the transform flags of the
    first fit, which it does not recompute.  So [fit(X1, y1)] followed by
    [fit(X2, y2)] leaves the fitted state of [fit(X2, y2)] on an instance of
    the same configuration whose flags are those of [X1]; it leaves the
    fitted state of a fresh [fit(X2, y2)] when [X2] determines the same flags
    as [X1].  The second fits start from one generator state. *)
Theorem refit_keeps_transform_flags
    (self0 self1 self2 : MultiGaussNaiveBayesClassifier) (g1 g1' g g2 : rng)
    (X1 X2 : matrix) (y1 y2 : list Z) :
  islogvar self0 = None ->
  fit self0 g1 X1 y1 = (Returned tt self1, g1') ->
  fit self1 g X2 y2 = (Returned tt self2, g2) ->
  islogvar self2 = Some (positive_columns X1)
  /\ (exists self2',
         fit (set_islogvar self0 (positive_columns X1)) g X2 y2 = (Returned tt self2', g2)
         /\ fitted_state self2' = fitted_state self2)
  /\ (positive_columns X2 = positive_columns X1 ->
      exists self2',
        fit self0 g X2 y2 = (Returned tt self2', g2)
        /\ fitted_state self2' = fitted_state self2).
Proof.
  intros H0 Hfit1 Hfit2.
  apply fit_returned in Hfit1 as (XT1 & cp1 & j1 & KL1 & _ & _ & _ & _ & Hs1).
  assert (Hh : hyper self1 = hyper self0) by (now rewrite Hs1).
  assert (Hf : islogvar self1 = Some (positive_columns X1)).
  { rewrite Hs1. simpl. now rewrite H0. }
  clear Hs1.
  apply fit_returned in Hfit2 as (XT2 & cp2 & j2 & KL2 & Hc & Hw & Hl & Hk & ->).
  rewrite Hf, Hh in *.
  rewrite (class_loop_hyper self1 self0) in Hl by assumption.
  rewrite (KL_outer_hyper self1 self0) in Hk by assumption.
  split; [reflexivity|]. split.
  - eexists. split.
    + rewrite (fit_returns _ g X2 y2 XT2 cp2 j2); simpl; try assumption.
      * rewrite (KL_outer_hyper _ self0), Hk by reflexivity. reflexivity.
      * now rewrite (class_loop_hyper _ self0) by reflexivity.
    + reflexivity.
  - intros Hflags. eexists. split.
    + rewrite (fit_returns _ g X2 y2 XT2 cp2 j2); try assumption.
      * rewrite Hk. reflexivity.
      * now rewrite H0, Hflags.
    + unfold fitted_state. simpl. now rewrite H0, Hflags.
Qed.

(** ** Finite scores, their log-sum-exp and their argmax *)

Lemma fl_sum_Fin (l : list R) : fl_sum (map Fin l) = Fin (Rsum l).
Proof.
  induction l as [|a l IH]; [reflexivity|].
  change (fl_sum (map Fin (a :: l))) with (fl_add (Fin a) (fl_sum (map Fin l))).
  now rewrite IH.
Qed.

Lemma finite_list (l : list fl) :
  Forall (fun v => isfinite v = true) l -> exists rs, l = map Fin rs.
Proof.
  induction 1 as [|v l Hv _ [rs ->]].
  - now exists [].
  - destruct v as [r| | |]; try discriminate. now exists (r :: rs).
Qed.

Lemma fold_fl_max_Fin (l : list R) (a : R) :
  exists m, fold_left fl_max (map Fin l) (Fin a) = Fin m.
Proof.
  revert a. induction l as [|b l IH]; intros a; simpl; [now exists a|].
  unfold fl_max at 2. simpl. destruct (Rltb a b); apply IH.
Qed.

Lemma Rsum_exp_pos (m : R) (l : list R) :
  l <> [] -> 0 < Rsum (map (fun a => exp (a + - m)) l).
Proof.
  intros Hne. destruct l as [|a l]; [congruence|]. clear Hne.
  assert (H : forall l', 0 <= Rsum (map (fun a => exp (a + - m)) l')).
  { induction l' as [|b l' IH]; simpl; [lra|].
    pose proof (exp_pos (b + - m)). lra. }
  simpl. pose proof (exp_pos (a + - m)). specialize (H l). lra.
Qed.

Lemma Rsum_scale (c : R) (f : R -> R) (l : list R) :
  Rsum (map (fun a => f a * c) l) = Rsum (map f l) * c.
Proof. induction l as [|a l IH]; simpl; [lra | rewrite IH; lra]. Qed.

(** The log-sum-exp of finite scores is finite, and the exponentials of the
    scores less it add up to one. *)
Lemma logsumexp_normalises (row : list R) :
  row <> [] ->
  exists L,
    logsumexp (map Fin row) = Some (Fin L)
    /\ fl_sum (map fl_exp (map (fun v => fl_sub v (Fin L)) (map Fin row))) = Fin 1.
Proof.
  intros Hne. destruct row as [|a row]; [congruence|].
  unfold logsumexp. simpl amax.
  destruct (fold_fl_max_Fin row a) as [m ->]. cbv beta iota. simpl isfinite. cbv iota.
  set (l := a :: row) in *.
  assert (Hexp : forall c, map (fun v => fl_exp (fl_sub v (Fin c))) (map Fin l)
                           = map Fin (map (fun v => exp (v + - c)) l)).
  { intros c. rewrite !map_map. reflexivity. }
  rewrite Hexp, fl_sum_Fin.
  pose proof (Rsum_exp_pos m l Hne) as HS.
  set (S := Rsum (map (fun v => exp (v + - m)) l)) in *.
  simpl fl_log. rewrite (Rltb_true 0 S) by assumption. simpl fl_add.
  exists (ln S + m). split; [reflexivity|].
  rewrite map_map, Hexp, fl_sum_Fin. f_equal.
  rewrite (map_ext _ (fun v => exp (v + - m) * / S)).
  - rewrite Rsum_scale. fold S. field. lra.
  - intros v. replace (v + - (ln S + m)) with ((v + - m) + - ln S) by lra.
    rewrite exp_plus, exp_Ropp, exp_ln by assumption. reflexivity.
Qed.

Lemma argmax_from_bound (l : list fl) (best : fl) (besti i : nat) :
  (besti < i)%nat -> (argmax_from best besti i l < i + length l)%nat.
Proof.
  revert best besti i. induction l as [|v l IH]; intros best besti i Hb; simpl; [lia|].
  destruct (isnan best); [lia|].
  destruct (isnan v || fl_lt best v).
  - specialize (IH v i (S i)). lia.
  - specialize (IH best besti (S i)). lia.
Qed.

Lemma argmax_bound (l : list fl) (i : nat) : argmax l = Some i -> (i < length l)%nat.
Proof.
  destruct l as [|v l]; [discriminate|]. simpl. intros H. injection H as <-.
  pose proof (argmax_from_bound l v 0 1). lia.
Qed.

Lemma zero_missing_finite (v : fl) : isfinite (zero_missing v) = true.
Proof. destruct v; reflexivity. Qed.

Lemma floor_minprob_finite (mp : R) (v : fl) :
  isfinite v = true -> isfinite (floor_minprob mp v) = true.
Proof.
  intros Hv. unfold floor_minprob.
  destruct (fl_lt v (fl_log (Fin mp))) eqn:E; [|assumption].
  unfold fl_log in *. destruct (Rltb 0 mp); [reflexivity|].
  destruct (Reqb mp 0); destruct v; discriminate.
Qed.

Lemma fl_sum_finite (l : list fl) :
  Forall (fun v => isfinite v = true) l -> isfinite (fl_sum l) = true.
Proof. intros H. destruct (finite_list l H) as [rs ->]. now rewrite fl_sum_Fin. Qed.

(** The scores of a class are finite when the log-prior is. *)
Lemma _evaluate_feature_dist_finite (self : MultiGaussNaiveBayesClassifier)
    (fd : fdists) (x : matrix) (p : R) (scores : list fl) :
  _evaluate_feature_dist self fd x (Fin p) = Some scores ->
  length scores = length x /\ Forall (fun v => isfinite v = true) scores.
Proof.
  unfold _evaluate_feature_dist.
  destruct (length fd =? ncols x)%nat; [|discriminate].
  destruct (sequence _) as [logprob|]; [|discriminate].
  intros H. injection H as <-. split; [now rewrite length_map, length_seq|].
  apply Forall_forall. intros v Hv. apply in_map_iff in Hv as [r [<- _]].
  assert (Hs : isfinite (fl_sum (map (fun c => nth r c (Fin 0))
                 (map (map (floor_minprob (minprob (hyper self))))
                    (map (map zero_missing) logprob)))) = true).
  { apply fl_sum_finite, Forall_forall. intros v Hv.
    apply in_map_iff in Hv as [c [<- Hc]].
    destruct (nth_in_or_default r c (Fin 0)) as [Hin | ->]; [|reflexivity].
    apply in_map_iff in Hc as [c1 [<- Hc1]].
    apply in_map_iff in Hc1 as [c0 [<- _]].
    apply in_map_iff in Hin as [w [<- Hw]].
    apply floor_minprob_finite.
    apply in_map_iff in Hw as [w0 [<- _]]. apply zero_missing_finite. }
  destruct (fl_sum _); try discriminate. reflexivity.
Qed.

(** The scores of a class exist when its profile fits the batch. *)
Lemma _evaluate_feature_dist_total (self : MultiGaussNaiveBayesClassifier)
    (fd : fdists) (x : matrix) (logprior : fl) :
  length fd = ncols x -> fdists_ok fd ->
  exists scores, _evaluate_feature_dist self fd x logprior = Some scores.
Proof.
  intros Hlen Hok. unfold _evaluate_feature_dist. rewrite Hlen, Nat.eqb_refl.
  rewrite <- Hlen.
  destruct (sequence_total
              (map (fun p => logprob_column (snd p) (column (fst p) x))
                   (combine (seq 0 (length fd)) fd))) as [logprob E].
  { intros o Ho. apply in_map_iff in Ho as [[i mix] [<- Hin]].
    apply in_combine_r in Hin. simpl.
    destruct (logprob_column_total mix (column i x)) as [col [-> _]]; [|discriminate].
    unfold fdists_ok in Hok. rewrite Forall_forall in Hok. now apply Hok. }
  rewrite E. now eexists.
Qed.

(** ** Well-formed profiles *)

Lemma percentiles_length (x : list R) (K : nat) :
  length (map (percentile x)
              ([0] ++ map (fun i => INR i * 100 / INR K) (seq 1 (K - 1)) ++ [100]))
  = S (S (K - 1)).
Proof.
  rewrite length_map. simpl. rewrite length_app, length_map, length_seq. simpl. lia.
Qed.

Lemma _make_single_mixture_length (x : list R) (K : nat) (means covs : list R) :
  _make_single_mixture x K = Some (means, covs) ->
  length means = K /\ length covs = K /\ (1 <= K)%nat.
Proof.
  unfold _make_single_mixture.
  set (p := map (percentile x) _).
  assert (Hp : length p = S (S (K - 1))) by apply percentiles_length.
  clearbody p.
  assert (Hc : length (combine (tl p) (removelast p)) = S (K - 1)).
  { rewrite length_combine.
    assert (length (tl p) = S (K - 1)) by (destruct p; simpl in *; lia).
    assert (length (removelast p) = S (K - 1)).
    { rewrite (app_removelast_last 0) in Hp by (destruct p; [discriminate | congruence]).
      rewrite length_app in Hp. simpl in Hp. lia. }
    lia. }
  destruct (_ =? K)%nat eqn:E; [|discriminate].
  intros H. injection H as <- <-.
  apply Nat.eqb_eq in E. rewrite !length_map in *. lia.
Qed.

Lemma create_gaussian_mixture_ok (means covs : list fl) :
  means <> [] -> length covs = length means ->
  mixture_ok (create_gaussian_mixture means covs) = true.
Proof.
  intros Hne Hlen. unfold mixture_ok, create_gaussian_mixture. simpl.
  rewrite repeat_length, Nat.eqb_refl, andb_true_r.
  rewrite length_map, length_combine, Hlen, Nat.min_id.
  destruct means; [congruence | reflexivity].
Qed.

Section WellFormedEngine.

(** The fitter hands back a well-formed mixture when it starts from one. *)
Hypothesis GaussianInference_ok :
  forall data m W0 it rt at' pr,
    mixture_ok m = true -> mixture_ok (GaussianInference data m W0 it rt at' pr) = true.

Lemma _make_mixture_for_column_ok (col : list fl) (K nmin it : nat)
    (mix : option MixtureDensity) :
  _make_mixture_for_column col K nmin it = Some mix ->
  match mix with None => True | Some m => mixture_ok m = true end.
Proof using GaussianInference_ok.
  unfold _make_mixture_for_column.
  destruct (_ || _); [intros H; injection H as <-; exact I|].
  destruct (_ || _).
  - intros H. injection H as <-. now apply create_gaussian_mixture_ok.
  - destruct (_make_single_mixture (finite_values col) K) as [[means covs]|] eqn:E;
      [|discriminate].
    intros H. injection H as <-.
    apply _make_single_mixture_length in E as (Hm & Hc & HK).
    apply GaussianInference_ok, create_gaussian_mixture_ok.
    + destruct means; [simpl in Hm; lia | discriminate].
    + rewrite !length_map. congruence.
Qed.

Lemma _make_mixture_ok (self : MultiGaussNaiveBayesClassifier) (x : matrix)
    (colnames : option (list String.string)) (fd : fdists) :
  _make_mixture self x colnames = Some fd -> fdists_ok fd.
Proof using GaussianInference_ok.
  unfold _make_mixture. destruct (_ =? _)%nat; [|discriminate].
  intros H. apply Forall_forall. intros mix Hmix.
  destruct (sequence_in _ _ _ _ H Hmix) as [col [_ Hcol]].
  now apply _make_mixture_for_column_ok in Hcol.
Qed.

Lemma class_loop_ok (self : MultiGaussNaiveBayesClassifier) (XT : matrix) (y : list Z)
    (i : nat) (classes : list Z) (cp : list (Z * fdists)) (j : list nat) :
  class_loop self XT y i classes = Some (cp, j) ->
  forall c, In c cp -> fdists_ok (snd c).
Proof using GaussianInference_ok.
  revert i cp j. induction classes as [|label rest IH]; intros i cp j; simpl.
  - intros H. injection H as <- <-. intros c [].
  - destruct (negb _); [apply IH|].
    destruct (_make_mixture self (rows_of_class label y XT) (column_names (hyper self)))
      as [fd|] eqn:Em; [|discriminate].
    destruct (class_loop self XT y (S i) rest) as [[cp' j']|] eqn:El; [|discriminate].
    intros H. injection H as <- <-.
    intros c [<-|Hc]; [now apply _make_mixture_ok in Em | exact (IH _ _ _ El c Hc)].
Qed.

End WellFormedEngine.

(** ** What [_predict] computes *)

Lemma _predict_returned (self self' : MultiGaussNaiveBayesClassifier) (X : matrix) :
  _predict self X = Returned tt self' ->
  exists classes cp XT cols logprobany nearest,
    check_array X = Some X
    /\ classes_ self = Some classes
    /\ class_properties_ self = Some cp
    /\ where_islogvar (islogvar self) X = Some XT
    /\ sequence (map (fun p => _evaluate_feature_dist self (snd p) XT (logprior_of classes))
                     cp) = Some cols
    /\ sequence (map logsumexp
                     (map (fun r => map (fun c => nth r c NaN) cols) (seq 0 (length X))))
       = Some logprobany
    /\ sequence (map argmax
                     (map (fun r => map (fun c => nth r c NaN) cols) (seq 0 (length X))))
       = Some nearest
    /\ self' =
         set_prediction self nearest
           (map (fun p => map (fun v => fl_sub v (snd p)) (fst p))
                (combine (map (fun r => map (fun c => nth r c NaN) cols)
                              (seq 0 (length X)))
                         logprobany))
           logprobany.
Proof.
  unfold _predict.
  destruct (X_ self); [|discriminate]. destruct (y_ self); [|discriminate].
  destruct (check_array X) as [X0|] eqn:Ec; [|discriminate].
  destruct (check_array_inv _ _ Ec) as [-> _].
  destruct (classes_ self) as [classes|]; [|discriminate].
  destruct (class_properties_ self) as [cp|]; [|discriminate].
  destruct (where_islogvar (islogvar self) X) as [XT|]; [|discriminate].
  destruct (sequence (map _ cp)) as [cols|] eqn:Es; [|discriminate].
  destruct (sequence (map logsumexp _)) as [logprobany|] eqn:El; [|discriminate].
  destruct (sequence (map argmax _)) as [nearest|] eqn:Ea; [|discriminate].
  intros H. injection H as <-.
  exists classes, cp, XT, cols, logprobany, nearest. repeat split; assumption.
Qed.

Lemma _predict_returns (self : MultiGaussNaiveBayesClassifier) (X XT : matrix)
    (Xtrain : matrix) (ytrain classes : list Z) (cp : list (Z * fdists)) :
  X_ self = Some Xtrain -> y_ self = Some ytrain ->
  classes_ self = Some classes -> class_properties_ self = Some cp ->
  cp <> [] ->
  check_array X = Some X ->
  where_islogvar (islogvar self) X = Some XT ->
  (forall c, In c cp -> length (snd c) = ncols XT /\ fdists_ok (snd c)) ->
  exists self', _predict self X = Returned tt self'.
Proof.
  intros HX Hy Hcl Hcp Hne Hc Hw Hfd.
  unfold _predict. rewrite HX, Hy, Hc, Hcl, Hcp, Hw.
  destruct (sequence_total
              (map (fun p => _evaluate_feature_dist self (snd p) XT (logprior_of classes)) cp))
    as [cols Es].
  { intros o Ho. apply in_map_iff in Ho as [c [<- Hin]].
    destruct (Hfd c Hin) as [Hl Hok].
    destruct (_evaluate_feature_dist_total self (snd c) XT (logprior_of classes) Hl Hok)
      as [s ->]. discriminate. }
  rewrite Es.
  assert (Hcols : cols <> []).
  { apply sequence_length in Es. rewrite length_map in Es.
    destruct cols; [destruct cp; [congruence | discriminate] | discriminate]. }
  destruct (sequence_total
              (map logsumexp (map (fun r => map (fun c => nth r c NaN) cols)
                                  (seq 0 (length X))))) as [lse El].
  { intros o Ho. apply in_map_iff in Ho as [row [<- Hin]].
    apply in_map_iff in Hin as [r [<- _]].
    destruct cols; [congruence|]. discriminate. }
  destruct (sequence_total
              (map argmax (map (fun r => map (fun c => nth r c NaN) cols)
                               (seq 0 (length X))))) as [am Ea].
  { intros o Ho. apply in_map_iff in Ho as [row [<- Hin]].
    apply in_map_iff in Hin as [r [<- _]].
    destruct cols; [congruence|]. discriminate. }
  rewrite El, Ea. now eexists.
Qed.

(** ** The rows of [predict_proba] *)

Lemma combine_sequence_in {A B : Type} (f : A -> option B) (l : list A) (r : list B)
    (a : A) (b : B) :
  sequence (map f l) = Some r -> In (a, b) (combine l r) -> In a l /\ f a = Some b.
Proof.
  intros H. apply sequence_Some in H. revert r H.
  induction l as [|a0 l IH]; intros r H Hin; [contradiction|].
  destruct r as [|b0 r]; [discriminate|]. simpl in H. injection H as H0 H.
  destruct Hin as [Hin|Hin].
  - injection Hin as <- <-. split; [now left | assumption].
  - destruct (IH r H Hin). split; [now right | assumption].
Qed.

Lemma logprior_of_finite (classes : list Z) :
  classes <> [] -> exists p, logprior_of classes = Fin p.
Proof.
  intros Hne. unfold logprior_of, fl_log.
  rewrite Rltb_true; [now eexists|].
  apply lt_0_INR. destruct classes; [congruence | simpl; lia].
Qed.

Lemma fit_classes_nonempty (self self' : MultiGaussNaiveBayesClassifier) (g g' : rng)
    (X : matrix) (y classes : list Z) (cp : list (Z * fdists)) :
  fit self g X y = (Returned tt self', g') ->
  classes_ self' = Some classes -> class_properties_ self' = Some cp ->
  cp <> [] -> classes <> [].
Proof.
  intros H Hcl Hcp Hne.
  apply fit_returned in H as (XT & cp0 & j & KL & _ & _ & Hl & _ & ->).
  simpl in Hcl, Hcp. injection Hcl as <-. injection Hcp as ->.
  apply class_loop_labels in Hl as [Hl _].
  intros E. rewrite E in Hl. simpl in Hl. destruct cp; [congruence | discriminate].
Qed.

(** In every row that [_predict] stores, the probabilities add up to one. *)
Lemma logproba_rows (self self' : MultiGaussNaiveBayesClassifier) (X : matrix)
    (classes : list Z) (logproba : matrix) :
  classes_ self = Some classes ->
  (class_properties_ self <> Some [] -> classes <> []) ->
  _predict self X = Returned tt self' ->
  logproba_ self' = Some logproba ->
  length logproba = length X
  /\ Forall (fun row => fl_sum (map fl_exp row) = Fin 1) logproba.
Proof.
  intros Hcl Hne H Hlp.
  apply _predict_returned in H
    as (classes0 & cp & XT & cols & lse & nearest & Hc & Hcl0 & Hcp & Hw & Hs & Hl & Ha & ->).
  rewrite Hcl in Hcl0. injection Hcl0 as <-.
  simpl in Hlp. injection Hlp as <-.
  assert (Hlen : length lse = length X).
  { apply sequence_length in Hl. now rewrite !length_map, length_seq in Hl. }
  split.
  { rewrite length_map, length_combine, length_map, length_seq. lia. }
  apply Forall_forall. intros row Hrow.
  apply in_map_iff in Hrow as [[xrow l] [<- Hin]]. simpl.
  destruct (combine_sequence_in _ _ _ _ _ Hl Hin) as [Hx Hlse].
  apply in_map_iff in Hx as [r [<- Hr]]. apply in_seq in Hr.
  assert (Hcols : cols <> []).
  { intros E. rewrite E in Hlse. discriminate. }
  assert (Hcpne : cp <> []).
  { intros E. rewrite E in Hs. simpl in Hs. injection Hs as <-. congruence. }
  destruct (logprior_of_finite classes) as [p Hp].
  { apply Hne. rewrite Hcp. congruence. }
  rewrite Hp in Hs.
  assert (Hfin : Forall (fun v => isfinite v = true) (map (fun c => nth r c NaN) cols)).
  { apply Forall_forall. intros v Hv. apply in_map_iff in Hv as [c [<- Hc0]].
    destruct (sequence_in _ _ _ _ Hs Hc0) as [c1 [_ He]].
    apply _evaluate_feature_dist_finite in He as [Hlc Hf].
    rewrite Forall_forall in Hf. apply Hf, nth_In.
    rewrite Hlc.
    destruct (islogvar self); simpl in Hw.
    - apply sequence_length in Hw. rewrite length_map in Hw. lia.
    - injection Hw as <-. lia. }
  destruct (finite_list _ Hfin) as [rs Hrs]. rewrite Hrs in *.
  destruct (logsumexp_normalises rs) as [L [HL Hsum]].
  { destruct rs; [|discriminate]. destruct cols; [congruence | discriminate]. }
  rewrite HL in Hlse. injection Hlse as <-. exact Hsum.
Qed.

(** What [predict] returns are positions in the list of class profiles. *)
Lemma predict_positions (self self' : MultiGaussNaiveBayesClassifier) (X : matrix)
    (nearest : list nat) :
  predict self X = Returned nearest self' ->
  exists cp,
    class_properties_ self = Some cp
    /\ length nearest = length X
    /\ Forall (fun i => (i < length cp)%nat) nearest.
Proof.
  unfold predict. destruct (_predict self X) as [[] s|s] eqn:Ep; [|discriminate].
  apply _predict_returned in Ep
    as (classes & cp & XT & cols & lse & am & _ & _ & Hcp & _ & Hs & _ & Ha & ->).
  simpl. intros H. injection H as <- _.
  exists cp. split; [assumption|].
  apply sequence_length in Hs. rewrite length_map in Hs.
  split.
  - apply sequence_length in Ha. now rewrite !length_map, length_seq in Ha.
  - apply Forall_forall. intros i Hi.
    destruct (sequence_in _ _ _ _ Ha Hi) as [row [Hrow Hrowi]].
    apply argmax_bound in Hrowi.
    apply in_map_iff in Hrow as [r [<- _]]. now rewrite length_map, Hs in Hrowi.
Qed.

Lemma where_islogvar_same_width (flags : list bool) (X : matrix) :
  (forall row, In row X -> length row = length flags) ->
  exists XT,
    where_islogvar (Some flags) X = Some XT
    /\ length XT = length X
    /\ forall row, In row XT -> length row = length flags.
Proof.
  intros Hrect. simpl.
  destruct (sequence_total (map (where_row flags) X)) as [XT E].
  { intros o Ho. apply in_map_iff in Ho as [row [<- Hrow]].
    unfold where_row. rewrite (Hrect row Hrow), Nat.eqb_refl. discriminate. }
  exists XT. split; [assumption|]. split.
  - apply sequence_length in E. now rewrite length_map in E.
  - intros row' Hin. destruct (sequence_in _ _ _ _ E Hin) as [row [Hrow Hw]].
    apply where_row_length in Hw. rewrite (Hrect row Hrow), Nat.eqb_refl in Hw.
    congruence.
Qed.

Lemma positive_columns_length (X : matrix) : length (positive_columns X) = ncols X.
Proof. unfold positive_columns. now rewrite length_map, transpose_length. Qed.

(** After a fit by a fresh instance with at least one populated class,
    [_predict] returns on every valid batch of the training width. *)
Lemma fitted_predict_returns (self0 self : MultiGaussNaiveBayesClassifier) (g g' : rng)
    (X X' : matrix) (y : list Z) :
  (forall data m W0 it rt at' pr,
      mixture_ok m = true -> mixture_ok (GaussianInference data m W0 it rt at' pr) = true) ->
  fit self0 g X y = (Returned tt self, g') ->
  islogvar self0 = None ->
  class_properties_ self <> Some [] ->
  check_array X' = Some X' ->
  ncols X' = ncols X ->
  exists self', _predict self X' = Returned tt self'.
Proof.
  intros HGI Hfit H0 Hne Hc' Hn.
  apply fit_returned in Hfit as (XT & cp & j & KL & Hc & Hw & Hl & Hk & ->).
  rewrite H0 in *. simpl in Hne.
  apply check_X_y_inv in Hc as (_ & _ & Hc & Hlen).
  apply check_array_inv in Hc as (_ & HneX & _ & Hrect & _).
  destruct (where_islogvar_same_width (positive_columns X) X) as (XT0 & Hw0 & HlenT & Hd).
  { intros row Hrow. rewrite positive_columns_length. now apply Hrect. }
  rewrite Hw in Hw0. injection Hw0 as <-.
  apply check_array_inv in Hc' as Hc2. destruct Hc2 as (_ & HneX' & _ & Hrect' & _).
  destruct (where_islogvar_same_width (positive_columns X) X') as (XT' & Hw' & HlenT' & Hd').
  { intros row Hrow. rewrite positive_columns_length, <- Hn. now apply Hrect'. }
  eapply (_predict_returns _ X' XT'); simpl; try reflexivity; try assumption.
  - intros E. apply Hne. now rewrite E.
  - intros c Hin. split.
    + rewrite (ncols_rect XT' (length (positive_columns X))); [| |assumption].
      * exact (proj1 (class_loop_shape self0 XT y _ 0 _ cp j
                        (eq_trans HlenT Hlen) Hd Hl c Hin)).
      * destruct XT'; [|discriminate]. destruct X'; [congruence | discriminate].
    + exact (class_loop_ok HGI self0 XT y 0 _ cp j Hl c Hin).
Qed.

(** C8.  After a fit, every row of the matrix that [predict_proba] returns
    adds up to one, within the tolerance 1e-6 (in exact arithmetic, to one),
    and the matrix has one row for each input row.  [predict_proba] does
    return, on every valid batch of the training width, when the instance was
    fresh, at least one class is populated and the fitter produces
    well-formed mixtures. *)
Theorem predict_proba_rows_sum_to_one
    (self0 self : MultiGaussNaiveBayesClassifier) (g g' : rng)
    (X X' : matrix) (y : list Z) :
  fit self0 g X y = (Returned tt self, g') ->
  (forall P self',
      predict_proba self X' = Returned P self' ->
      length P = length X'
      /\ Forall (fun row => exists s, fl_sum row = Fin s /\ Rabs (s - 1) <= 1e-6) P)
  /\ ((forall data m W0 it rt at' pr,
          mixture_ok m = true ->
          mixture_ok (GaussianInference data m W0 it rt at' pr) = true) ->
      islogvar self0 = None ->
      class_properties_ self <> Some [] ->
      check_array X' = Some X' ->
      ncols X' = ncols X ->
      exists P self', predict_proba self X' = Returned P self').
Proof.
  intros Hfit. split.
  - intros P self' H. unfold predict_proba in H.
    destruct (_predict self X') as [[] s|s] eqn:Ep; [|discriminate].
    destruct (logproba_ s) as [lp|] eqn:Elp; [|discriminate].
    injection H as <- <-.
    destruct (classes_ self) as [classes|] eqn:Ecl.
    2:{ apply _predict_returned in Ep as (c & cp & XT & cols & lse & nr & _ & E & _).
        congruence. }
    destruct (logproba_rows self s X' classes lp Ecl) as [Hlen Hrows];
      try assumption.
    { intros Hne. destruct (class_properties_ self) as [cp|] eqn:Ecp.
      - apply (fit_classes_nonempty self0 self g g' X y classes cp); congruence.
      - apply _predict_returned in Ep as (c & cp & XT & cols & lse & nr & _ & _ & E & _).
        congruence. }
    split; [now rewrite length_map|].
    apply Forall_forall. intros row Hrow. apply in_map_iff in Hrow as [row0 [<- Hin]].
    rewrite Forall_forall in Hrows. exists 1. split; [now apply Hrows|].
    rewrite Rminus_diag, Rabs_R0. lra.
  - intros HGI H0 Hne Hc Hn.
    destruct (fitted_predict_returns self0 self g g' X X' y HGI Hfit H0 Hne Hc Hn)
      as [self' Hp].
    unfold predict_proba. rewrite Hp.
    apply _predict_returned in Hp as (c & cp & XT & cols & lse & nearest & _ & _ & _ & _
                                      & _ & _ & _ & ->).
    simpl. now eexists; eexists.
Qed.

(** ** The prior that prediction adds *)

(** The aggregator adds its log-prior last: its scores are those it returns
    for the log-prior zero, the aggregated log-likelihoods, plus the
    log-prior. *)
Lemma evaluate_prior_split (self : MultiGaussNaiveBayesClassifier) (fd : fdists)
    (x : matrix) (logprior : fl) (col : list fl) :
  _evaluate_feature_dist self fd x logprior = Some col ->
  exists ll,
    _evaluate_feature_dist self fd x (Fin 0) = Some ll
    /\ col = map (fun v => fl_add v logprior) ll.
Proof.
  unfold _evaluate_feature_dist. destruct (_ =? _)%nat; [|discriminate].
  destruct (sequence _) as [logprob|]; [|discriminate].
  intros H. injection H as <-. eexists. split; [reflexivity|].
  etransitivity; [|symmetry; apply map_map].
  apply map_ext. intros r. now rewrite fl_add_0_r.
Qed.

Lemma nth_map_add (logprior : fl) (ll : list fl) (r : nat) :
  nth r (map (fun v => fl_add v logprior) ll) NaN = fl_add (nth r ll NaN) logprior.
Proof.
  revert r. induction ll as [|a ll IH]; intros [|r]; simpl; try reflexivity. apply IH.
Qed.

Lemma sequence_split {A B C : Type} (f : A -> option B) (f0 : A -> option C)
    (h : C -> B) (l : list A) (cols : list B) :
  (forall a b, f a = Some b -> exists c, f0 a = Some c /\ b = h c) ->
  sequence (map f l) = Some cols ->
  exists cs, Forall2 (fun a c => f0 a = Some c) l cs /\ cols = map h cs.
Proof.
  intros Hf. revert cols. induction l as [|a l IH]; intros cols H; simpl in H.
  - injection H as <-. exists []. split; [constructor | reflexivity].
  - destruct (f a) as [b|] eqn:Ea; [|discriminate].
    destruct (sequence (map f l)) as [cols'|] eqn:El; [|discriminate].
    injection H as <-.
    destruct (Hf a b Ea) as (c & Hc & ->).
    destruct (IH cols' eq_refl) as (cs & Hcs & ->).
    exists (c :: cs). split; [now constructor | reflexivity].
Qed.

(** What [_predict] stores, from the aggregated log-likelihoods of the
    classes and the log-prior. *)
Lemma _predict_scores (self s : MultiGaussNaiveBayesClassifier) (X : matrix) :
  _predict self X = Returned tt s ->
  exists classes cp XT loglik,
    classes_ self = Some classes
    /\ class_properties_ self = Some cp
    /\ where_islogvar (islogvar self) X = Some XT
    /\ Forall2 (fun c ll => _evaluate_feature_dist self (snd c) XT (Fin 0) = Some ll)
               cp loglik
    /\ (let Xlogprobs :=
          map (fun r => map (fun ll => fl_add (nth r ll NaN) (logprior_of classes)) loglik)
              (seq 0 (length X)) in
        surprise_ s = sequence (map logsumexp Xlogprobs)
        /\ nearest_ s = sequence (map argmax Xlogprobs)
        /\ logproba_ s
           = option_map
               (fun logprobany =>
                  map (fun p => map (fun v => fl_sub v (snd p)) (fst p))
                      (combine Xlogprobs logprobany))
               (sequence (map logsumexp Xlogprobs))).
Proof.
  intros H. apply _predict_returned in H
    as (classes & cp & XT & cols & lse & nr & _ & Hcl & Hcp & Hw & Hs & Hl & Ha & ->).
  destruct (sequence_split
              (fun p : Z * fdists => _evaluate_feature_dist self (snd p) XT (logprior_of classes))
              (fun p : Z * fdists => _evaluate_feature_dist self (snd p) XT (Fin 0))
              (map (fun v => fl_add v (logprior_of classes))) cp cols)
    as (loglik & Hll & Hcols); [|assumption|].
  { intros p b Hb. now apply evaluate_prior_split. }
  exists classes, cp, XT, loglik.
  split; [assumption|]. split; [assumption|]. split; [assumption|]. split; [assumption|].
  cbv zeta.
  assert (Hrows : map (fun r => map (fun ll => fl_add (nth r ll NaN) (logprior_of classes))
                                    loglik) (seq 0 (length X))
                  = map (fun r => map (fun c => nth r c NaN) cols) (seq 0 (length X))).
  { apply map_ext. intros r. rewrite Hcols, map_map. apply map_ext. intros ll.
    symmetry. apply nth_map_add. }
  rewrite Hrows, Hl, Ha. simpl. repeat split.
Qed.

(** C3, as amended.  After a fit, the scores over which a prediction takes
    its log-sum-exp ([surprise_]) and its argmax ([nearest_]), and which it
    normalises ([logproba_]), are for each class profile the aggregated
    log-likelihood (what the aggregator returns for the log-prior zero) plus
    one log-prior: minus the logarithm of the size of the class set
    [classes_], the configured [all_labels] when there are some and the
    distinct labels of [y] otherwise.  This size is the number of populated
    classes when every label of the class set occurs in [y], as when
    [all_labels] is not configured. *)
Theorem logprior_counts_class_set
    (self self' s : MultiGaussNaiveBayesClassifier) (g g' : rng)
    (X X' : matrix) (y : list Z) :
  fit self g X y = (Returned tt self', g') ->
  _predict self' X' = Returned tt s ->
  exists classes cp XT loglik,
    classes_ self' = Some classes
    /\ classes = match all_labels (hyper self) with
                 | None => unique_labels y
                 | Some labels => labels
                 end
    /\ class_properties_ self' = Some cp
    /\ where_islogvar (islogvar self') X' = Some XT
    /\ Forall2 (fun c ll => _evaluate_feature_dist self' (snd c) XT (Fin 0) = Some ll)
               cp loglik
    /\ (let logprior := Fin (- ln (INR (length classes))) in
        let Xlogprobs :=
          map (fun r => map (fun ll => fl_add (nth r ll NaN) logprior) loglik)
              (seq 0 (length X')) in
        surprise_ s = sequence (map logsumexp Xlogprobs)
        /\ nearest_ s = sequence (map argmax Xlogprobs)
        /\ logproba_ s
           = option_map
               (fun logprobany =>
                  map (fun p => map (fun v => fl_sub v (snd p)) (fst p))
                      (combine Xlogprobs logprobany))
               (sequence (map logsumexp Xlogprobs)))
    /\ ((forall label, In label classes -> In label y) ->
        length classes = populated_classes classes y)
    /\ (all_labels (hyper self) = None -> length classes = populated_classes classes y).
Proof.
  intros Hfit Hp.
  destruct (_predict_scores self' s X' Hp)
    as (classes & cp & XT & loglik & Hcl & Hcp & Hw & Hll & Hout).
  assert (Hcpne : cp <> []).
  { intros ->. inversion Hll; subst.
    apply _predict_returned in Hp
      as (c0 & cp0 & XT0 & cols & lse & nr & Hc & _ & Hcp0 & _ & Hs & Hl & _ & _).
    rewrite Hcp in Hcp0. injection Hcp0 as <-. simpl in Hs. injection Hs as <-.
    apply check_array_inv in Hc as (_ & Hne & _).
    destruct X' as [|row X']; [congruence|]. discriminate. }
  pose proof (fit_classes_nonempty _ _ _ _ _ _ _ _ Hfit Hcl Hcp Hcpne) as Hclne.
  assert (Hprior : logprior_of classes = Fin (- ln (INR (length classes)))).
  { unfold logprior_of, fl_log. rewrite Rltb_true; [reflexivity|].
    apply lt_0_INR. destruct classes; [congruence | simpl; lia]. }
  rewrite Hprior in Hout.
  apply fit_returned in Hfit as (XT0 & cp0 & j & KL & _ & _ & _ & _ & Hself).
  assert (Hcl0 : classes = match all_labels (hyper self) with
                           | None => unique_labels y
                           | Some labels => labels
                           end).
  { rewrite Hself in Hcl. simpl in Hcl. now injection Hcl. }
  exists classes, cp, XT, loglik.
  split; [assumption|]. split; [assumption|]. split; [assumption|].
  split; [assumption|]. split; [assumption|]. split; [assumption|].
  split.
  - intros Hall. now rewrite populated_all.
  - intros Hnone. rewrite populated_all; [reflexivity|].
    rewrite Hcl0, Hnone. intros label. apply unique_labels_in.
Qed.

(** ** Sorting and percentiles *)

Lemma insert_sorted_In (a v : R) (l : list R) :
  In a (insert_sorted v l) <-> a = v \/ In a l.
Proof.
  clear. induction l as [|h t IH]; simpl.
  - intuition.
  - destruct (Rltb h v); simpl; rewrite ?IH; intuition.
Qed.

Lemma sort_In (a : R) (l : list R) : In a (sort l) <-> In a l.
Proof.
  clear. induction l as [|h t IH]; simpl; [tauto|].
  rewrite insert_sorted_In, IH. intuition.
Qed.

Lemma insert_sorted_length (v : R) (l : list R) :
  length (insert_sorted v l) = S (length l).
Proof.
  induction l as [|h t IH]; simpl; [reflexivity|].
  destruct (Rltb h v); simpl; congruence.
Qed.

Lemma sort_length (l : list R) : length (sort l) = length l.
Proof.
  induction l as [|h t IH]; simpl; [reflexivity|].
  now rewrite insert_sorted_length, IH.
Qed.

(** A list in non-decreasing order, by positions. *)
Lemma nondecreasing_cons (h : R) (t : list R) :
  (forall v, In v t -> h <= v) ->
  (forall i j, (i <= j < length t)%nat -> nth i t 0 <= nth j t 0) ->
  forall i j, (i <= j < length (h :: t))%nat -> nth i (h :: t) 0 <= nth j (h :: t) 0.
Proof.
  intros Hh Ht [|i] [|j] Hij; simpl in *; try lia.
  - lra.
  - apply Hh, nth_In. lia.
  - apply Ht. lia.
Qed.

Lemma insert_sorted_nondecreasing (v : R) (l : list R) :
  (forall i j, (i <= j < length l)%nat -> nth i l 0 <= nth j l 0) ->
  forall i j, (i <= j < length (insert_sorted v l))%nat ->
              nth i (insert_sorted v l) 0 <= nth j (insert_sorted v l) 0.
Proof.
  induction l as [|h t IH]; intros Hl.
  - simpl. intros [|i] [|j] Hij; simpl in *; try lia. lra.
  - assert (Hh : forall a, In a t -> h <= a).
    { intros a Ha. destruct (In_nth t a 0 Ha) as [k [Hk <-]].
      apply (Hl 0%nat (S k)). simpl. lia. }
    assert (Ht : forall i j, (i <= j < length t)%nat -> nth i t 0 <= nth j t 0).
    { intros i j Hij. apply (Hl (S i) (S j)). simpl. lia. }
    simpl. destruct (Rltb h v) eqn:E.
    + apply Rltb_spec in E. apply nondecreasing_cons; [|now apply IH].
      intros a Ha. apply insert_sorted_In in Ha as [->|Ha]; [lra | now apply Hh].
    + assert (Hv : v <= h).
      { destruct (Rle_or_lt v h) as [H|H]; [assumption|].
        apply Rltb_spec in H. congruence. }
      apply nondecreasing_cons; [|assumption].
      intros a [<-|Ha]; [assumption|]. specialize (Hh a Ha). lra.
Qed.

Lemma sort_nondecreasing (l : list R) :
  forall i j, (i <= j < length (sort l))%nat -> nth i (sort l) 0 <= nth j (sort l) 0.
Proof.
  induction l as [|h t IH]; simpl.
  - intros i j Hij. lia.
  - now apply insert_sorted_nondecreasing.
Qed.

Lemma fold_Rmin_spec (t : list R) (h : R) :
  (fold_left Rmin t h = h \/ In (fold_left Rmin t h) t)
  /\ fold_left Rmin t h <= h
  /\ forall v, In v t -> fold_left Rmin t h <= v.
Proof.
  revert h. induction t as [|a t IH]; intros h; simpl.
  - split; [now left|]. split; [lra | contradiction].
  - destruct (IH (Rmin h a)) as (H1 & H2 & H3).
    pose proof (Rmin_l h a). pose proof (Rmin_r h a).
    split; [|split].
    + destruct H1 as [H1|H1]; [|now right; right].
      rewrite H1. unfold Rmin. destruct (Rle_dec h a); auto.
    + lra.
    + intros v [<-|Hv]; [lra | now apply H3].
Qed.

Lemma fold_Rmax_spec (t : list R) (h : R) :
  (fold_left Rmax t h = h \/ In (fold_left Rmax t h) t)
  /\ h <= fold_left Rmax t h
  /\ forall v, In v t -> v <= fold_left Rmax t h.
Proof.
  revert h. induction t as [|a t IH]; intros h; simpl.
  - split; [now left|]. split; [lra | contradiction].
  - destruct (IH (Rmax h a)) as (H1 & H2 & H3).
    pose proof (Rmax_l h a). pose proof (Rmax_r h a).
    split; [|split].
    + destruct H1 as [H1|H1]; [|now right; right].
      rewrite H1. unfold Rmax. destruct (Rle_dec h a); auto.
    + lra.
    + intros v [<-|Hv]; [lra | now apply H3].
Qed.

Lemma Rmin_list_spec (l : list R) :
  l <> [] -> In (Rmin_list l) l /\ forall v, In v l -> Rmin_list l <= v.
Proof.
  destruct l as [|h t]; [congruence|]. intros _. simpl.
  destruct (fold_Rmin_spec t h) as (H1 & H2 & H3). split.
  - destruct H1; auto.
  - intros v [<-|Hv]; auto.
Qed.

Lemma Rmax_list_spec (l : list R) :
  l <> [] -> In (Rmax_list l) l /\ forall v, In v l -> v <= Rmax_list l.
Proof.
  destruct l as [|h t]; [congruence|]. intros _. simpl.
  destruct (fold_Rmax_spec t h) as (H1 & H2 & H3). split.
  - destruct H1; auto.
  - intros v [<-|Hv]; auto.
Qed.

Lemma sort_first (l : list R) : l <> [] -> nth 0 (sort l) 0 = Rmin_list l.
Proof.
  intros Hne. destruct (Rmin_list_spec l Hne) as [Hin Hle].
  assert (Hlen : (0 < length (sort l))%nat).
  { rewrite sort_length. destruct l; [congruence | simpl; lia]. }
  apply Rle_antisym.
  - apply sort_In in Hin. destruct (In_nth _ _ 0 Hin) as [k [Hk <-]].
    apply sort_nondecreasing. lia.
  - apply Hle, sort_In, nth_In. assumption.
Qed.

Lemma sort_last (l : list R) :
  l <> [] -> nth (length l - 1) (sort l) 0 = Rmax_list l.
Proof.
  intros Hne. destruct (Rmax_list_spec l Hne) as [Hin Hle].
  assert (Hlen : (0 < length (sort l))%nat).
  { rewrite sort_length. destruct l; [congruence | simpl; lia]. }
  apply Rle_antisym.
  - apply Hle, sort_In, nth_In. rewrite sort_length in *. lia.
  - apply sort_In in Hin. destruct (In_nth _ _ 0 Hin) as [k [Hk <-]].
    apply sort_nondecreasing. rewrite sort_length in *. lia.
Qed.

Lemma floor_index (t : R) :
  0 <= t -> INR (Z.to_nat (Int_part t)) <= t < INR (Z.to_nat (Int_part t)) + 1.
Proof.
  intros Ht. destruct (base_Int_part t) as [H1 H2].
  assert (Hz : (0 <= Int_part t)%Z).
  { apply Z.lt_succ_r, lt_IZR. rewrite succ_IZR. lra. }
  rewrite INR_IZR_INZ, Z2Nat.id by assumption. lra.
Qed.

Lemma floor_index_mono (t1 t2 : R) :
  0 <= t1 -> t1 <= t2 -> (Z.to_nat (Int_part t1) <= Z.to_nat (Int_part t2))%nat.
Proof.
  intros H1 H12.
  pose proof (floor_index t1 H1) as F1.
  pose proof (floor_index t2 (Rle_trans _ _ _ H1 H12)) as F2.
  apply INR_le. apply Rnot_lt_le. intros Hlt.
  apply INR_lt in Hlt.
  assert (INR (Z.to_nat (Int_part t2)) + 1 <= INR (Z.to_nat (Int_part t1))).
  { rewrite <- S_INR. apply le_INR. lia. }
  lra.
Qed.

Lemma floor_index_bound (t : R) (n : nat) :
  0 <= t -> t <= INR n -> (Z.to_nat (Int_part t) <= n)%nat.
Proof.
  intros H0 Hn. pose proof (floor_index t H0) as F.
  apply INR_le. lra.
Qed.

(** A percentile lies between the two order statistics it interpolates. *)
Lemma percentile_between (x : list R) (q : R) :
  x <> [] -> 0 <= q <= 100 ->
  let t := q / 100 * INR (length x - 1) in
  let lo := Z.to_nat (Int_part t) in
  nth lo (sort x) 0 <= percentile x q
  /\ percentile x q <= nth (Nat.min (lo + 1) (length x - 1)) (sort x) 0.
Proof.
  intros Hne Hq t lo.
  assert (Hn : 0 <= INR (length x - 1)) by apply pos_INR.
  assert (Ht0 : 0 <= t) by (unfold t; nra).
  assert (Ht1 : t <= INR (length x - 1)) by (unfold t; nra).
  pose proof (floor_index t Ht0) as F. fold lo in F.
  pose proof (floor_index_bound t _ Ht0 Ht1) as Hlo. fold lo in Hlo.
  assert (Hlen : (0 < length x)%nat) by (destruct x; [congruence | simpl; lia]).
  assert (Hs : nth lo (sort x) 0 <= nth (Nat.min (lo + 1) (length x - 1)) (sort x) 0).
  { apply sort_nondecreasing. rewrite sort_length. lia. }
  unfold percentile. fold t. fold lo.
  set (a := nth lo (sort x) 0) in *.
  set (b := nth (Nat.min (lo + 1) (length x - 1)) (sort x) 0) in *.
  split; nra.
Qed.

Lemma percentile_mono (x : list R) (q1 q2 : R) :
  x <> [] -> 0 <= q1 -> q1 <= q2 -> q2 <= 100 ->
  percentile x q1 <= percentile x q2.
Proof.
  intros Hne H0 H12 H100.
  assert (Hn : 0 <= INR (length x - 1)) by apply pos_INR.
  set (t1 := q1 / 100 * INR (length x - 1)).
  set (t2 := q2 / 100 * INR (length x - 1)).
  assert (Ht0 : 0 <= t1) by (unfold t1; nra).
  assert (Ht12 : t1 <= t2) by (unfold t1, t2; nra).
  assert (Ht2 : t2 <= INR (length x - 1)) by (unfold t2; nra).
  pose proof (floor_index_mono t1 t2 Ht0 Ht12) as Hmono.
  pose proof (floor_index_bound t2 _ (Rle_trans _ _ _ Ht0 Ht12) Ht2) as Hb2.
  destruct (percentile_between x q1 Hne) as [L1 U1]; [lra|].
  destruct (percentile_between x q2 Hne) as [L2 U2]; [lra|].
  fold t1 in L1, U1. fold t2 in L2, U2.
  set (lo1 := Z.to_nat (Int_part t1)) in *.
  set (lo2 := Z.to_nat (Int_part t2)) in *.
  destruct (Nat.eq_dec lo1 lo2) as [E|E].
  - unfold percentile. fold t1 t2 lo1 lo2. rewrite <- E.
    assert (Hs : nth lo1 (sort x) 0 <= nth (Nat.min (lo1 + 1) (length x - 1)) (sort x) 0).
    { apply sort_nondecreasing. rewrite sort_length.
      destruct x; [congruence | simpl in *; lia]. }
    set (a := nth lo1 (sort x) 0) in *.
    set (b := nth (Nat.min (lo1 + 1) (length x - 1)) (sort x) 0) in *.
    pose proof (floor_index t1 Ht0) as F1. fold lo1 in F1.
    nra.
  - assert (Hs : nth (Nat.min (lo1 + 1) (length x - 1)) (sort x) 0 <= nth lo2 (sort x) 0).
    { apply sort_nondecreasing. rewrite sort_length.
      destruct x; [congruence | simpl in *; lia]. }
    lra.
Qed.

Lemma percentile_0 (x : list R) : x <> [] -> percentile x 0 = Rmin_list x.
Proof.
  intros Hne. unfold percentile.
  replace (0 / 100 * INR (length x - 1)) with (INR 0) by (simpl; lra).
  rewrite Int_part_INR, Nat2Z.id. simpl INR.
  rewrite <- (sort_first x Hne). lra.
Qed.

Lemma percentile_100 (x : list R) : x <> [] -> percentile x 100 = Rmax_list x.
Proof.
  intros Hne. unfold percentile.
  replace (100 / 100 * INR (length x - 1)) with (INR (length x - 1)) by lra.
  rewrite Int_part_INR, Nat2Z.id.
  replace (Nat.min (length x - 1 + 1) (length x - 1)) with (length x - 1)%nat by lia.
  rewrite (sort_last x Hne). lra.
Qed.

(** ** The quantile partition *)

Lemma nth_map_seq {A : Type} (f : nat -> A) (d : A) (n i : nat) :
  (i < n)%nat -> nth i (map f (seq 0 n)) d = f i.
Proof.
  intros Hi. rewrite (nth_indep _ d (f 0%nat)) by now rewrite length_map, length_seq.
  rewrite map_nth, seq_nth by assumption. reflexivity.
Qed.

Lemma combine_map_same {A B C : Type} (f : A -> B) (h : A -> C) (l : list A) :
  combine (map f l) (map h l) = map (fun a => (f a, h a)) l.
Proof. induction l as [|a l IH]; simpl; [reflexivity | now rewrite IH]. Qed.

Lemma levels_list (K : nat) :
  (1 <= K)%nat ->
  [0] ++ map (fun i => INR i * 100 / INR K) (seq 1 (K - 1)) ++ [100]
  = map (level K) (seq 0 (S K)).
Proof.
  intros HK.
  assert (HnK : INR K <> 0) by (apply not_0_INR; lia).
  replace (S K) with (S (K - 1) + 1)%nat by lia.
  rewrite seq_app, map_app. simpl seq. simpl map.
  replace (S (K - 1)) with K by lia.
  simpl app. f_equal.
  - unfold level. simpl. unfold Rdiv. ring.
  - f_equal. unfold level. f_equal. field. assumption.
Qed.

Lemma level_mono (K i j : nat) :
  (1 <= K)%nat -> (i <= j)%nat -> level K i <= level K j.
Proof.
  intros HK Hij. unfold level.
  assert (0 < INR K) by (apply lt_0_INR; lia).
  apply le_INR in Hij.
  apply Rmult_le_compat_r; [left; now apply Rinv_0_lt_compat | lra].
Qed.

Lemma level_range (K i : nat) :
  (1 <= K)%nat -> (i <= K)%nat -> 0 <= level K i <= 100.
Proof.
  intros HK Hi.
  assert (HnK : INR K <> 0) by (apply not_0_INR; lia).
  split.
  - replace 0 with (level K 0) by (unfold level; simpl; unfold Rdiv; ring).
    apply level_mono; lia.
  - replace 100 with (level K K) by (unfold level; field; assumption).
    now apply level_mono.
Qed.

(** What [_make_single_mixture] returns, in terms of the boundaries. *)
Lemma _make_single_mixture_eq (x : list R) (K : nat) :
  (1 <= K)%nat ->
  _make_single_mixture x K =
    Some (map (fun i => (percentile x (level K (S i)) + percentile x (level K i)) / 2)
              (seq 0 K),
          map (fun i =>
                 let c := (percentile x (level K (S i)) - percentile x (level K i)) ^ 2 in
                 let mincov := ((percentile x (level K K) - percentile x (level K 0)) / 100) ^ 2 in
                 if negb (Rltb mincov c) then mincov else c)
              (seq 0 K)).
Proof.
  intros HK. unfold _make_single_mixture.
  rewrite (levels_list K HK), map_map.
  set (b := fun i => percentile x (level K i)).
  assert (Hhd : hd 0 (map b (seq 0 (S K))) = b 0%nat) by reflexivity.
  assert (Hlast : last (map b (seq 0 (S K))) 0 = b K).
  { rewrite seq_S, map_app. simpl. apply last_last. }
  assert (Htl : tl (map b (seq 0 (S K))) = map (fun i => b (S i)) (seq 0 K)).
  { simpl. rewrite <- seq_shift, map_map. reflexivity. }
  assert (Hrl : removelast (map b (seq 0 (S K))) = map b (seq 0 K)).
  { rewrite seq_S, map_app. simpl. apply removelast_last. }
  rewrite Hhd, Hlast, Htl, Hrl, combine_map_same, !map_map.
  rewrite length_map, length_seq, Nat.eqb_refl. reflexivity.
Qed.

(** C7.  On a sample of at least [K >= 1] values, the partitioner returns
    exactly [K] means and [K] variances.  The means are the midpoints of the
    consecutive percentile boundaries at the levels 0, 100/K, 2*100/K, ...,
    100, and are non-decreasing.  The variances are the squared gaps between
    the boundaries, replaced by the floor ((max - min) / 100)^2 where they do
    not exceed it.  (A positive range is not needed.) *)
Theorem quantile_partition (x : list R) (K : nat) :
  (1 <= K)%nat -> (K <= length x)%nat ->
  exists means covs,
    _make_single_mixture x K = Some (means, covs)
    /\ length means = K /\ length covs = K
    /\ (forall i, (i < K)%nat ->
          nth i means 0 = (percentile x (level K i) + percentile x (level K (S i))) / 2)
    /\ (forall i, (i < K)%nat ->
          nth i covs 0 =
            Rmax ((percentile x (level K (S i)) - percentile x (level K i)) ^ 2)
                 (((Rmax_list x - Rmin_list x) / 100) ^ 2))
    /\ (forall i j, (i <= j)%nat -> (j < K)%nat -> nth i means 0 <= nth j means 0).
Proof.
  intros HK Hn.
  assert (Hne : x <> []) by (destruct x; [simpl in Hn; lia | discriminate]).
  assert (HnK : INR K <> 0) by (apply not_0_INR; lia).
  rewrite (_make_single_mixture_eq x K HK).
  eexists. eexists. split; [reflexivity|].
  assert (Hb : forall i j, (i <= j)%nat -> (j <= K)%nat ->
                 percentile x (level K i) <= percentile x (level K j)).
  { intros i j Hij Hj. apply percentile_mono; try assumption.
    - apply level_range; lia.
    - now apply level_mono.
    - apply level_range; lia. }
  split; [now rewrite length_map, length_seq|].
  split; [now rewrite length_map, length_seq|].
  split; [|split].
  - intros i Hi. rewrite nth_map_seq by assumption. lra.
  - intros i Hi. rewrite (nth_map_seq _ 0 K i Hi). cbv zeta.
    replace (level K K) with 100 by (unfold level; field; assumption).
    replace (level K 0) with 0 by (unfold level; simpl; unfold Rdiv; ring).
    rewrite percentile_0, percentile_100 by assumption.
    set (c := (percentile x (level K (S i)) - percentile x (level K i)) ^ 2).
    set (m := ((Rmax_list x - Rmin_list x) / 100) ^ 2).
    unfold Rmax. destruct (Rle_dec c m) as [Hle|Hgt].
    + rewrite Rltb_false by lra. reflexivity.
    + rewrite Rltb_true by lra. reflexivity.
  - intros i j Hij Hj. rewrite !nth_map_seq by lia.
    pose proof (Hb i j Hij ltac:(lia)).
    pose proof (Hb (S i) (S j) ltac:(lia) ltac:(lia)).
    lra.
Qed.

(** ** More on the partition and on the builder *)

(** A sample of positive variance has a positive range. *)
Lemma variance_pos_range (l : list R) : 0 < variance l -> Rmin_list l < Rmax_list l.
Proof.
  intros Hv. destruct l as [|a l]; [unfold variance in Hv; simpl in Hv; lra|].
  assert (Hne : a :: l <> []) by discriminate.
  destruct (Rmin_list_spec _ Hne) as [Hmin_in Hmin].
  destruct (Rmax_list_spec _ Hne) as [Hmax_in Hmax].
  destruct (Rlt_le_dec (Rmin_list (a :: l)) (Rmax_list (a :: l))) as [H|H]; [assumption|].
  exfalso. rewrite (variance_constant (Rmin_list (a :: l))) in Hv; [lra|].
  intros v Hin. specialize (Hmin v Hin). specialize (Hmax v Hin). lra.
Qed.

Lemma percentile_in_range (x : list R) (q : R) :
  x <> [] -> 0 <= q <= 100 -> Rmin_list x <= percentile x q <= Rmax_list x.
Proof.
  intros Hne Hq. rewrite <- (percentile_0 x Hne), <- (percentile_100 x Hne).
  split; apply percentile_mono; try assumption; lra.
Qed.

(** The bounds on what [_make_single_mixture] returns. *)
Lemma partition_bounds (x : list R) (K : nat) (means covs : list R) :
  x <> [] ->
  _make_single_mixture x K = Some (means, covs) ->
  Forall (fun m => Rmin_list x <= m <= Rmax_list x) means
  /\ Forall (fun c => ((Rmax_list x - Rmin_list x) / 100) ^ 2 <= c
                      <= (Rmax_list x - Rmin_list x) ^ 2) covs
  /\ (Rmin_list x < Rmax_list x -> Forall (fun c => 0 < c) covs).
Proof.
  intros Hne H.
  pose proof (_make_single_mixture_length x K means covs H) as (_ & _ & HK).
  rewrite (_make_single_mixture_eq x K HK) in H. injection H as <- <-.
  assert (HnK : INR K <> 0) by (apply not_0_INR; lia).
  assert (Hb : forall i, (i <= K)%nat ->
                 Rmin_list x <= percentile x (level K i) <= Rmax_list x).
  { intros i Hi. apply percentile_in_range; [assumption|]. now apply level_range. }
  assert (Hmono : forall i, (i < K)%nat ->
                    percentile x (level K i) <= percentile x (level K (S i))).
  { intros i Hi. apply percentile_mono; try assumption.
    - apply level_range; lia.
    - apply level_mono; lia.
    - apply level_range; lia. }
  assert (Hcov : Forall (fun c => ((Rmax_list x - Rmin_list x) / 100) ^ 2 <= c
                                  <= (Rmax_list x - Rmin_list x) ^ 2)
                   (map (fun i =>
                           let c := (percentile x (level K (S i))
                                     - percentile x (level K i)) ^ 2 in
                           let mincov := ((percentile x (level K K)
                                           - percentile x (level K 0)) / 100) ^ 2 in
                           if negb (Rltb mincov c) then mincov else c) (seq 0 K))).
  { apply Forall_forall. intros c Hc. apply in_map_iff in Hc as [i [<- Hi]].
    apply in_seq in Hi. cbv zeta.
    replace (level K K) with 100 by (unfold level; field; assumption).
    replace (level K 0) with 0 by (unfold level; simpl; unfold Rdiv; ring).
    rewrite percentile_0, percentile_100 by assumption.
    pose proof (Hb i ltac:(lia)) as B0. pose proof (Hb (S i) ltac:(lia)) as B1.
    pose proof (Hmono i ltac:(lia)) as M.
    set (lo := Rmin_list x) in *. set (hi := Rmax_list x) in *.
    set (p0 := percentile x (level K i)) in *.
    set (p1 := percentile x (level K (S i))) in *.
    destruct (Rltb (((hi - lo) / 100) ^ 2) ((p1 - p0) ^ 2)) eqn:E; simpl.
    - apply Rltb_spec in E. split; [lra | nra].
    - split; [lra | nra]. }
  split; [|split].
  - apply Forall_forall. intros m Hm. apply in_map_iff in Hm as [i [<- Hi]].
    apply in_seq in Hi.
    pose proof (Hb i ltac:(lia)). pose proof (Hb (S i) ltac:(lia)). lra.
  - exact Hcov.
  - intros Hrange. eapply Forall_impl; [|exact Hcov].
    intros c [Hc _]. simpl in Hc.
    assert (0 < ((Rmax_list x - Rmin_list x) / 100) ^ 2) by (simpl; nra).
    lra.
Qed.

(** X1.  The components that [_make_single_mixture] returns stay inside the
    sample: every mean lies between the minimum and the maximum, and every
    variance lies between the floor ((max - min) / 100)^2 and the squared
    range.  When the range is positive every variance is positive, so the
    widths that the comment in the code worries about cannot be zero. *)
Theorem partition_within_range (x : list R) (K : nat) (means covs : list R) :
  x <> [] ->
  _make_single_mixture x K = Some (means, covs) ->
  Forall (fun m => Rmin_list x <= m <= Rmax_list x) means
  /\ Forall (fun c => ((Rmax_list x - Rmin_list x) / 100) ^ 2 <= c
                      <= (Rmax_list x - Rmin_list x) ^ 2) covs
  /\ (Rmin_list x < Rmax_list x -> Forall (fun c => 0 < c) covs).
Proof. apply partition_bounds. Qed.

(** X4.  On its last path the builder hands the variational fitter the
    finite entries of the column and an initial guess that is a valid
    mixture: exactly [Ngauss_init] components, all of weight 1/Ngauss_init,
    all of positive variance; the pruning threshold is half the sample size
    over the number of components. *)
Theorem builder_initial_guess (col : list fl) (Ngauss_init nmin_multigauss VB_iter : nat) :
  0 < variance (finite_values col) ->
  (nmin_multigauss <= length (finite_values col))%nat ->
  VB_iter <> 0%nat ->
  (1 <= Ngauss_init)%nat ->
  exists means covs,
    _make_single_mixture (finite_values col) Ngauss_init = Some (means, covs)
    /\ _make_mixture_for_column col Ngauss_init nmin_multigauss VB_iter =
         Some (Some (GaussianInference (finite_values col)
                       (create_gaussian_mixture (map Fin means) (map Fin covs))
                       1e10 VB_iter 1e-8 1e-5
                       (0.5 * INR (length (finite_values col)) / INR Ngauss_init)))
    /\ length (components (create_gaussian_mixture (map Fin means) (map Fin covs)))
       = Ngauss_init
    /\ weights (create_gaussian_mixture (map Fin means) (map Fin covs))
       = repeat (Fin (1 / INR Ngauss_init)) Ngauss_init
    /\ Forall (fun c => 0 < c) covs
    /\ map sigma (components (create_gaussian_mixture (map Fin means) (map Fin covs)))
       = map Fin covs.
Proof.
  intros Hpos Hn Hit HK.
  assert (Hne : finite_values col <> []).
  { intros E. rewrite E in Hpos. unfold variance in Hpos. simpl in Hpos. lra. }
  rewrite (_make_single_mixture_eq (finite_values col) Ngauss_init HK).
  eexists. eexists. split; [reflexivity|].
  set (means := map _ (seq 0 Ngauss_init)).
  set (covs := map _ (seq 0 Ngauss_init)).
  assert (Hm : length means = Ngauss_init) by (unfold means; now rewrite length_map, length_seq).
  assert (Hc : length covs = Ngauss_init) by (unfold covs; now rewrite length_map, length_seq).
  assert (Hcomp : length (components (create_gaussian_mixture (map Fin means) (map Fin covs)))
                  = Ngauss_init).
  { simpl. rewrite length_map, length_combine, !length_map. lia. }
  split; [|split; [|split; [|split]]].
  - assert (Hstd : fl_lt (Fin 0) (np_std (finite_values col)) = true).
    { unfold np_std. destruct (finite_values col); [congruence|].
      simpl. apply Rltb_true. now apply sqrt_lt_R0. }
    assert (Hlen0 : (length (finite_values col) =? 0)%nat = false).
    { apply Nat.eqb_neq. destruct (finite_values col); [congruence | discriminate]. }
    assert (Hltb : (length (finite_values col) <? nmin_multigauss)%nat = false)
      by (apply Nat.ltb_ge; exact Hn).
    assert (Heqb : (VB_iter =? 0)%nat = false) by now apply Nat.eqb_neq.
    unfold _make_mixture_for_column. cbv zeta.
    rewrite Hlen0, Hstd, Hltb, Heqb. simpl orb. cbv iota.
    rewrite (_make_single_mixture_eq (finite_values col) Ngauss_init HK).
    fold means covs. rewrite Hcomp. reflexivity.
  - exact Hcomp.
  - unfold create_gaussian_mixture at 1. cbv zeta. simpl weights.
    rewrite length_map, length_combine, !length_map, Hm, Hc, Nat.min_id. reflexivity.
  - destruct (partition_bounds (finite_values col) Ngauss_init means covs Hne)
      as (_ & _ & H); [|apply H; now apply variance_pos_range].
    apply _make_single_mixture_eq. exact HK.
  - simpl. rewrite map_map.
    assert (Hgen : forall (ms cs : list fl), length ms = length cs ->
              map (fun p : fl * fl => sigma {| mu := fst p; sigma := snd p |}) (combine ms cs)
              = cs).
    { induction ms as [|m ms IH]; intros [|c cs] Hl; simpl in *; try discriminate;
        [reflexivity|]. f_equal. apply IH. lia. }
    apply Hgen. rewrite !length_map. lia.
Qed.

(** ** More on the aggregator *)

Lemma logprob_column_length (mix : option MixtureDensity) (xcol col : list fl) :
  logprob_column mix xcol = Some col -> length col = length xcol.
Proof.
  destruct mix as [m|]; simpl.
  - destruct (_ =? _)%nat; [|discriminate].
    intros H. apply sequence_length in H. now rewrite length_map in H.
  - intros H. injection H as <-. now rewrite length_map.
Qed.

Lemma floor_minprob_lower (mp : R) (v : fl) :
  0 < mp -> isfinite v = true ->
  exists u, floor_minprob mp v = Fin u /\ ln mp <= u.
Proof.
  intros Hmp Hv. destruct v as [a| | |]; try discriminate.
  unfold floor_minprob, fl_log. rewrite (Rltb_true 0 mp) by assumption. simpl.
  destruct (Rltb a (ln mp)) eqn:E.
  - exists (ln mp). split; [reflexivity | lra].
  - exists a. split; [reflexivity|].
    destruct (Rle_or_lt (ln mp) a) as [H|H]; [assumption|].
    apply Rltb_spec in H. congruence.
Qed.

Lemma fl_sum_lower (L : R) (l : list fl) :
  Forall (fun v => exists u, v = Fin u /\ L <= u) l ->
  exists s, fl_sum l = Fin s /\ INR (length l) * L <= s.
Proof.
  induction 1 as [|v l [u [-> Hu]] _ [s [IH Hs]]].
  - exists 0. split; [reflexivity | simpl; lra].
  - exists (u + s). split.
    + change (fl_sum (Fin u :: l)) with (fl_add (Fin u) (fl_sum l)). now rewrite IH.
    + change (length (Fin u :: l)) with (S (length l)). rewrite S_INR. lra.
Qed.

Lemma combine_seq_in {A : Type} (a : A) (l : list A) (s : nat) :
  In a l -> exists i, In (i, a) (combine (seq s (length l)) l).
Proof.
  revert s. induction l as [|b l IH]; intros s Hin; [contradiction|].
  destruct Hin as [->|Hin].
  - exists s. now left.
  - destruct (IH (S s) Hin) as [i Hi]. exists i. now right.
Qed.

(** The floor on the tails bounds every score from below. *)
Lemma scores_lower_bound (self : MultiGaussNaiveBayesClassifier) (fd : fdists)
    (x : matrix) (p : R) (scores : list fl) :
  0 < minprob (hyper self) ->
  _evaluate_feature_dist self fd x (Fin p) = Some scores ->
  Forall (fun s => exists r, s = Fin r
                             /\ INR (length fd) * ln (minprob (hyper self)) + p <= r)
         scores.
Proof.
  intros Hmp. unfold _evaluate_feature_dist.
  destruct (length fd =? ncols x)%nat; [|discriminate].
  destruct (sequence _) as [logprob|] eqn:Es; [|discriminate].
  intros H. injection H as <-.
  assert (Hlen : length logprob = length fd).
  { apply sequence_length in Es.
    rewrite length_map, length_combine, length_seq in Es. lia. }
  apply Forall_forall. intros s Hs. apply in_map_iff in Hs as [r [<- Hr]].
  apply in_seq in Hr.
  destruct (fl_sum_lower (ln (minprob (hyper self)))
              (map (fun c => nth r c (Fin 0))
                   (map (map (floor_minprob (minprob (hyper self))))
                        (map (map zero_missing) logprob)))) as [t [Et Ht]].
  { apply Forall_forall. intros v Hv.
    apply in_map_iff in Hv as [c [<- Hc]].
    apply in_map_iff in Hc as [c1 [<- Hc1]].
    apply in_map_iff in Hc1 as [col [<- Hcol]].
    destruct (sequence_in _ _ _ _ Es Hcol) as [[i mix] [_ Hi]]. simpl in Hi.
    apply logprob_column_length in Hi. unfold column in Hi. rewrite length_map in Hi.
    rewrite map_map.
    rewrite (nth_indep _ (Fin 0) (floor_minprob (minprob (hyper self)) (zero_missing NaN)))
      by (rewrite length_map; lia).
    rewrite (map_nth (fun v => floor_minprob (minprob (hyper self)) (zero_missing v))).
    apply floor_minprob_lower; [assumption | apply zero_missing_finite]. }
  rewrite Et. rewrite !length_map, Hlen in Ht.
  exists (t + p). split; [reflexivity | lra].
Qed.

(** X5.  With a positive [minprob], every score that the aggregator returns
    is finite and at least the log-prior plus log(minprob) for each feature:
    no feature can lower a class by more than log(minprob). *)
Theorem scores_bounded_below (self : MultiGaussNaiveBayesClassifier) (fd : fdists)
    (x : matrix) (p : R) (scores : list fl) :
  0 < minprob (hyper self) ->
  _evaluate_feature_dist self fd x (Fin p) = Some scores ->
  Forall (fun s => exists r, s = Fin r
                             /\ INR (length fd) * ln (minprob (hyper self)) + p <= r)
         scores.
Proof. apply scores_lower_bound. Qed.

(** X6.  On a batch that has rows, the aggregator returns exactly when the
    profile has one entry per column and every mixture that is present has
    at least one component and one weight per component; otherwise it
    raises. *)
Theorem aggregator_returns_iff (self : MultiGaussNaiveBayesClassifier) (fd : fdists)
    (x : matrix) (logprior : fl) :
  x <> [] ->
  (exists scores, _evaluate_feature_dist self fd x logprior = Some scores)
  <-> length fd = ncols x /\ fdists_ok fd.
Proof.
  intros Hne. split.
  - intros [scores H]. unfold _evaluate_feature_dist in H.
    destruct (Nat.eqb_spec (length fd) (ncols x)) as [Hl|Hl]; [|discriminate].
    split; [assumption|].
    destruct (sequence _) as [logprob|] eqn:Es; [|discriminate].
    apply Forall_forall. intros [m|] Hm; [|exact I].
    destruct (combine_seq_in _ fd 0 Hm) as [i Hi].
    apply sequence_Some in Es.
    apply (in_map (fun p => logprob_column (snd p) (column (fst p) x))) in Hi.
    rewrite Es in Hi. apply in_map_iff in Hi as [col [Hcol _]].
    simpl in Hcol. symmetry in Hcol.
    unfold mixture_ok.
    destruct (length (weights m) =? length (components m))%nat eqn:Ew; [|discriminate].
    rewrite andb_true_r.
    destruct (components m) as [|c cs] eqn:Ec; [|reflexivity].
    exfalso. destruct x as [|row x']; [congruence|]. simpl in Hcol. discriminate.
  - intros [Hl Hok]. now apply _evaluate_feature_dist_total.
Qed.

(** ** More on prediction *)

Lemma sequence_Forall2 {A B : Type} (f : A -> option B) (l : list A) (r : list B) :
  sequence (map f l) = Some r -> Forall2 (fun a b => f a = Some b) l r.
Proof.
  intros H. apply sequence_Some in H. revert r H.
  induction l as [|a l IH]; intros [|b r] H; simpl in H; try discriminate; constructor.
  - congruence.
  - apply IH. congruence.
Qed.

Lemma finite_matrix (M : matrix) :
  Forall (Forall (fun v => isfinite v = true)) M -> exists rows, M = map (map Fin) rows.
Proof.
  induction 1 as [|row M Hrow _ [rows ->]].
  - now exists [].
  - destruct (finite_list row Hrow) as [rs ->]. now exists (rs :: rows).
Qed.

Lemma combine_map_both {A B C D : Type} (f : A -> C) (h : B -> D) (l : list A) (l' : list B) :
  combine (map f l) (map h l') = map (fun p => (f (fst p), h (snd p))) (combine l l').
Proof.
  revert l'. induction l as [|a l IH]; intros [|b l']; simpl; try reflexivity.
  now rewrite IH.
Qed.

(** The first maximum of a list of finite scores. *)
Lemma argmax_from_spec (rs : list R) (b : R) (bi i : nat) :
  (bi < i)%nat ->
  let k := argmax_from (Fin b) bi i (map Fin rs) in
  (k = bi /\ Forall (fun v => v <= b) rs)
  \/ ((i <= k < i + length rs)%nat
      /\ b < nth (k - i) rs 0
      /\ Forall (fun v => v <= nth (k - i) rs 0) rs
      /\ forall j, (j < k - i)%nat -> nth j rs 0 < nth (k - i) rs 0).
Proof.
  revert b bi i. induction rs as [|v t IH]; intros b bi i Hb; simpl.
  - left. split; [reflexivity | constructor].
  - destruct (Rltb b v) eqn:E.
    + apply Rltb_spec in E. right.
      destruct (IH v i (S i) ltac:(lia)) as [[Hk Hall] | (Hk & Hlt & Hall & Hfirst)].
      * rewrite Hk. replace (i - i)%nat with 0%nat by lia. simpl.
        split; [lia|]. split; [assumption|]. split.
        -- constructor; [lra | assumption].
        -- intros j Hj. lia.
      * set (k := argmax_from (Fin v) i (S i) (map Fin t)) in *.
        replace (k - i)%nat with (S (k - S i)) by lia. simpl.
        split; [lia|]. split; [lra|]. split.
        -- constructor; [lra | assumption].
        -- intros [|j] Hj; [lra | apply Hfirst; lia].
    + assert (Hvb : v <= b).
      { destruct (Rle_or_lt v b) as [H|H]; [assumption|].
        apply Rltb_spec in H. congruence. }
      destruct (IH b bi (S i) ltac:(lia)) as [[Hk Hall] | (Hk & Hlt & Hall & Hfirst)].
      * left. split; [assumption|]. constructor; assumption.
      * right. set (k := argmax_from (Fin b) bi (S i) (map Fin t)) in *.
        replace (k - i)%nat with (S (k - S i)) by lia. simpl.
        split; [lia|]. split; [assumption|]. split.
        -- constructor; [lra | assumption].
        -- intros [|j] Hj; [lra | apply Hfirst; lia].
Qed.

Lemma argmax_spec (rs : list R) (i : nat) :
  argmax (map Fin rs) = Some i ->
  (i < length rs)%nat
  /\ Forall (fun v => v <= nth i rs 0) rs
  /\ forall j, (j < i)%nat -> nth j rs 0 < nth i rs 0.
Proof.
  destruct rs as [|a t]; [discriminate|]. simpl. intros H. injection H as <-.
  destruct (argmax_from_spec t a 0 1 ltac:(lia)) as [[Hk Hall] | (Hk & Hlt & Hall & Hfirst)].
  - rewrite Hk. simpl. split; [lia|]. split.
    + constructor; [lra | assumption].
    + intros j Hj. lia.
  - set (k := argmax_from (Fin a) 0 1 (map Fin t)) in *. clearbody k.
    destruct k as [|k']; [lia|].
    replace (S k' - 1)%nat with k' in * by lia. simpl.
    split; [lia|]. split.
    + constructor; [lra | assumption].
    + intros [|j] Hj; [lra|]. apply Hfirst. lia.
Qed.

(** What a returning [_predict] stores, row by row, when the log-prior is
    finite: the scores of the row, their log-sum-exp and their argmax. *)
Lemma predict_structure (self s : MultiGaussNaiveBayesClassifier) (X : matrix)
    (classes : list Z) :
  classes_ self = Some classes ->
  (class_properties_ self <> Some [] -> classes <> []) ->
  _predict self X = Returned tt s ->
  exists cp rows Ls nearest,
    class_properties_ self = Some cp
    /\ cp <> []
    /\ length rows = length X
    /\ Forall (fun row => length row = length cp) rows
    /\ Forall2 (fun row L => logsumexp (map Fin row) = Some (Fin L)) rows Ls
    /\ Forall2 (fun row i => argmax (map Fin row) = Some i) rows nearest
    /\ s = set_prediction self nearest
             (map (fun p => map (fun v => Fin (v + - snd p)) (fst p)) (combine rows Ls))
             (map Fin Ls).
Proof.
  intros Hcl Hne H.
  apply _predict_returned in H
    as (classes0 & cp & XT & cols & lse & nearest & Hc & Hcl0 & Hcp & Hw & Hs & Hl & Ha & ->).
  rewrite Hcl in Hcl0. injection Hcl0 as <-.
  assert (HXT : length XT = length X).
  { destruct (islogvar self); simpl in Hw.
    - apply sequence_length in Hw. now rewrite length_map in Hw.
    - now injection Hw as <-. }
  assert (Hcpne : cp <> []).
  { intros E. rewrite E in Hs. simpl in Hs. injection Hs as <-.
    apply check_array_inv in Hc as (_ & HX & _).
    destruct X as [|r0 X0]; [congruence|]. simpl in Hl. discriminate. }
  destruct (logprior_of_finite classes) as [p Hp].
  { apply Hne. rewrite Hcp. congruence. }
  rewrite Hp in Hs.
  assert (Hcols : length cols = length cp).
  { apply sequence_length in Hs. now rewrite length_map in Hs. }
  assert (Hfin : Forall (Forall (fun v => isfinite v = true))
                   (map (fun r => map (fun c => nth r c NaN) cols) (seq 0 (length X)))).
  { apply Forall_forall. intros row Hrow. apply in_map_iff in Hrow as [r [<- Hr]].
    apply in_seq in Hr. apply Forall_forall. intros v Hv.
    apply in_map_iff in Hv as [c [<- Hc0]].
    destruct (sequence_in _ _ _ _ Hs Hc0) as [c1 [_ He]].
    apply _evaluate_feature_dist_finite in He as [Hlc Hf].
    rewrite Forall_forall in Hf. apply Hf, nth_In. lia. }
  destruct (finite_matrix _ Hfin) as [rows Hrows].
  assert (Hrlen : length rows = length X).
  { apply (f_equal (@length _)) in Hrows.
    now rewrite !length_map, length_seq in Hrows. }
  assert (Hrk : Forall (fun row => length row = length cp) rows).
  { apply Forall_forall. intros row Hrow.
    apply (in_map (map Fin)) in Hrow. rewrite <- Hrows in Hrow.
    apply in_map_iff in Hrow as [r [Hr _]].
    apply (f_equal (@length _)) in Hr. rewrite !length_map in Hr. congruence. }
  rewrite Hrows in Hl, Ha |- *.
  rewrite map_map in Hl, Ha.
  apply sequence_Forall2 in Hl. apply sequence_Forall2 in Ha.
  assert (HLs : exists Ls, lse = map Fin Ls
                           /\ Forall2 (fun row L => logsumexp (map Fin row) = Some (Fin L))
                                      rows Ls).
  { clear - Hl Hrk Hcpne. induction Hl as [|row l rows lse Hrow _ IH].
    - exists []. split; [reflexivity | constructor].
    - inversion Hrk as [|? ? Hlen Hrk']; subst.
      destruct (IH Hrk') as [Ls [-> HF]].
      destruct (logsumexp_normalises row) as [L [HL _]].
      { destruct row; [|discriminate]. destruct cp; [congruence | discriminate]. }
      rewrite HL in Hrow. injection Hrow as <-.
      exists (L :: Ls). split; [reflexivity | now constructor]. }
  destruct HLs as [Ls [-> HLs]].
  exists cp, rows, Ls, nearest.
  repeat split; try assumption.
  f_equal. rewrite combine_map_both, map_map. apply map_ext.
  intros [row L]. simpl. rewrite map_map. reflexivity.
Qed.

Lemma fit_predict_structure (self0 self s : MultiGaussNaiveBayesClassifier) (g g' : rng)
    (X X' : matrix) (y : list Z) :
  fit self0 g X y = (Returned tt self, g') ->
  _predict self X' = Returned tt s ->
  exists cp rows Ls nearest,
    class_properties_ self = Some cp
    /\ cp <> []
    /\ length rows = length X'
    /\ Forall (fun row => length row = length cp) rows
    /\ Forall2 (fun row L => logsumexp (map Fin row) = Some (Fin L)) rows Ls
    /\ Forall2 (fun row i => argmax (map Fin row) = Some i) rows nearest
    /\ s = set_prediction self nearest
             (map (fun p => map (fun v => Fin (v + - snd p)) (fst p)) (combine rows Ls))
             (map Fin Ls).
Proof.
  intros Hfit Hp.
  destruct (classes_ self) as [classes|] eqn:Ecl.
  2:{ apply _predict_returned in Hp as (c & cp & XT & cols & lse & nr & _ & E & _).
      congruence. }
  apply (predict_structure self s X' classes Ecl); [|assumption].
  intros Hne. destruct (class_properties_ self) as [cp|] eqn:Ecp.
  - apply (fit_classes_nonempty self0 self g g' X y classes cp); congruence.
  - apply _predict_returned in Hp as (c & cp & XT & cols & lse & nr & _ & _ & E & _).
    congruence.
Qed.

Lemma Rsum_term_le (f : R -> R) (l : list R) (a : R) :
  (forall v, 0 <= f v) -> In a l -> f a <= Rsum (map f l).
Proof.
  intros Hf. induction l as [|b l IH]; intros Hin; [contradiction|].
  simpl. assert (Hs : 0 <= Rsum (map f l)).
  { clear - Hf. induction l as [|c l IH]; simpl; [lra|]. specialize (Hf c). lra. }
  destruct Hin as [->|Hin].
  - lra.
  - specialize (IH Hin). specialize (Hf b). lra.
Qed.

(** The scores of a row less their log-sum-exp are at most zero. *)
Lemma logsumexp_dominates (row : list R) (L : R) :
  logsumexp (map Fin row) = Some (Fin L) ->
  Forall (fun v => v + - L <= 0) row.
Proof.
  intros H. destruct row as [|a row]; [discriminate|].
  destruct (logsumexp_normalises (a :: row)) as [L' [HL Hsum]]; [discriminate|].
  rewrite H in HL. injection HL as <-.
  rewrite !map_map in Hsum. simpl fl_sub in Hsum.
  rewrite <- (map_map (fun v => exp (v + - L)) Fin), fl_sum_Fin in Hsum.
  injection Hsum as Hsum.
  apply Forall_forall. intros v Hv.
  pose proof (Rsum_term_le (fun v => exp (v + - L)) (a :: row) v
                (fun w => Rlt_le _ _ (exp_pos _)) Hv) as Hle.
  simpl in Hle. rewrite Hsum in Hle.
  destruct (Rle_or_lt (v + - L) 0) as [|Hpos]; [assumption|].
  apply exp_increasing in Hpos. rewrite exp_0 in Hpos. lra.
Qed.

Lemma exp_le_mono (a b : R) : a <= b -> exp a <= exp b.
Proof.
  intros [H| ->]; [left; now apply exp_increasing | lra].
Qed.

(** In one row, the position that [argmax] picks has the largest
    probability, and no earlier position has as large a one. *)
Lemma argmax_row_probability (row : list R) (L : R) (i : nat) :
  argmax (map Fin row) = Some i ->
  exists p,
    nth_error (map (fun v => fl_exp (Fin (v + - L))) row) i = Some (Fin p)
    /\ Forall (fun v => exists q, v = Fin q /\ q <= p)
              (map (fun v => fl_exp (Fin (v + - L))) row)
    /\ Forall (fun v => exists q, v = Fin q /\ q < p)
              (firstn i (map (fun v => fl_exp (Fin (v + - L))) row)).
Proof.
  intros H. apply argmax_spec in H as (Hi & Hall & Hfirst).
  exists (exp (nth i row 0 + - L)). split; [|split].
  - rewrite nth_error_map, (nth_error_nth' row 0 Hi). reflexivity.
  - apply Forall_forall. intros v Hv. apply in_map_iff in Hv as [w [<- Hw]].
    rewrite Forall_forall in Hall. specialize (Hall w Hw).
    eexists. split; [reflexivity|]. apply exp_le_mono. lra.
  - apply Forall_forall. intros v Hv. rewrite firstn_map in Hv.
    apply in_map_iff in Hv as [w [<- Hw]].
    destruct (In_nth _ _ 0 Hw) as [j [Hj Hnth]].
    rewrite length_firstn in Hj. rewrite nth_firstn in Hnth.
    destruct (j <? i)%nat eqn:E; [|apply Nat.ltb_ge in E; lia].
    apply Nat.ltb_lt in E. specialize (Hfirst j E). rewrite Hnth in Hfirst.
    eexists. split; [reflexivity|]. apply exp_increasing. lra.
Qed.

(** X7.  After a fit, [predict] and [predict_proba] agree on every batch:
    in each row the position that [predict] returns carries the largest
    probability of the row, and every earlier position a strictly smaller
    one (ties go to the first class profile). *)
Theorem predict_picks_most_probable
    (self0 self s1 s2 : MultiGaussNaiveBayesClassifier) (g g' : rng)
    (X X' : matrix) (y : list Z) (nearest : list nat) (P : matrix) :
  fit self0 g X y = (Returned tt self, g') ->
  predict self X' = Returned nearest s1 ->
  predict_proba self X' = Returned P s2 ->
  Forall2 (fun i row =>
             exists p,
               nth_error row i = Some (Fin p)
               /\ Forall (fun v => exists q, v = Fin q /\ q <= p) row
               /\ Forall (fun v => exists q, v = Fin q /\ q < p) (firstn i row))
          nearest P.
Proof.
  intros Hfit Hp Hpp. unfold predict in Hp. unfold predict_proba in Hpp.
  destruct (_predict self X') as [[] s|s] eqn:Ep; [|discriminate].
  destruct (fit_predict_structure self0 self s g g' X X' y Hfit Ep)
    as (cp & rows & Ls & nr & _ & _ & _ & _ & HLs & Ham & ->).
  simpl in Hp, Hpp. injection Hp as <- _. injection Hpp as <- _.
  clear - HLs Ham. revert Ls nr HLs Ham.
  induction rows as [|row rows IH]; intros Ls nr HLs Ham.
  - inversion Ham; subst. inversion HLs; subst. constructor.
  - inversion Ham as [|? i ? nr' Hi Ham']; subst.
    inversion HLs as [|? L ? Ls' HL HLs']; subst.
    simpl. constructor; [|now apply IH].
    rewrite map_map. now apply argmax_row_probability.
Qed.

(** X8.  After a fit, what [predict_proba] returns is the exponential of
    what [predict_log_proba] returns; both have one entry per class profile
    in every row; every log-probability is finite and at most zero and every
    probability is at least zero and at most one.  (On exact numbers a
    probability is never zero; in float64 the exponential of a very negative
    log-probability is 0.0, so zero is not excluded.) *)
Theorem probabilities_in_unit_interval
    (self0 self s : MultiGaussNaiveBayesClassifier) (g g' : rng)
    (X X' : matrix) (y : list Z) (P : matrix) :
  fit self0 g X y = (Returned tt self, g') ->
  predict_proba self X' = Returned P s ->
  exists cp LP,
    class_properties_ self = Some cp
    /\ predict_log_proba self X' = Returned LP s
    /\ P = map (map fl_exp) LP
    /\ Forall (fun row => length row = length cp
                          /\ Forall (fun v => exists l, v = Fin l /\ l <= 0) row) LP
    /\ Forall (fun row => length row = length cp
                          /\ Forall (fun v => exists q, v = Fin q /\ 0 <= q <= 1) row) P.
Proof.
  intros Hfit Hpp. unfold predict_proba in Hpp. unfold predict_log_proba.
  destruct (_predict self X') as [[] s'|s'] eqn:Ep; [|discriminate].
  destruct (fit_predict_structure self0 self s' g g' X X' y Hfit Ep)
    as (cp & rows & Ls & nr & Hcp & _ & _ & Hk & HLs & _ & ->).
  simpl in Hpp |- *. injection Hpp as <- <-.
  exists cp. eexists. split; [assumption|]. split; [reflexivity|]. split; [reflexivity|].
  assert (Hrows : forall row L, In (row, L) (combine rows Ls) ->
                    length row = length cp /\ Forall (fun v => v + - L <= 0) row).
  { clear - Hk HLs. induction HLs as [|row L rows Ls HL _ IH]; intros r l Hin;
      [contradiction|].
    inversion Hk as [|? ? Hlen Hk']; subst.
    destruct Hin as [Hin|Hin]; [|now apply IH].
    injection Hin as <- <-. split; [assumption | now apply logsumexp_dominates]. }
  split.
  - apply Forall_forall. intros r Hr. apply in_map_iff in Hr as [[row L] [<- Hin]].
    destruct (Hrows row L Hin) as [Hlen Hdom]. simpl.
    split; [now rewrite length_map|].
    apply Forall_forall. intros v Hv. apply in_map_iff in Hv as [w [<- Hw]].
    rewrite Forall_forall in Hdom. eexists. split; [reflexivity | now apply Hdom].
  - apply Forall_forall. intros r Hr. apply in_map_iff in Hr as [r0 [<- Hr0]].
    apply in_map_iff in Hr0 as [[row L] [<- Hin]].
    destruct (Hrows row L Hin) as [Hlen Hdom]. simpl.
    split; [now rewrite !length_map|].
    apply Forall_forall. intros v Hv. rewrite map_map in Hv.
    apply in_map_iff in Hv as [w [<- Hw]].
    rewrite Forall_forall in Hdom. specialize (Hdom w Hw).
    eexists. split; [reflexivity|]. split; [left; apply exp_pos|].
    rewrite <- exp_0. now apply exp_le_mono.
Qed.

(** ** Prediction that raises *)

Lemma _predict_raised (self s : MultiGaussNaiveBayesClassifier) (X : matrix) :
  _predict self X = Raised s -> s = self.
Proof.
  unfold _predict.
  repeat match goal with
         | |- context [match ?t with _ => _ end] => destruct t
         end; intros H; try discriminate; now injection H.
Qed.

Lemma _predict_stores (self s : MultiGaussNaiveBayesClassifier) (X : matrix) :
  _predict self X = Returned tt s ->
  nearest_ s <> None /\ logproba_ s <> None /\ surprise_ s <> None.
Proof.
  intros H. apply _predict_returned in H
    as (c & cp & XT & cols & lse & nr & _ & _ & _ & _ & _ & _ & _ & ->).
  simpl. repeat split; discriminate.
Qed.

(** X9.  A prediction call that raises leaves the whole instance as it was,
    and every prediction call raises on an instance on which no fit has yet
    stored the training data, the class set and the class profiles. *)
Theorem failed_prediction_changes_nothing (self : MultiGaussNaiveBayesClassifier)
    (X : matrix) :
  (forall s, predict self X = Raised s -> s = self)
  /\ (forall s, predict_proba self X = Raised s -> s = self)
  /\ (forall s, predict_log_proba self X = Raised s -> s = self)
  /\ (X_ self = None \/ y_ self = None \/ classes_ self = None
      \/ class_properties_ self = None ->
      predict self X = Raised self
      /\ predict_proba self X = Raised self
      /\ predict_log_proba self X = Raised self).
Proof.
  assert (Hr : forall s, _predict self X = Raised s -> s = self)
    by (intros s; apply _predict_raised).
  split; [|split; [|split]].
  - intros s. unfold predict. destruct (_predict self X) as [[] s'|s'] eqn:E.
    + destruct (_predict_stores self s' X E) as (H1 & _).
      destruct (nearest_ s'); [discriminate | congruence].
    + intros H. injection H as <-. now apply Hr.
  - intros s. unfold predict_proba. destruct (_predict self X) as [[] s'|s'] eqn:E.
    + destruct (_predict_stores self s' X E) as (_ & H1 & _).
      destruct (logproba_ s'); [discriminate | congruence].
    + intros H. injection H as <-. now apply Hr.
  - intros s. unfold predict_log_proba. destruct (_predict self X) as [[] s'|s'] eqn:E.
    + destruct (_predict_stores self s' X E) as (_ & H1 & _).
      destruct (logproba_ s'); [discriminate | congruence].
    + intros H. injection H as <-. now apply Hr.
  - intros H.
    assert (Hp : _predict self X = Raised self).
    { unfold _predict.
      destruct (X_ self); [|reflexivity]. destruct (y_ self); [|reflexivity].
      destruct (check_array X); [|reflexivity].
      destruct (classes_ self); [|reflexivity].
      destruct (class_properties_ self); [|reflexivity].
      exfalso. destruct H as [H|[H|[H|H]]]; discriminate. }
    unfold predict, predict_proba, predict_log_proba. rewrite Hp. auto.
Qed.

Lemma no_profile_raises (self : MultiGaussNaiveBayesClassifier) (X : matrix) :
  class_properties_ self = Some [] -> _predict self X = Raised self.
Proof.
  intros Hcp. unfold _predict. rewrite Hcp.
  destruct (X_ self); [|reflexivity]. destruct (y_ self); [|reflexivity].
  destruct (check_array X) as [X0|] eqn:Ec; [|reflexivity].
  destruct (classes_ self); [|reflexivity].
  destruct (where_islogvar (islogvar self) X0); [|reflexivity].
  simpl. apply check_array_inv in Ec as (-> & Hne & _).
  destruct X as [|r X]; [congruence|]. reflexivity.
Qed.

(** X10.  When no label of the configured class set occurs in [y], a fit
    that returns leaves an empty list of class profiles and an empty KL
    structure, and every later prediction call raises. *)
Theorem no_populated_class_cannot_predict
    (self0 self : MultiGaussNaiveBayesClassifier) (g g' : rng)
    (X : matrix) (y labels : list Z) :
  all_labels (hyper self0) = Some labels ->
  (forall label, In label labels -> ~ In label y) ->
  fit self0 g X y = (Returned tt self, g') ->
  class_properties_ self = Some []
  /\ populated_columns_ self = Some []
  /\ KL_ self = Some []
  /\ g' = g
  /\ forall X',
       predict self X' = Raised self
       /\ predict_proba self X' = Raised self
       /\ predict_log_proba self X' = Raised self.
Proof.
  intros Hlab Hnone Hfit.
  apply fit_returned in Hfit as (XT & cp & j & KL & _ & _ & Hl & Hk & ->).
  rewrite Hlab in *.
  pose proof (class_loop_labels _ _ _ _ _ _ _ Hl) as [Hf Hj].
  assert (Hcp : cp = []).
  { destruct cp as [|c cp]; [reflexivity|]. exfalso.
    assert (Hin : In (fst c) (filter (fun label => existsb (fun l => (l =? label)%Z) y)
                                      labels)).
    { rewrite <- Hf. now left. }
    apply filter_In in Hin as [Hin He]. apply existsb_exists in He as [l [Hly Heq]].
    apply Z.eqb_eq in Heq. subst l. exact (Hnone _ Hin Hly). }
  subst cp. destruct j; [|discriminate]. simpl in Hk. injection Hk as <- <-.
  simpl. repeat split; try reflexivity;
    unfold predict, predict_proba, predict_log_proba;
    rewrite no_profile_raises by reflexivity; reflexivity.
Qed.

(** ** More on [fit] *)

Lemma class_loop_positions (self : MultiGaussNaiveBayesClassifier) (XT : matrix)
    (y : list Z) (i : nat) (classes : list Z) (cp : list (Z * fdists)) (j : list nat) :
  class_loop self XT y i classes = Some (cp, j) ->
  Forall2 (fun k c => (i <= k)%nat /\ nth_error classes (k - i) = Some (fst c)) j cp
  /\ StronglySorted lt j.
Proof.
  revert i cp j. induction classes as [|label rest IH]; intros i cp j; simpl.
  - intros H. injection H as <- <-. split; constructor.
  - assert (Hshift : forall (cp' : list (Z * fdists)) (j' : list nat),
              Forall2 (fun k (c : Z * fdists) =>
                         (S i <= k)%nat /\ nth_error rest (k - S i) = Some (fst c))
                      j' cp' ->
              Forall2 (fun k (c : Z * fdists) =>
                         (i <= k)%nat /\ nth_error (label :: rest) (k - i) = Some (fst c))
                      j' cp').
    { intros cp' j' HF. eapply Forall2_impl; [|exact HF].
      intros k c [Hk Hn]. split; [lia|].
      replace (k - i)%nat with (S (k - S i)) by lia. exact Hn. }
    destruct (negb _).
    + intros H. destruct (IH _ _ _ H) as [HF HS]. split; [now apply Hshift | assumption].
    + destruct (_make_mixture self (rows_of_class label y XT) (column_names (hyper self)))
        as [fd|]; [|discriminate].
      destruct (class_loop self XT y (S i) rest) as [[cp' j']|] eqn:El; [|discriminate].
      intros H. injection H as <- <-. destruct (IH _ _ _ El) as [HF HS]. split.
      * constructor; [|now apply Hshift].
        split; [lia|]. now rewrite Nat.sub_diag.
      * constructor; [assumption|].
        clear - HF. induction HF as [|k c j' cp' [Hk _] _ IH']; constructor; [lia | assumption].
Qed.

(** X11.  After a fit that returns, the class profiles are those of the
    labels of the class set that occur in [y], in the order of the class set,
    and [populated_columns_] holds their positions in [classes_], in
    increasing order: [classes_[populated_columns_[k]]] is the label of the
    k-th profile. *)
Theorem populated_columns_index_classes
    (self0 self : MultiGaussNaiveBayesClassifier) (g g' : rng) (X : matrix) (y : list Z) :
  fit self0 g X y = (Returned tt self, g') ->
  exists classes cp j,
    classes_ self = Some classes
    /\ class_properties_ self = Some cp
    /\ populated_columns_ self = Some j
    /\ map fst cp = filter (fun label => existsb (fun l => (l =? label)%Z) y) classes
    /\ Forall2 (fun k c => nth_error classes k = Some (fst c)) j cp
    /\ StronglySorted lt j.
Proof.
  intros H. apply fit_returned in H as (XT & cp & j & KL & _ & _ & Hl & _ & ->).
  eexists. exists cp, j. split; [reflexivity|]. split; [reflexivity|].
  split; [reflexivity|].
  destruct (class_loop_labels _ _ _ _ _ _ _ Hl) as [Hf _].
  destruct (class_loop_positions _ _ _ _ _ _ _ Hl) as [HF HS].
  split; [assumption|]. split; [|assumption].
  eapply Forall2_impl; [|exact HF].
  intros k c [_ Hn]. now rewrite Nat.sub_0_r in Hn.
Qed.

(** What a raising [fit] leaves behind. *)
Lemma fit_raised (self self' : MultiGaussNaiveBayesClassifier) (g g' : rng) (X : matrix)
    (y : list Z) :
  fit self g X y = (Raised self', g') ->
  g' = g
  /\ ((check_X_y X y = None /\ self' = self)
      \/ (check_X_y X y = Some (X, y)
          /\ self' =
               {| hyper := hyper self;
                  islogvar := Some (match islogvar self with
                                    | None => positive_columns X
                                    | Some flags => flags
                                    end);
                  classes_ := Some (match all_labels (hyper self) with
                                    | None => unique_labels y
                                    | Some labels => labels
                                    end);
                  X_ := Some X; y_ := Some y;
                  populated_columns_ := populated_columns_ self;
                  KL_ := KL_ self;
                  class_properties_ := class_properties_ self;
                  nearest_ := nearest_ self; logproba_ := logproba_ self;
                  surprise_ := surprise_ self |})).
Proof.
  unfold fit. destruct (check_X_y X y) as [[X0 y0]|] eqn:Ec.
  2:{ intros H. injection H as <- <-. split; [reflexivity|]. now left. }
  destruct (check_X_y_inv _ _ _ _ Ec) as [-> [-> _]].
  set (classes := match all_labels (hyper self) with
                  | None => unique_labels y | Some labels => labels end).
  set (s1 := set_training self classes X y).
  set (s2 := match islogvar s1 with
             | None => set_islogvar s1 (positive_columns X) | Some _ => s1 end).
  assert (Hs2 : s2 = {| hyper := hyper self;
                        islogvar := Some (match islogvar self with
                                          | None => positive_columns X
                                          | Some flags => flags
                                          end);
                        classes_ := Some classes;
                        X_ := Some X; y_ := Some y;
                        populated_columns_ := populated_columns_ self;
                        KL_ := KL_ self;
                        class_properties_ := class_properties_ self;
                        nearest_ := nearest_ self; logproba_ := logproba_ self;
                        surprise_ := surprise_ self |}).
  { subst s2 s1. unfold set_islogvar, set_training. cbn.
    destruct (islogvar self) eqn:E; cbn; rewrite ?E; reflexivity. }
  destruct (where_islogvar (islogvar s2) X) as [XT|].
  2:{ intros H. injection H as <- <-. split; [reflexivity|]. right. now split. }
  destruct (class_loop s2 XT y 0 classes) as [[cp j]|].
  - destruct (KL_outer _ XT cp cp g). discriminate.
  - intros H. injection H as <- <-. split; [reflexivity|]. right. now split.
Qed.

(** X12.  A [fit] that raises consumes no randomness and keeps the class
    profiles, the KL structure and the populated positions of the instance.
    When the validation of [X] and [y] fails the instance is untouched;
    otherwise the training data, the class set and the transform flags have
    already been overwritten, so the instance then holds new [X_], [y_] and
    [classes_] next to the profiles of the previous fit. *)
Theorem failed_fit_is_partial (self self' : MultiGaussNaiveBayesClassifier) (g g' : rng)
    (X : matrix) (y : list Z) :
  fit self g X y = (Raised self', g') ->
  g' = g
  /\ class_properties_ self' = class_properties_ self
  /\ KL_ self' = KL_ self
  /\ populated_columns_ self' = populated_columns_ self
  /\ (check_X_y X y = None -> self' = self)
  /\ (check_X_y X y <> None ->
      X_ self' = Some X /\ y_ self' = Some y
      /\ classes_ self' = Some (match all_labels (hyper self) with
                                | None => unique_labels y
                                | Some labels => labels
                                end)
      /\ islogvar self' = Some (match islogvar self with
                                | None => positive_columns X
                                | Some flags => flags
                                end)).
Proof.
  intros H. apply fit_raised in H as [-> [[Hc ->] | [Hc ->]]].
  - do 4 (split; [reflexivity|]).
    split; [reflexivity | intros Hn; congruence].
  - do 4 (split; [reflexivity|]).
    split; [intros Hn; congruence | intros _; simpl; auto].
Qed.

(** X13.  [fit] never changes the hyper-parameters, and never changes what
    the last prediction stored ([nearest_], [logproba_], [surprise_]),
    whether it returns or raises: after a refit these still belong to the
    model of before. *)
Theorem fit_keeps_parameters_and_outputs (self : MultiGaussNaiveBayesClassifier) (g : rng)
    (X : matrix) (y : list Z) :
  hyper (instance_of (fst (fit self g X y))) = hyper self
  /\ nearest_ (instance_of (fst (fit self g X y))) = nearest_ self
  /\ logproba_ (instance_of (fst (fit self g X y))) = logproba_ self
  /\ surprise_ (instance_of (fst (fit self g X y))) = surprise_ self.
Proof.
  destruct (fit self g X y) as [[[] s|s] g'] eqn:E; simpl.
  - apply fit_returned in E as (XT & cp & j & KL & _ & _ & _ & _ & ->). auto.
  - apply fit_raised in E as [_ [[_ ->] | [_ ->]]]; auto.
Qed.

(** X14.  Fitting twice on the same data, from the same generator state,
    leaves the fitted state of the first fit: the second fit reuses the
    transform flags that the first one stored, which are those of the same
    data. *)
Theorem refit_same_data_is_idempotent
    (self0 self1 : MultiGaussNaiveBayesClassifier) (g g' : rng) (X : matrix) (y : list Z) :
  islogvar self0 = None ->
  fit self0 g X y = (Returned tt self1, g') ->
  fit self1 g X y = (Returned tt self1, g').
Proof.
  intros H0 Hfit.
  apply fit_returned in Hfit as (XT & cp & j & KL & Hc & Hw & Hl & Hk & Hs).
  assert (Hh : hyper self1 = hyper self0) by now rewrite Hs.
  assert (Hf : islogvar self1 = Some (positive_columns X)).
  { rewrite Hs. simpl. now rewrite H0. }
  rewrite H0 in Hw.
  rewrite (fit_returns self1 g X y XT cp j); try assumption.
  - rewrite (KL_outer_hyper self1 self0), Hk by assumption. simpl.
    assert (Hn : nearest_ self1 = nearest_ self0) by now rewrite Hs.
    assert (Hlp : logproba_ self1 = logproba_ self0) by now rewrite Hs.
    assert (Hsu : surprise_ self1 = surprise_ self0) by now rewrite Hs.
    rewrite Hf, Hh, Hn, Hlp, Hsu. rewrite Hs, H0. reflexivity.
  - now rewrite Hf.
  - rewrite Hh, (class_loop_hyper self1 self0) by assumption. exact Hl.
Qed.

(** ** The KL estimates *)

Section FiniteWeights.

(** Asked for at least one sample, the sampler hands back at least one
    weight, and every weight is a finite non-negative number (a ratio of
    densities). *)
Hypothesis ImportanceSampler_weights :
  forall target proposal N g,
    (0 < N)%nat ->
    fst (ImportanceSampler target proposal N g) <> []
    /\ Forall (fun w => exists r, w = Fin r /\ 0 <= r)
              (fst (ImportanceSampler target proposal N g)).

Lemma KL_estimate_capped (w : list fl) :
  w <> [] ->
  Forall (fun v => exists r, v = Fin r /\ 0 <= r) w ->
  exists k,
    fl_opp (fl_mean (map (fun v => fl_log (fl_add v (Fin 1e-300))) w)) = Fin k
    /\ k <= - ln 1e-300.
Proof.
  intros Hne Hw.
  assert (Heps : 0 < 1e-300) by lra.
  set (eps := 1e-300) in *. clearbody eps.
  assert (Hsum : exists s, fl_sum (map (fun v => fl_log (fl_add v (Fin eps))) w) = Fin s
                           /\ INR (length w) * ln eps <= s).
  { rewrite <- (length_map (fun v => fl_log (fl_add v (Fin eps))) w).
    apply fl_sum_lower. apply Forall_forall. intros v Hv.
    apply in_map_iff in Hv as [u [<- Hu]].
    rewrite Forall_forall in Hw. destruct (Hw u Hu) as [r [-> Hr]].
    simpl. rewrite Rltb_true by lra. eexists. split; [reflexivity|].
    destruct (Req_dec r 0) as [-> | Hn].
    - rewrite Rplus_0_l. lra.
    - left. apply ln_increasing; lra. }
  destruct Hsum as [s [Es Hs]].
  assert (Hn : 0 < INR (length w)).
  { apply lt_0_INR. destruct w; [congruence | simpl; lia]. }
  unfold fl_mean. rewrite length_map, Es. simpl.
  rewrite Reqb_false by lra. simpl.
  eexists. split; [reflexivity|].
  assert (ln eps <= s / INR (length w)).
  { apply (Rmult_le_reg_r (INR (length w))); [assumption|].
    unfold Rdiv. rewrite Rmult_assoc, Rinv_l by lra. lra. }
  lra.
Qed.

Lemma information_loop_capped
    (pairs : list (option MixtureDensity * option MixtureDensity)) (g : rng) :
  Forall (fun v => exists k, v = Fin k /\ k <= - ln 1e-300)
         (fst (information_loop pairs g)).
Proof using ImportanceSampler_weights.
  revert g. induction pairs as [|[[m1|] [m2|]] rest IH]; intros g; simpl;
    try apply IH; try constructor.
  destruct (ImportanceSampler_weights m2 m1 2000 g ltac:(lia)) as [Hne Hw].
  destruct (ImportanceSampler m2 m1 2000 g) as [w g1]. simpl in Hne, Hw.
  specialize (IH g1). destruct (information_loop rest g1) as [v g2]. simpl in *.
  constructor; [|assumption]. now apply KL_estimate_capped.
Qed.

Lemma KL_inner_capped (self : MultiGaussNaiveBayesClassifier) (XT : matrix) (l1 : Z)
    (fd1 : fdists) (cp : list (Z * fdists)) (g : rng) :
  Forall (Forall (fun v => exists k, v = Fin k /\ k <= - ln 1e-300))
         (fst (KL_inner self XT l1 fd1 cp g)).
Proof using ImportanceSampler_weights.
  revert g. induction cp as [|[l2 fd2] rest IH]; intros g; simpl; [constructor|].
  destruct (l2 <=? l1)%Z; [apply IH|].
  pose proof (information_loop_capped
                (firstn (match column_names (hyper self) with
                         | None => ncols XT
                         | Some names => length names
                         end) (combine fd1 fd2)) g) as Hi.
  unfold _evaluate_information_single.
  destruct (information_loop _ g) as [KL12 g1]. simpl in Hi.
  specialize (IH g1). destruct (KL_inner self XT l1 fd1 rest g1) as [v g2]. simpl in *.
  constructor; assumption.
Qed.

Lemma KL_outer_capped (self : MultiGaussNaiveBayesClassifier) (XT : matrix)
    (todo cp : list (Z * fdists)) (g : rng) :
  Forall (Forall (Forall (fun v => exists k, v = Fin k /\ k <= - ln 1e-300)))
         (fst (KL_outer self XT todo cp g)).
Proof using ImportanceSampler_weights.
  revert g. induction todo as [|[l1 fd1] rest IH]; intros g; simpl; [constructor|].
  pose proof (KL_inner_capped self XT l1 fd1 cp g) as Hi.
  destruct (KL_inner self XT l1 fd1 cp g) as [v g1]. simpl in Hi.
  specialize (IH g1). destruct (KL_outer self XT rest cp g1) as [KL g2]. simpl in *.
  constructor; assumption.
Qed.

(** X15.  When the sampler returns weights that are finite and not
    negative, and at least one of them, every divergence estimate that a fit
    stores is a finite number, and it is at most -log(1e-300) (about 691
    nats): the floor added to the weights keeps the logarithm away from
    minus infinity. *)
Theorem KL_estimates_finite_and_capped
    (self0 self : MultiGaussNaiveBayesClassifier) (g g' : rng) (X : matrix) (y : list Z) :
  fit self0 g X y = (Returned tt self, g') ->
  exists KL,
    KL_ self = Some KL
    /\ Forall (Forall (Forall (fun v => exists k, v = Fin k /\ k <= - ln 1e-300))) KL.
Proof using ImportanceSampler_weights.
  intros H. apply fit_returned in H as (XT & cp & j & KL & _ & _ & _ & Hk & ->).
  exists KL. split; [reflexivity|].
  replace KL with (fst (KL_outer self0 XT cp cp g)) by now rewrite Hk.
  apply KL_outer_capped.
Qed.

End FiniteWeights.

(** ** The transform of the training data *)

Lemma where_log10_keeps_finite (flag : bool) (v : fl) :
  (flag = true -> fl_le v (Fin 0) = false) ->
  isfinite (where_log10 flag v) = isfinite v
  /\ (isnan v = true -> where_log10 flag v = NaN)
  /\ (flag = false -> where_log10 flag v = v).
Proof.
  intros H. destruct flag; simpl.
  - specialize (H eq_refl). destruct v as [a| | |]; simpl in *; try discriminate.
    + apply negb_false_iff in H. rewrite H.
      repeat split; intros; try discriminate; reflexivity.
    + repeat split; intros; try discriminate; reflexivity.
    + repeat split; intros; try discriminate; reflexivity.
  - split; [reflexivity|].
    split; [destruct v; simpl; intros; congruence | reflexivity].
Qed.

Lemma Forall2_map_snd {A B C : Type} (P : B -> C -> Prop) (h : A * B -> C)
    (l : list (A * B)) :
  (forall p, In p l -> P (snd p) (h p)) -> Forall2 P (map snd l) (map h l).
Proof.
  induction l as [|p l IH]; intros H; simpl; constructor.
  - apply H. now left.
  - apply IH. intros q Hq. apply H. now right.
Qed.

Lemma combine_map_snd {A B : Type} (l : list A) (l' : list B) :
  (length l' <= length l)%nat -> map snd (combine l l') = l'.
Proof.
  revert l'. induction l as [|a l IH]; intros [|b l'] H; simpl in *; try reflexivity;
    try lia.
  f_equal. apply IH. lia.
Qed.

Lemma Forall2_map_r {A B : Type} (P : A -> B -> Prop) (f : A -> B) (l : list A) :
  (forall a, In a l -> P a (f a)) -> Forall2 P l (map f l).
Proof.
  induction l as [|a l IH]; intros H; simpl; constructor.
  - apply H. now left.
  - apply IH. intros b Hb. apply H. now right.
Qed.

(** A flag that is set means that no value of its column is at most zero. *)
Lemma positive_column_flag (X : matrix) (row : list fl) (flag : bool) (v : fl) :
  In row X -> length row = ncols X ->
  In (flag, v) (combine (positive_columns X) row) ->
  flag = true -> fl_le v (Fin 0) = false.
Proof.
  intros Hrow Hlen Hin Hflag.
  destruct (In_nth _ _ (false, NaN) Hin) as [c [Hc Hnth]].
  rewrite length_combine, positive_columns_length, Hlen, Nat.min_id in Hc.
  rewrite combine_nth in Hnth by (rewrite positive_columns_length; lia).
  injection Hnth as Hf Hv.
  unfold positive_columns, transpose in Hf. rewrite map_map in Hf.
  rewrite (nth_indep _ false ((fun i => negb (existsb (fun v => fl_le v (Fin 0))
                                                      (column i X))) 0%nat)) in Hf
    by (rewrite length_map, length_seq; lia).
  rewrite (map_nth (fun i => negb (existsb (fun v => fl_le v (Fin 0)) (column i X)))) in Hf.
  rewrite seq_nth in Hf by lia. simpl in Hf.
  rewrite Hflag in Hf. apply negb_true_iff in Hf.
  destruct (fl_le v (Fin 0)) eqn:E; [|reflexivity].
  exfalso. assert (Hex : existsb (fun v => fl_le v (Fin 0)) (column c X) = true).
  { apply existsb_exists. exists v. split; [|assumption].
    unfold column. apply in_map_iff. exists row. split; [|assumption].
    rewrite <- Hv. apply nth_indep. lia. }
  congruence.
Qed.

(** X16.  On a first fit, the transform of the training matrix exists and
    changes no entry into a missing one: each entry of [XT] is finite
    exactly when the entry of [X] is, a NaN stays a NaN, and the entries of
    a column that has a value at most zero are unchanged.  (The logarithm is
    taken only in columns all of whose comparable values are positive.) *)
Theorem training_transform_keeps_finite (X : matrix) :
  check_array X = Some X ->
  exists XT,
    where_islogvar (Some (positive_columns X)) X = Some XT
    /\ Forall2 (Forall2 (fun v w => isfinite w = isfinite v
                                    /\ (isnan v = true -> w = NaN)))
               X XT
    /\ Forall2 (fun row row' =>
                  Forall2 (fun fw w => fst fw = false -> w = snd fw)
                          (combine (positive_columns X) row) row')
               X XT.
Proof.
  intros Hc. apply check_array_inv in Hc as (_ & Hne & _ & Hrect & _).
  exists (map (fun row => map (fun p => where_log10 (fst p) (snd p))
                              (combine (positive_columns X) row)) X).
  split; [|split].
  - simpl. apply sequence_map_Some. intros row Hrow. unfold where_row.
    now rewrite positive_columns_length, (Hrect row Hrow), Nat.eqb_refl.
  - apply Forall2_map_r. intros row Hrow.
    rewrite <- (combine_map_snd (positive_columns X) row) at 1
      by (rewrite positive_columns_length, (Hrect row Hrow); lia).
    apply Forall2_map_snd. intros [flag v] Hin. simpl.
    destruct (where_log10_keeps_finite flag v) as (H1 & H2 & _).
    + apply (positive_column_flag X row); auto.
    + auto.
  - apply Forall2_map_r. intros row Hrow.
    apply Forall2_map_r. intros [flag v] Hin. simpl. intros ->. reflexivity.
Qed.

(** ** Fits that take the labels from [y] *)

Lemma insert_label_complete (l : Z) (ls : list Z) (a : Z) :
  a = l \/ In a ls -> In a (insert_label l ls).
Proof.
  clear. induction ls as [|h t IH]; simpl.
  - intros [H|[]]; auto.
  - destruct (l <? h)%Z eqn:E1; [simpl; intuition|].
    destruct (l =? h)%Z eqn:E2.
    + apply Z.eqb_eq in E2. subst. simpl. intuition.
    + simpl. intros [H|[H|H]]; auto.
Qed.

Lemma unique_labels_complete (a : Z) (y : list Z) : In a y -> In a (unique_labels y).
Proof.
  induction y as [|l y IH]; simpl; [auto|].
  intros [H|H]; apply insert_label_complete; auto.
Qed.

Lemma insert_label_sorted (l : Z) (ls : list Z) :
  StronglySorted Z.lt ls -> StronglySorted Z.lt (insert_label l ls).
Proof.
  induction 1 as [|h t Ht IH Hh]; simpl.
  - constructor; constructor.
  - destruct (l <? h)%Z eqn:E1.
    + apply Z.ltb_lt in E1. constructor; [now constructor|].
      constructor; [assumption|].
      eapply Forall_impl; [|exact Hh]. intros a Ha. simpl in Ha. lia.
    + destruct (l =? h)%Z eqn:E2; [now constructor|].
      apply Z.ltb_ge in E1. apply Z.eqb_neq in E2.
      constructor; [assumption|].
      apply Forall_forall. intros a Ha. apply insert_label_in in Ha as [->|Ha]; [lia|].
      rewrite Forall_forall in Hh. now apply Hh.
Qed.

Lemma unique_labels_sorted (y : list Z) : StronglySorted Z.lt (unique_labels y).
Proof.
  induction y as [|l y IH]; simpl; [constructor | now apply insert_label_sorted].
Qed.

Lemma class_loop_all_populated (self : MultiGaussNaiveBayesClassifier) (XT : matrix)
    (y : list Z) (i : nat) (classes : list Z) (cp : list (Z * fdists)) (j : list nat) :
  (forall label, In label classes -> In label y) ->
  class_loop self XT y i classes = Some (cp, j) ->
  map fst cp = classes /\ j = seq i (length classes).
Proof.
  revert i cp j. induction classes as [|label rest IH]; intros i cp j Hall; simpl.
  - intros H. injection H as <- <-. auto.
  - replace (existsb (fun l => (l =? label)%Z) y) with true.
    2:{ symmetry. apply existsb_exists. exists label.
        split; [apply Hall; now left | apply Z.eqb_refl]. }
    simpl.
    destruct (_make_mixture self (rows_of_class label y XT) (column_names (hyper self)))
      as [fd|]; [|discriminate].
    destruct (class_loop self XT y (S i) rest) as [[cp' j']|] eqn:El; [|discriminate].
    intros H. injection H as <- <-.
    destruct (IH _ _ _ (fun l Hl => Hall l (or_intror Hl)) El) as [H1 H2].
    simpl. split; congruence.
Qed.

Lemma KL_inner_count (self : MultiGaussNaiveBayesClassifier) (XT : matrix) (l1 : Z)
    (fd1 : fdists) (cp : list (Z * fdists)) (g : rng) :
  length (fst (KL_inner self XT l1 fd1 cp g))
  = length (filter (fun l2 => (l1 <? l2)%Z) (map fst cp)).
Proof.
  revert g. induction cp as [|[l2 fd2] rest IH]; intros g; simpl; [reflexivity|].
  rewrite Z.leb_antisym. destruct (l1 <? l2)%Z; simpl; [|apply IH].
  destruct (_evaluate_information_single _ XT fd1 fd2 g) as [KL12 g1].
  specialize (IH g1). destruct (KL_inner self XT l1 fd1 rest g1) as [v g2].
  simpl in *. now rewrite IH.
Qed.

Lemma KL_outer_count (self : MultiGaussNaiveBayesClassifier) (XT : matrix)
    (todo cp : list (Z * fdists)) (g : rng) :
  map (@length _) (fst (KL_outer self XT todo cp g))
  = map (fun l1 => length (filter (fun l2 => (l1 <? l2)%Z) (map fst cp))) (map fst todo).
Proof.
  revert g. induction todo as [|[l1 fd1] rest IH]; intros g; simpl; [reflexivity|].
  pose proof (KL_inner_count self XT l1 fd1 cp g) as Hi.
  destruct (KL_inner self XT l1 fd1 cp g) as [v g1]. simpl in Hi.
  specialize (IH g1). destruct (KL_outer self XT rest cp g1) as [KL g2]. simpl in *.
  now rewrite Hi, IH.
Qed.

Lemma sorted_around (pre post : list Z) (a : Z) :
  StronglySorted Z.lt (pre ++ a :: post) ->
  Forall (fun b => (b < a)%Z) pre /\ Forall (fun b => (a < b)%Z) post.
Proof.
  induction pre as [|b pre IH]; simpl; intros HS.
  - inversion HS; subst. split; [constructor | assumption].
  - inversion HS as [|? ? HS' Hb]; subst. destruct (IH HS') as [H1 H2].
    split; [|assumption]. constructor; [|assumption].
    rewrite Forall_forall in Hb. apply Hb, in_or_app. right. now left.
Qed.

(** In an increasing list, the elements above the [i]-th are those after it. *)
Lemma sorted_count_above (pre post : list Z) :
  StronglySorted Z.lt (pre ++ post) ->
  map (fun l1 => length (filter (fun l2 => (l1 <? l2)%Z) (pre ++ post))) post
  = map (fun i => (length post - 1 - i)%nat) (seq 0 (length post)).
Proof.
  revert pre. induction post as [|a post IH]; intros pre HS; [reflexivity|].
  simpl. f_equal.
  - destruct (sorted_around pre post a HS) as [Hpre Hpost].
    rewrite filter_app. simpl. rewrite Z.ltb_irrefl.
    assert (E1 : filter (fun l2 => (a <? l2)%Z) pre = []).
    { clear - Hpre. induction Hpre as [|b pre Hb _ IHp]; [reflexivity|].
      simpl. replace (a <? b)%Z with false by (symmetry; apply Z.ltb_ge; lia).
      assumption. }
    assert (E2 : filter (fun l2 => (a <? l2)%Z) post = post).
    { clear - Hpost. induction Hpost as [|b post Hb _ IHp]; [reflexivity|].
      simpl. replace (a <? b)%Z with true by (symmetry; now apply Z.ltb_lt).
      now rewrite IHp. }
    rewrite E1, E2. simpl. lia.
  - replace (pre ++ a :: post) with ((pre ++ [a]) ++ post) in *
      by (rewrite <- app_assoc; reflexivity).
    rewrite (IH (pre ++ [a]) HS).
    rewrite <- seq_shift, map_map. apply map_ext. intros i. lia.
Qed.

(** X17.  When [all_labels] is not configured, a fit that returns has one
    class profile for every distinct label of [y], in increasing order of
    the labels; [populated_columns_] is 0, 1, ..., k-1; and the KL structure
    is the upper triangle of the class pairs: k rows, of which the i-th has
    k - 1 - i vectors. *)
Theorem fit_without_all_labels
    (self0 self : MultiGaussNaiveBayesClassifier) (g g' : rng) (X : matrix) (y : list Z) :
  all_labels (hyper self0) = None ->
  fit self0 g X y = (Returned tt self, g') ->
  exists classes cp KL,
    classes_ self = Some classes
    /\ class_properties_ self = Some cp
    /\ KL_ self = Some KL
    /\ StronglySorted Z.lt classes
    /\ (forall label, In label classes <-> In label y)
    /\ map fst cp = classes
    /\ populated_columns_ self = Some (seq 0 (length classes))
    /\ map (@length _) KL
       = map (fun i => (length classes - 1 - i)%nat) (seq 0 (length classes)).
Proof.
  intros Hnone H. apply fit_returned in H as (XT & cp & j & KL & _ & _ & Hl & Hk & ->).
  rewrite Hnone in *.
  destruct (class_loop_all_populated _ _ _ _ _ _ _ (fun l => unique_labels_in l y) Hl)
    as [Hcp ->].
  exists (unique_labels y), cp, KL.
  split; [reflexivity|]. split; [reflexivity|]. split; [reflexivity|].
  split; [apply unique_labels_sorted|].
  split; [intros label; split; [apply unique_labels_in | apply unique_labels_complete]|].
  split; [assumption|]. split; [reflexivity|].
  replace KL with (fst (KL_outer self0 XT cp cp g)) by now rewrite Hk.
  rewrite KL_outer_count, Hcp.
  apply (sorted_count_above [] (unique_labels y)). apply unique_labels_sorted.
Qed.

(** ** Prediction works row by row *)

Lemma nth_const_map {A B : Type} (c : B) (l : list A) (r : nat) :
  nth r (map (fun _ => c) l) c = c.
Proof. revert r. induction l as [|a l IH]; intros [|r]; simpl; auto. Qed.

Lemma logprob_column_single (mix : option MixtureDensity) (xcol col : list fl) (r : nat) :
  logprob_column mix xcol = Some col -> (r < length xcol)%nat ->
  logprob_column mix [nth r xcol NaN] = Some [nth r col NaN].
Proof.
  intros H Hr. destruct mix as [m|]; simpl in *.
  - destruct (_ =? _)%nat; [|discriminate].
    apply sequence_Some in H.
    apply (f_equal (fun l => nth_error l r)) in H.
    rewrite !nth_error_map, (nth_error_nth' xcol NaN Hr) in H. simpl in H.
    destruct (nth_error col r) as [v|] eqn:Ev; [|discriminate]. simpl in H.
    injection H as H. rewrite H. now rewrite (nth_error_nth _ _ _ Ev).
  - injection H as <-.
    rewrite (nth_indep _ NaN (Fin 0)) by now rewrite length_map.
    now rewrite nth_const_map.
Qed.

Lemma sequence_pointwise {A B : Type} (f f' : A -> option B) (h : B -> B)
    (l : list A) (r : list B) :
  (forall a b, In a l -> f a = Some b -> f' a = Some (h b)) ->
  sequence (map f l) = Some r -> sequence (map f' l) = Some (map h r).
Proof.
  revert r. induction l as [|a l IH]; intros r Hf H; simpl in *.
  - injection H as <-. reflexivity.
  - destruct (f a) as [b|] eqn:Ea; [|discriminate].
    destruct (sequence (map f l)) as [r'|] eqn:El; [|discriminate].
    injection H as <-.
    rewrite (Hf a b (or_introl eq_refl) Ea), (IH r' (fun a0 b0 Hin => Hf a0 b0 (or_intror Hin)) eq_refl).
    reflexivity.
Qed.

(** The score of a row is the score of the batch that holds this row only. *)
Lemma evaluate_single_row (self : MultiGaussNaiveBayesClassifier) (fd : fdists)
    (x : matrix) (logprior : fl) (scores : list fl) (r : nat) (row : list fl) :
  _evaluate_feature_dist self fd x logprior = Some scores ->
  nth_error x r = Some row -> length row = ncols x ->
  _evaluate_feature_dist self fd [row] logprior = Some [nth r scores NaN].
Proof.
  intros H Hrow Hlen. unfold _evaluate_feature_dist in *.
  simpl ncols. rewrite Hlen.
  destruct (length fd =? ncols x)%nat; [|discriminate].
  destruct (sequence _) as [logprob|] eqn:Es; [|discriminate].
  injection H as <-.
  assert (Hr : (r < length x)%nat) by (apply nth_error_Some; congruence).
  rewrite (sequence_pointwise _ _ (fun col => [nth r col NaN]) _ logprob) with (2 := Es).
  2:{ intros [i mix] col _ Hcol. simpl in *.
      replace [nth i row NaN] with [nth r (column i x) NaN]
        by (f_equal; now apply column_nth).
      apply logprob_column_single; [assumption|].
      unfold column. now rewrite length_map. }
  simpl. f_equal. f_equal.
  rewrite (nth_indep _ NaN ((fun r0 => fl_add (fl_sum (map (fun c => nth r0 c (Fin 0))
             (map (map (floor_minprob (minprob (hyper self))))
                  (map (map zero_missing) logprob)))) logprior) 0%nat))
    by now rewrite length_map, length_seq.
  rewrite (map_nth (fun r0 => fl_add (fl_sum (map (fun c => nth r0 c (Fin 0))
             (map (map (floor_minprob (minprob (hyper self))))
                  (map (map zero_missing) logprob)))) logprior)).
  rewrite seq_nth by assumption. simpl. f_equal. f_equal.
  rewrite !map_map. apply map_ext_in. intros col Hcol.
  destruct (sequence_in _ _ _ _ Es Hcol) as [[i mix] [_ Hi]]. simpl in Hi.
  apply logprob_column_length in Hi. unfold column in Hi. rewrite length_map in Hi.
  simpl.
  rewrite (nth_indep _ (Fin 0) (floor_minprob (minprob (hyper self)) (zero_missing NaN)))
    by (rewrite !length_map; lia).
  rewrite (map_nth (floor_minprob (minprob (hyper self)))), (map_nth zero_missing).
  reflexivity.
Qed.

Lemma _predict_data (self s : MultiGaussNaiveBayesClassifier) (X : matrix) :
  _predict self X = Returned tt s ->
  exists X0 y0, X_ self = Some X0 /\ y_ self = Some y0.
Proof.
  unfold _predict. destruct (X_ self); [|discriminate].
  destruct (y_ self); [|discriminate]. eauto.
Qed.

Lemma sequence_map_nth {A B : Type} (f : A -> option B) (l : list A) (res : list B)
    (r : nat) (a : A) (d : B) :
  sequence (map f l) = Some res -> nth_error l r = Some a -> f a = Some (nth r res d).
Proof.
  intros H Ha. apply sequence_Some in H.
  apply (f_equal (fun l => nth_error l r)) in H.
  rewrite !nth_error_map, Ha in H. simpl in H.
  destruct (nth_error res r) as [b|] eqn:E; [|discriminate]. simpl in H.
  injection H as H. rewrite H. now rewrite (nth_error_nth _ _ _ E).
Qed.

Lemma nth_error_seq0 (n r : nat) : (r < n)%nat -> nth_error (seq 0 n) r = Some r.
Proof.
  intros H. rewrite (nth_error_nth' _ 0%nat) by now rewrite length_seq.
  now rewrite seq_nth.
Qed.

Lemma nth_map_combine {A B C : Type} (h : A * B -> C) (la : list A) (lb : list B)
    (r : nat) (da : A) (db : B) (dc : C) :
  (r < length la)%nat -> (r < length lb)%nat ->
  nth r (map h (combine la lb)) dc = h (nth r la da, nth r lb db).
Proof.
  revert lb r. induction la as [|a la IH]; intros [|b lb] [|r] Ha Hb; simpl in *;
    try lia; [reflexivity|]. apply IH; lia.
Qed.

(** What a prediction stores for the row [r] of a batch is what the prediction
    on the batch of this row alone stores. *)
Lemma _predict_single_row (self s : MultiGaussNaiveBayesClassifier) (X : matrix)
    (r : nat) (row : list fl) :
  _predict self X = Returned tt s ->
  nth_error X r = Some row ->
  exists nearest logproba surprise,
    nearest_ s = Some nearest /\ logproba_ s = Some logproba /\ surprise_ s = Some surprise
    /\ (r < length nearest)%nat /\ (r < length logproba)%nat /\ (r < length surprise)%nat
    /\ _predict self [row]
       = Returned tt (set_prediction self [nth r nearest 0%nat] [nth r logproba []]
                        [nth r surprise NaN]).
Proof.
  intros H Hrow.
  destruct (_predict_data _ _ _ H) as (X0 & y0 & HX0 & Hy0).
  apply _predict_returned in H
    as (classes & cp & XT & cols & lse & nearest & Hc & Hcl & Hcp & Hw & Hs & Hl & Ha & ->).
  simpl. do 3 eexists. split; [reflexivity|]. split; [reflexivity|]. split; [reflexivity|].
  assert (Hr : (r < length X)%nat) by (apply nth_error_Some; congruence).
  assert (Hlse : length lse = length X)
    by (apply sequence_length in Hl; now rewrite Hl, !length_map, length_seq).
  assert (Hnr : length nearest = length X)
    by (apply sequence_length in Ha; now rewrite Ha, !length_map, length_seq).
  split; [lia|].
  split; [rewrite length_map, length_combine, length_map, length_seq; lia|].
  split; [lia|].
  apply check_array_inv in Hc as Hc'. destruct Hc' as (_ & Hne & Hpos & Hrect & Hinf).
  assert (Hin : In row X) by (eapply nth_error_In; eassumption).
  assert (Hc1 : check_array [row] = Some [row]).
  { unfold check_array.
    assert (E1 : (0 <? length row)%nat = true)
      by (apply Nat.ltb_lt; rewrite (Hrect row Hin); assumption).
    assert (E2 : forallb (fun v => negb (isinf v)) row = true).
    { apply forallb_forall. intros v Hv. apply negb_true_iff. now apply (Hinf row). }
    simpl. now rewrite E1, Nat.eqb_refl, E2. }
  assert (HXT : exists XTr, nth_error XT r = Some XTr
                            /\ where_islogvar (islogvar self) [row] = Some [XTr]
                            /\ length XTr = ncols XT).
  { destruct (islogvar self) as [flags|]; simpl in Hw |- *.
    - destruct (where_islogvar_rect flags X XT (ncols X) Hrect Hw) as [HlenT [d Hd]].
      apply sequence_Some in Hw.
      apply (f_equal (fun l => nth_error l r)) in Hw.
      rewrite !nth_error_map, Hrow in Hw. simpl in Hw.
      destruct (nth_error XT r) as [XTr|] eqn:E; [|discriminate]. simpl in Hw.
      injection Hw as Hw.
      exists XTr. split; [reflexivity|]. rewrite Hw. split; [reflexivity|].
      assert (HinT : In XTr XT) by (eapply nth_error_In; eassumption).
      rewrite (ncols_rect XT d); [now apply Hd | | assumption].
      destruct XT; [contradiction | discriminate].
    - injection Hw as <-. exists row. split; [assumption|]. split; [reflexivity|].
      now apply Hrect. }
  destruct HXT as (XTr & HXTr & Hw1 & HlenXTr).
  assert (Hs1 : sequence (map (fun p => _evaluate_feature_dist self (snd p) [XTr]
                                          (logprior_of classes)) cp)
                = Some (map (fun col => [nth r col NaN]) cols)).
  { apply (sequence_pointwise _ _ (fun col => [nth r col NaN])) with (2 := Hs).
    intros p col _ Hp. now apply (evaluate_single_row self (snd p) XT). }
  assert (Hnth : nth_error (map (fun r0 => map (fun c => nth r0 c NaN) cols)
                                (seq 0 (length X))) r
                 = Some (map (fun c => nth r c NaN) cols))
    by now rewrite nth_error_map, nth_error_seq0.
  pose proof (sequence_map_nth _ _ _ r _ NaN Hl Hnth) as Hl1.
  pose proof (sequence_map_nth _ _ _ r _ 0%nat Ha Hnth) as Ha1.
  unfold _predict. rewrite HX0, Hy0, Hc1, Hcl, Hcp, Hw1, Hs1.
  cbn [length seq map]. rewrite map_map. cbn [nth].
  cbn [sequence]. rewrite Hl1, Ha1. cbn [combine map fst snd].
  do 2 f_equal.
  rewrite (nth_map_combine _ _ _ r [] NaN) by (rewrite ?length_map, ?length_seq; lia).
  cbn [fst snd].
  rewrite (nth_indep _ [] ((fun r0 => map (fun c => nth r0 c NaN) cols) 0%nat))
    by (rewrite length_map, length_seq; lia).
  rewrite (map_nth (fun r0 => map (fun c => nth r0 c NaN) cols)), seq_nth by assumption.
  reflexivity.
Qed.

(** The three prediction methods return whenever [_predict] does. *)
Lemma predict_all_return (self s : MultiGaussNaiveBayesClassifier) (X : matrix) :
  _predict self X = Returned tt s ->
  exists nearest logproba,
    predict self X = Returned nearest s
    /\ predict_log_proba self X = Returned logproba s
    /\ predict_proba self X = Returned (map (map fl_exp) logproba) s.
Proof.
  intros H. unfold predict, predict_log_proba, predict_proba. rewrite H.
  apply _predict_returned in H
    as (c & cp & XT & cols & lse & nr & _ & _ & _ & _ & _ & _ & _ & ->).
  simpl. eauto.
Qed.

(** X18.  Prediction works row by row: when [predict] returns on a batch,
    the three prediction methods return on the batch that holds one of its
    rows alone, and give there the entry that they give for this row in the
    whole batch; the other rows of a batch have no influence on it. *)
Theorem prediction_is_row_by_row (self s : MultiGaussNaiveBayesClassifier) (X : matrix)
    (nearest : list nat) (r : nat) (row : list fl) :
  predict self X = Returned nearest s ->
  nth_error X r = Some row ->
  exists logproba s1,
    predict_log_proba self X = Returned logproba s
    /\ predict_proba self X = Returned (map (map fl_exp) logproba) s
    /\ (r < length nearest)%nat /\ (r < length logproba)%nat
    /\ predict self [row] = Returned [nth r nearest 0%nat] s1
    /\ predict_log_proba self [row] = Returned [nth r logproba []] s1
    /\ predict_proba self [row] = Returned [map fl_exp (nth r logproba [])] s1.
Proof.
  unfold predict, predict_log_proba, predict_proba. intros H Hrow.
  destruct (_predict self X) as [[] s'|s'] eqn:E; [|discriminate].
  destruct (_predict_single_row self s' X r row E Hrow)
    as (nr & lp & su & Hnr & Hlp & Hsu & Hr1 & Hr2 & _ & E1).
  rewrite Hnr in H. injection H as <- <-.
  rewrite Hlp, E1. simpl.
  exists lp. eexists. repeat split; assumption.
Qed.

(** ** A prediction does not depend on an earlier one *)

Lemma _predict_set_prediction (self : MultiGaussNaiveBayesClassifier)
    (n : list nat) (lp : matrix) (su : list fl) (X : matrix) :
  _predict (set_prediction self n lp su) X
  = match _predict self X with
    | Returned v t => Returned v t
    | Raised _ => Raised (set_prediction self n lp su)
    end.
Proof.
  unfold _predict, _evaluate_feature_dist. simpl.
  repeat match goal with
         | |- context [match ?t with _ => _ end] => destruct t
         end; reflexivity.
Qed.

(** X20.  What an earlier prediction stored has no influence on a later
    one: on the instance that a prediction leaves, each prediction method
    returns on a batch what it returns on the instance of before, and leaves
    the same instance; it raises when it raised before.  In particular a
    repeated prediction on the same batch changes nothing. *)
Theorem prediction_ignores_earlier_outputs (self s : MultiGaussNaiveBayesClassifier)
    (X X' : matrix) (nearest : list nat) :
  predict self X = Returned nearest s ->
  predict s X = Returned nearest s
  /\ (forall nearest' s', predict self X' = Returned nearest' s' ->
                          predict s X' = Returned nearest' s')
  /\ (forall P s', predict_proba self X' = Returned P s' ->
                   predict_proba s X' = Returned P s')
  /\ (forall LP s', predict_log_proba self X' = Returned LP s' ->
                    predict_log_proba s X' = Returned LP s')
  /\ (forall s', predict self X' = Raised s' -> predict s X' = Raised s).
Proof.
  intros H.
  assert (Hs : exists n lp su, s = set_prediction self n lp su).
  { unfold predict in H. destruct (_predict self X) as [[] t|t] eqn:E; [|discriminate].
    apply _predict_returned in E
      as (c & cp & XT & cols & lse & nr & _ & _ & _ & _ & _ & _ & _ & ->).
    simpl in H. injection H as _ <-. eauto. }
  destruct Hs as (n & lp & su & Hs).
  assert (Hgen : forall Y, _predict s Y = match _predict self Y with
                                          | Returned v t => Returned v t
                                          | Raised _ => Raised s
                                          end).
  { intros Y. rewrite Hs. apply _predict_set_prediction. }
  split; [|split; [|split; [|split]]].
  - revert H. unfold predict. rewrite Hgen.
    destruct (_predict self X) as [[] t|t]; [|discriminate]. auto.
  - intros n' s'. unfold predict. rewrite Hgen.
    destruct (_predict self X') as [[] t|t]; [|discriminate]. auto.
  - intros P s'. unfold predict_proba. rewrite Hgen.
    destruct (_predict self X') as [[] t|t]; [|discriminate]. auto.
  - intros LP s'. unfold predict_log_proba. rewrite Hgen.
    destruct (_predict self X') as [[] t|t]; [|discriminate]. auto.
  - intros s'. unfold predict. rewrite Hgen.
    destruct (_predict self X') as [[] t|t] eqn:E; [|reflexivity].
    destruct (_predict_stores _ _ _ E) as (Hn & _).
    destruct (nearest_ t); [discriminate | congruence].
Qed.

(** ** A row without any value *)

Lemma map_const_repeat {A B : Type} (c : B) (l : list A) :
  map (fun _ => c) l = repeat c (length l).
Proof. induction l as [|a l IH]; simpl; [reflexivity | now rewrite IH]. Qed.

Lemma where_row_nan (flags : list bool) (row row' : list fl) :
  Forall (fun v => v = NaN) row ->
  where_row flags row = Some row' ->
  Forall (fun v => isfinite v = false) row'.
Proof.
  intros Hnan. rewrite Forall_forall in Hnan.
  assert (Hlog : forall f v, In v row -> isfinite (where_log10 f v) = false).
  { intros f v Hv. rewrite (Hnan v Hv). now destruct f. }
  unfold where_row.
  destruct (_ =? _)%nat.
  - intros H. injection H as <-. apply Forall_forall. intros w Hw.
    apply in_map_iff in Hw as [[f v] [<- Hin]]. apply in_combine_r in Hin. now apply Hlog.
  - destruct (_ =? _)%nat.
    + intros H. injection H as <-. apply Forall_forall. intros w Hw.
      apply in_map_iff in Hw as [v [<- Hin]]. now apply Hlog.
    + destruct (_ =? _)%nat; [|discriminate].
      intros H. injection H as <-. apply Forall_forall. intros w Hw.
      apply in_map_iff in Hw as [f [<- _]].
      destruct row as [|v row]; [now destruct f|]. apply Hlog. now left.
Qed.

(** The score of a row without any finite value is the log-prior. *)
Lemma missing_row_score (self : MultiGaussNaiveBayesClassifier) (fd : fdists)
    (x : matrix) (logprior : fl) (scores : list fl) (r : nat) (row : list fl) :
  minprob (hyper self) <= 1 ->
  _evaluate_feature_dist self fd x logprior = Some scores ->
  nth_error x r = Some row ->
  Forall (fun v => isfinite v = false) row ->
  nth r scores NaN = logprior.
Proof.
  intros Hmp H Hrow Hmiss. unfold _evaluate_feature_dist in H.
  destruct (_ =? _)%nat; [|discriminate].
  destruct (sequence _) as [logprob|] eqn:E; [|discriminate].
  injection H as <-.
  assert (Hr : (r < length x)%nat) by (apply nth_error_Some; congruence).
  apply nth_error_nth.
  rewrite nth_error_map, (nth_error_nth' _ 0%nat) by (now rewrite length_seq).
  rewrite seq_nth by assumption. simpl. f_equal.
  rewrite fl_sum_zeros; [apply fl_add_0_l|].
  apply Forall_forall. intros v Hv.
  apply in_map_iff in Hv as [c [<- Hc]].
  apply in_map_iff in Hc as [c1 [<- Hc1]].
  apply in_map_iff in Hc1 as [col [<- Hcol]].
  destruct (sequence_in _ _ _ _ E Hcol) as [[i mix] [_ Hf]]. simpl in Hf.
  apply (cleaned_entry_missing _ mix (column i x)); [assumption | assumption |].
  rewrite (column_nth i r x row Hrow). now apply missing_entry.
Qed.

Lemma fold_fl_max_const (p : R) (n : nat) :
  fold_left fl_max (repeat (Fin p) n) (Fin p) = Fin p.
Proof.
  induction n as [|n IH]; simpl; [reflexivity|].
  unfold fl_max at 2. simpl. now destruct (Rltb p p).
Qed.

Lemma fl_sum_const (e : R) (n : nat) : fl_sum (repeat (Fin e) n) = Fin (INR n * e).
Proof.
  induction n as [|n IH].
  - simpl. f_equal. lra.
  - change (fl_sum (repeat (Fin e) (S n))) with (fl_add (Fin e) (fl_sum (repeat (Fin e) n))).
    rewrite IH, S_INR. simpl. f_equal. lra.
Qed.

(** The log-sum-exp of [k] equal scores is the score plus [log k]. *)
Lemma logsumexp_const (p : R) (k : nat) :
  (1 <= k)%nat ->
  logsumexp (repeat (Fin p) k) = Some (Fin (ln (INR k) + p)).
Proof.
  intros Hk. destruct k as [|k]; [lia|].
  unfold logsumexp. change (repeat (Fin p) (S k)) with (Fin p :: repeat (Fin p) k) at 1.
  unfold amax. rewrite fold_fl_max_const. cbv beta iota zeta. simpl isfinite. cbv iota.
  rewrite map_repeat. simpl fl_exp.
  replace (p + - p) with 0 by lra. rewrite exp_0, fl_sum_const, Rmult_1_r.
  unfold fl_log. rewrite Rltb_true by (apply lt_0_INR; lia). reflexivity.
Qed.

Lemma argmax_from_const (p : R) (besti i n : nat) :
  argmax_from (Fin p) besti i (repeat (Fin p) n) = besti.
Proof.
  revert i. induction n as [|n IH]; intros i; simpl; [reflexivity|].
  rewrite Rltb_false by lra. apply IH.
Qed.

Lemma argmax_const (p : R) (k : nat) :
  (1 <= k)%nat -> argmax (repeat (Fin p) k) = Some 0%nat.
Proof.
  intros Hk. destruct k as [|k]; [lia|]. simpl. now rewrite argmax_from_const.
Qed.

(** X21.  A row that holds no value, only NaN, gives no evidence: after a
    fit, [predict_proba] returns for it the uniform distribution 1/k over the
    k class profiles, and [predict] returns the position 0, the first profile
    ([minprob] at most one, as the constructor's 1e-5). *)
Theorem row_without_values_is_uniform
    (self0 self s1 s2 : MultiGaussNaiveBayesClassifier) (g g' : rng)
    (X X' : matrix) (y : list Z) (nearest : list nat) (P : matrix)
    (r : nat) (row : list fl) :
  minprob (hyper self0) <= 1 ->
  fit self0 g X y = (Returned tt self, g') ->
  predict self X' = Returned nearest s1 ->
  predict_proba self X' = Returned P s2 ->
  nth_error X' r = Some row ->
  Forall (fun v => v = NaN) row ->
  exists cp,
    class_properties_ self = Some cp
    /\ nth_error nearest r = Some 0%nat
    /\ nth_error P r = Some (repeat (Fin (1 / INR (length cp))) (length cp)).
Proof.
  intros Hmp Hfit Hp Hpp Hrow Hnan.
  assert (Hh : hyper self = hyper self0).
  { apply fit_returned in Hfit as (XT & cp & j & KL & _ & _ & _ & _ & ->). reflexivity. }
  unfold predict in Hp. unfold predict_proba in Hpp.
  destruct (_predict self X') as [[] s|s] eqn:E; [|discriminate].
  pose proof E as E'.
  apply _predict_returned in E'
    as (classes & cp & XT & cols & lse & nr & Hc & Hcl & Hcp & Hw & Hs & Hl & Ha & ->).
  simpl in Hp, Hpp. injection Hp as <- <-. injection Hpp as <- <-.
  exists cp. split; [assumption|].
  assert (Hr : (r < length X')%nat) by (apply nth_error_Some; congruence).
  assert (Hk : length cols = length cp)
    by (apply sequence_length in Hs; now rewrite Hs, length_map).
  assert (Hlse : length lse = length X')
    by (apply sequence_length in Hl; now rewrite Hl, !length_map, length_seq).
  assert (Hnr : length nr = length X')
    by (apply sequence_length in Ha; now rewrite Ha, !length_map, length_seq).
  assert (Hnth : nth_error (map (fun r0 => map (fun c => nth r0 c NaN) cols)
                                (seq 0 (length X'))) r
                 = Some (map (fun c => nth r c NaN) cols))
    by now rewrite nth_error_map, nth_error_seq0.
  pose proof (sequence_map_nth _ _ _ r _ NaN Hl Hnth) as Hl1.
  pose proof (sequence_map_nth _ _ _ r _ 0%nat Ha Hnth) as Ha1.
  assert (Hcpne : cp <> []).
  { intros ->. simpl in Hs. injection Hs as <-. discriminate. }
  assert (Hclne : classes <> []) by (eapply fit_classes_nonempty; eauto).
  destruct (logprior_of_finite classes Hclne) as [p Hlp].
  assert (HXT : exists XTr, nth_error XT r = Some XTr
                            /\ Forall (fun v => isfinite v = false) XTr).
  { destruct (islogvar self) as [flags|]; simpl in Hw.
    - apply sequence_Some in Hw.
      apply (f_equal (fun l => nth_error l r)) in Hw.
      rewrite !nth_error_map, Hrow in Hw. simpl in Hw.
      destruct (nth_error XT r) as [XTr|] eqn:EX; [|discriminate]. simpl in Hw.
      injection Hw as Hw. exists XTr. split; [reflexivity|].
      now apply (where_row_nan flags row).
    - injection Hw as <-. exists row. split; [assumption|].
      revert Hnan. apply Forall_impl. now intros v ->. }
  destruct HXT as (XTr & HXTr & Hmiss).
  assert (Hk1 : (1 <= length cp)%nat) by (destruct cp; [congruence | simpl; lia]).
  assert (Hrowr : map (fun c => nth r c NaN) cols = repeat (Fin p) (length cp)).
  { rewrite <- Hk, <- map_const_repeat. apply map_ext_in. intros col Hcol.
    destruct (sequence_in _ _ _ _ Hs Hcol) as [c [_ Hc']].
    rewrite <- Hlp.
    apply (missing_row_score self (snd c) XT _ col r XTr); try assumption.
    now rewrite Hh. }
  rewrite Hrowr in Hl1, Ha1.
  rewrite logsumexp_const in Hl1 by assumption.
  rewrite argmax_const in Ha1 by assumption.
  injection Hl1 as Hl1. injection Ha1 as Ha1.
  split.
  - rewrite (nth_error_nth' _ 0%nat) by lia. now rewrite <- Ha1.
  - rewrite (nth_error_nth' _ (map fl_exp []))
      by (rewrite !length_map, length_combine, length_map, length_seq; lia).
    f_equal. rewrite (map_nth (map fl_exp)).
    rewrite (nth_map_combine _ _ _ r [] NaN) by (rewrite ?length_map, ?length_seq; lia).
    cbn [fst snd].
    rewrite (nth_indep _ [] ((fun r0 => map (fun c => nth r0 c NaN) cols) 0%nat))
      by (rewrite length_map, length_seq; lia).
    rewrite (map_nth (fun r0 => map (fun c => nth r0 c NaN) cols)), seq_nth by assumption.
    simpl Nat.add. rewrite Hrowr, <- Hl1, !map_repeat. f_equal.
    simpl. f_equal.
    assert (HK : 0 < INR (length cp)) by (apply lt_0_INR; lia).
    replace (p + - (ln (INR (length cp)) + p)) with (- ln (INR (length cp))) by lra.
    rewrite exp_Ropp, exp_ln by assumption. field. lra.
Qed.

End Classifier.

(** ** The statements on concrete data *)

(** Rewrites the comparisons of concrete reals that [lra] can settle. *)
Ltac settle_R :=
  repeat match goal with
    | |- context [Rltb ?a ?b] =>
        first [ rewrite (Rltb_true a b) by lra
              | rewrite (Rltb_false a b) by lra ]
    | |- context [Reqb ?a ?b] =>
        first [ rewrite (Reqb_true a b) by lra
              | rewrite (Reqb_false a b) by lra ]
    end.

Lemma keep_initial_guess_ok :
  forall data m W0 it rt at' pr,
    mixture_ok m = true -> mixture_ok (keep_initial_guess data m W0 it rt at' pr) = true.
Proof. intros. assumption. Qed.

Lemma variance_pair (a b : R) : variance [a; b] = (a - b) * (a - b) / 4.
Proof. unfold variance. simpl. field. Qed.

(** C2.  On the column [0, 4], with the default thresholds, the builder
    takes the fast path and returns one component whose mean is 2, the sample
    mean, and whose variance is 2, the standard deviation of the sample: its
    variance is 4. *)
Theorem fast_path_stores_std_as_variance :
  _make_mixture_for_column keep_initial_guess [Fin 0; Fin 4] 5 10 1000
  = Some (Some {| components := [{| mu := Fin 2; sigma := Fin 2 |}];
                  weights := [Fin 1] |})
  /\ variance [0; 4] = 4.
Proof.
  assert (Hv : variance [0; 4] = 4) by (rewrite variance_pair; lra).
  split; [|exact Hv].
  rewrite small_column_single; simpl finite_values.
  - unfold create_gaussian_mixture, np_mean, np_std. rewrite Hv. simpl.
    replace 4 with (2 * 2) at 2 by lra. rewrite sqrt_square by lra.
    repeat f_equal; lra.
  - discriminate.
  - rewrite Hv. lra.
  - left. simpl. lia.
Qed.

(** *** A class set larger than the labels of [y] *)

Lemma fit_superset :
  fit nat keep_initial_guess unit_weights (__init__ (Some [0; 1; 2]%Z) 10 5 1000 None)
    0%nat [[Fin 0]; [Fin 1]] [0; 1]%Z
  = (Returned tt
       (set_fitted
          (set_populated_columns_
             (set_islogvar
                (set_training (__init__ (Some [0; 1; 2]%Z) 10 5 1000 None)
                   [0; 1; 2]%Z [[Fin 0]; [Fin 1]] [0; 1]%Z)
                [false])
             [0; 1]%nat)
          [[[]]; []] [(0%Z, [None]); (1%Z, [None])]),
     0%nat).
Proof.
  unfold fit. cbn. settle_R. cbn.
  rewrite !degenerate_column_absent by (right; apply variance_singleton).
  reflexivity.
Qed.

(** The log-likelihood of a class whose only feature has no mixture. *)
Lemma absent_profile_loglik (self : MultiGaussNaiveBayesClassifier) :
  minprob (hyper self) <= 1 ->
  _evaluate_feature_dist self [None] [[Fin 0]] (Fin 0) = Some [Fin 0].
Proof.
  intros Hmp. unfold _evaluate_feature_dist. cbn.
  rewrite floor_minprob_zero by assumption. cbn. repeat f_equal. lra.
Qed.

(** The surprise of a row for which two classes have the log-likelihood
    zero, under the log-prior [p]. *)
Lemma surprise_of_two_absent (p : R) :
  sequence
    (map logsumexp
       (map (fun r => map (fun ll => fl_add (nth r ll NaN) (Fin p)) [[Fin 0]; [Fin 0]])
            (seq 0 (length [[Fin 0]]))))
  = Some [Fin (ln (INR 2) + (0 + p))].
Proof.
  cbn [length seq map nth fl_add].
  change [Fin (0 + p); Fin (0 + p)] with (repeat (Fin (0 + p)) 2).
  rewrite logsumexp_const by lia. reflexivity.
Qed.

Lemma two_absent_logliks (self : MultiGaussNaiveBayesClassifier) (loglik : list (list fl)) :
  minprob (hyper self) <= 1 ->
  Forall2 (fun (c : Z * fdists) ll =>
             _evaluate_feature_dist self (snd c) [[Fin 0]] (Fin 0) = Some ll)
          [(0%Z, [None]); (1%Z, [None])] loglik ->
  loglik = [[Fin 0]; [Fin 0]].
Proof.
  intros Hmp H.
  inversion H as [|c0 ll0 cp0 lls0 H0 H']; subst.
  inversion H' as [|c1 ll1 cp1 lls1 H1 H'']; subst.
  inversion H''; subst.
  simpl in H0, H1. rewrite absent_profile_loglik in H0, H1 by assumption.
  now injection H0 as <-; injection H1 as <-.
Qed.

(** C3, counterexample.  With [all_labels = [0, 1, 2]] and the labels 0 and 1
    in [y], two classes are populated.  Both have the log-likelihood zero at
    the row [0], whose only feature has no mixture in either class.  The
    surprise that [_predict] stores for this row is the log-sum-exp of two
    scores 0 - log 3; it is not that of two scores 0 - log 2, which the
    number of populated classes would give. *)
Lemma logprior_superset_counterexample :
  exists self g' s cp,
    fit nat keep_initial_guess unit_weights (__init__ (Some [0; 1; 2]%Z) 10 5 1000 None)
      0%nat [[Fin 0]; [Fin 1]] [0; 1]%Z = (Returned tt self, g')
    /\ classes_ self = Some [0; 1; 2]%Z
    /\ populated_classes [0; 1; 2]%Z [0; 1]%Z = 2%nat
    /\ class_properties_ self = Some cp
    /\ where_islogvar (islogvar self) [[Fin 0]] = Some [[Fin 0]]
    /\ _predict self [[Fin 0]] = Returned tt s
    /\ surprise_ s = Some [Fin (ln (INR 2) + (0 + - ln (INR 3)))]
    /\ ~ (exists loglik,
            Forall2 (fun c ll =>
                       _evaluate_feature_dist self (snd c) [[Fin 0]] (Fin 0) = Some ll)
                    cp loglik
            /\ surprise_ s
               = sequence
                   (map logsumexp
                      (map (fun r =>
                              map (fun ll =>
                                     fl_add (nth r ll NaN)
                                       (Fin (- ln (INR (populated_classes [0; 1; 2]%Z
                                                          [0; 1]%Z)))))
                                  loglik)
                           (seq 0 (length [[Fin 0]]))))).
Proof.
  destruct (fitted_predict_returns nat keep_initial_guess unit_weights
              _ _ _ _ _ [[Fin 0]] _ keep_initial_guess_ok fit_superset eq_refl)
    as [s Hs]; [discriminate | reflexivity | reflexivity |].
  do 2 eexists. exists s. eexists.
  split; [apply fit_superset|]. split; [reflexivity|]. split; [reflexivity|].
  split; [reflexivity|]. split; [reflexivity|]. split; [exact Hs|].
  assert (Hmp : minprob (hyper (__init__ (Some [0; 1; 2]%Z) 10 5 1000 None)) <= 1)
    by (simpl; lra).
  assert (Hsur : surprise_ s = Some [Fin (ln (INR 2) + (0 + - ln (INR 3)))]).
  { destruct (_predict_scores _ s _ Hs)
      as (classes & cp & XT & loglik & Hcl & Hcp & Hw & Hll & Hout & _).
    simpl in Hcl, Hcp, Hw. injection Hcl as <-. injection Hcp as <-. injection Hw as <-.
    apply two_absent_logliks in Hll; [|exact Hmp]. subst loglik.
    assert (Hprior : logprior_of [0; 1; 2]%Z = Fin (- ln (INR 3))).
    { unfold logprior_of, fl_log. rewrite Rltb_true; [reflexivity|].
      apply lt_0_INR. simpl. lia. }
    rewrite Hprior in Hout. rewrite Hout. apply surprise_of_two_absent. }
  split; [exact Hsur|].
  intros (loglik & Hll & Hout).
  apply two_absent_logliks in Hll; [|exact Hmp]. subst loglik.
  change (populated_classes [0; 1; 2]%Z [0; 1]%Z) with 2%nat in Hout.
  rewrite surprise_of_two_absent, Hsur in Hout.
  injection Hout as Hout.
  assert (Hlt : ln (INR 2) < ln (INR 3)).
  { apply ln_increasing; [apply lt_0_INR; lia | apply lt_INR; lia]. }
  simpl INR in Hlt. lra.
Qed.

(** C3, witness: the same instance and row. *)
Lemma logprior_counts_class_set_witness :
  exists self g' s classes cp XT loglik,
    fit nat keep_initial_guess unit_weights (__init__ (Some [0; 1; 2]%Z) 10 5 1000 None)
      0%nat [[Fin 0]; [Fin 1]] [0; 1]%Z = (Returned tt self, g')
    /\ _predict self [[Fin 0]] = Returned tt s
    /\ classes_ self = Some classes
    /\ classes = [0; 1; 2]%Z
    /\ class_properties_ self = Some cp
    /\ where_islogvar (islogvar self) [[Fin 0]] = Some XT
    /\ Forall2 (fun c ll => _evaluate_feature_dist self (snd c) XT (Fin 0) = Some ll)
               cp loglik
    /\ surprise_ s
       = sequence
           (map logsumexp
              (map (fun r =>
                      map (fun ll => fl_add (nth r ll NaN)
                                       (Fin (- ln (INR (length classes)))))
                          loglik)
                   (seq 0 (length [[Fin 0]])))).
Proof.
  destruct (fitted_predict_returns nat keep_initial_guess unit_weights
              _ _ _ _ _ [[Fin 0]] _ keep_initial_guess_ok fit_superset eq_refl)
    as [s Hs]; [discriminate | reflexivity | reflexivity |].
  destruct (logprior_counts_class_set nat keep_initial_guess unit_weights
              _ _ s _ _ _ [[Fin 0]] _ fit_superset Hs)
    as (classes & cp & XT & loglik & H1 & H2 & H3 & H4 & H5 & (H6 & _) & _).
  do 2 eexists. exists s, classes, cp, XT, loglik.
  split; [apply fit_superset|]. split; [exact Hs|]. split; [exact H1|].
  split; [exact H2|]. split; [exact H3|]. split; [exact H4|].
  split; [exact H5 | exact H6].
Defined.

(** *** Two classes with labels 3 and 7, one feature, constant in class 3 *)

Lemma fit_labels_3_7 :
  fit nat keep_initial_guess unit_weights default_classifier 0%nat
    [[Fin 0]; [Fin 0]; [Fin 1]; [Fin 3]] [3; 3; 7; 7]%Z
  = (Returned tt
       (set_fitted
          (set_populated_columns_
             (set_islogvar
                (set_training default_classifier [3; 7]%Z
                   [[Fin 0]; [Fin 0]; [Fin 1]; [Fin 3]] [3; 3; 7; 7]%Z)
                [false])
             [0; 1]%nat)
          [[[]]; []]
          [(3%Z, [None]);
           (7%Z, [Some (create_gaussian_mixture [np_mean [1; 3]] [np_std [1; 3]])])]),
     0%nat).
Proof.
  unfold fit. cbn. settle_R. cbn.
  rewrite (degenerate_column_absent keep_initial_guess [Fin 0; Fin 0])
    by (right; simpl; rewrite variance_pair; lra).
  rewrite (small_column_single keep_initial_guess [Fin 1; Fin 3]);
    [reflexivity | discriminate | simpl; rewrite variance_pair; lra | left; simpl; lia].
Qed.

(** C4, counterexample.  Class 3 has no mixture for the only feature, class 7
    has one.  The vector of the pair (3, 7) is empty: it has no entry, and so
    no absent marker, for feature 0. *)
Lemma KL_skips_absent_counterexample :
  exists self g',
    fit nat keep_initial_guess unit_weights default_classifier 0%nat
      [[Fin 0]; [Fin 0]; [Fin 1]; [Fin 3]] [3; 3; 7; 7]%Z = (Returned tt self, g')
    /\ ncols [[Fin 0]; [Fin 0]; [Fin 1]; [Fin 3]] = 1%nat
    /\ KL_ self = Some [[[]]; []]
    /\ ~ (forall KL, KL_ self = Some KL ->
          Forall (Forall (fun v : list fl => length v = 1%nat)) KL).
Proof.
  eexists. eexists. split; [apply fit_labels_3_7|].
  split; [reflexivity|]. split; [reflexivity|].
  intros H. specialize (H _ eq_refl).
  inversion H as [|row rows Hrow _]. inversion Hrow as [|v vs Hv _]. discriminate.
Qed.

(** *** Two classes that both have a mixture for the only feature *)

Lemma fit_two_profiles :
  exists self g',
    fit nat keep_initial_guess unit_weights default_classifier 0%nat
      [[Fin 0]; [Fin 2]; [Fin 1]; [Fin 3]] [3; 3; 7; 7]%Z = (Returned tt self, g')
    /\ class_properties_ self
       = Some [(3%Z, [Some (create_gaussian_mixture [np_mean [0; 2]] [np_std [0; 2]])]);
               (7%Z, [Some (create_gaussian_mixture [np_mean [1; 3]] [np_std [1; 3]])])].
Proof.
  do 2 eexists. split.
  - eapply (fit_returns nat keep_initial_guess unit_weights default_classifier 0%nat).
    + reflexivity.
    + cbn. settle_R. cbn. reflexivity.
    + cbn.
      rewrite (small_column_single keep_initial_guess [Fin 0; Fin 2]);
        [| discriminate | simpl; rewrite variance_pair; lra | left; simpl; lia].
      rewrite (small_column_single keep_initial_guess [Fin 1; Fin 3]);
        [| discriminate | simpl; rewrite variance_pair; lra | left; simpl; lia].
      reflexivity.
  - reflexivity.
Qed.

(** C4, witness: the only vector, that of the pair (3, 7), holds one entry,
    the estimate for the only feature. *)
Lemma KL_entries_where_both_present_witness :
  exists self g' cp KL e,
    fit nat keep_initial_guess unit_weights default_classifier 0%nat
      [[Fin 0]; [Fin 2]; [Fin 1]; [Fin 3]] [3; 3; 7; 7]%Z = (Returned tt self, g')
    /\ class_properties_ self = Some cp
    /\ KL_ self = Some KL
    /\ KL = [[[e]]; []]
    /\ KL_estimate_of nat unit_weights
         (Some (create_gaussian_mixture [np_mean [0; 2]] [np_std [0; 2]]),
          Some (create_gaussian_mixture [np_mean [1; 3]] [np_std [1; 3]])) e
    /\ Forall2
         (fun c1 row =>
            Forall2
              (fun c2 v =>
                 Forall2 (KL_estimate_of nat unit_weights)
                         (filter both_present (combine (snd c1) (snd c2))) v)
              (filter (fun c2 => (fst c1 <? fst c2)%Z) cp) row)
         cp KL.
Proof.
  destruct fit_two_profiles as (self & g' & Hf & Hcp).
  destruct (KL_entries_where_both_present nat keep_initial_guess unit_weights
              _ _ _ _ _ _ Hf) as (cp & KL & H1 & H2 & H3).
  pose proof H3 as H4.
  rewrite Hcp in H1. injection H1 as <-.
  inversion H4 as [|c1 row1 cps rows Hrow1 Hrest]; subst.
  inversion Hrest as [|c2 row2 cps' rows' Hrow2 Hnil]; subst.
  inversion Hnil; subst.
  simpl in Hrow1, Hrow2.
  inversion Hrow2; subst.
  inversion Hrow1 as [|c v cs vs Hv Hvs]; subst.
  inversion Hvs; subst.
  inversion Hv as [|pair e ps es He Hes]; subst.
  inversion Hes; subst.
  exists self, g'. do 2 eexists. exists e.
  split; [exact Hf|]. split; [exact Hcp|]. split; [exact H2|].
  split; [reflexivity|]. split; [exact He | exact H3].
Defined.

Lemma mixture_1_3 :
  create_gaussian_mixture [np_mean [1; 3]] [np_std [1; 3]]
  = {| components := [{| mu := Fin 2; sigma := Fin 1 |}]; weights := [Fin 1] |}.
Proof.
  unfold create_gaussian_mixture, np_mean, np_std. rewrite variance_pair. simpl.
  replace ((1 - 3) * (1 - 3) / 4) with 1 by lra. rewrite sqrt_1.
  repeat f_equal; lra.
Qed.

(** The log-density of class 7 at 0 is negative. *)
Lemma density_at_0 :
  exists c, component_logprob (Fin 0) {| mu := Fin 2; sigma := Fin 1 |} (Fin 1) = Fin c
            /\ c < 0.
Proof.
  pose proof PI2_1 as HPI.
  unfold component_logprob, fl_sqr, fl_sub. simpl. settle_R. simpl.
  eexists. split; [reflexivity|].
  rewrite ln_1.
  assert (0 < ln (1 * 2 * PI)) by (rewrite <- ln_1; apply ln_increasing; lra).
  lra.
Qed.

(** C1.  The instance fitted above has the class set {3, 7} and the profiles
    of the classes 3 and 7, in this order.  For the row [0] the class of
    maximal posterior is class 3, whose only feature is absent, and [predict]
    returns [0]: the position of that class among the profiles, which is not
    a label of the class set. *)
Theorem predict_returns_position_not_label :
  exists self g' self',
    fit nat keep_initial_guess unit_weights default_classifier 0%nat
      [[Fin 0]; [Fin 0]; [Fin 1]; [Fin 3]] [3; 3; 7; 7]%Z = (Returned tt self, g')
    /\ classes_ self = Some [3; 7]%Z
    /\ option_map (map fst) (class_properties_ self) = Some [3; 7]%Z
    /\ predict self [[Fin 0]] = Returned [0%nat] self'
    /\ ~ In (Z.of_nat 0) [3; 7]%Z.
Proof.
  destruct density_at_0 as [c [Hc Hneg]].
  pose proof (exp_pos (c + - c)) as Hexp.
  assert (Hu : ln (exp (c + - c) + 0) + c = c).
  { replace (c + - c) with 0 by lra. rewrite exp_0, Rplus_0_r, ln_1. lra. }
  assert (Hmp : ln (1 / 100000) < 0) by (rewrite <- ln_1; apply ln_increasing; lra).
  eexists. eexists.
  assert (Hp : exists self',
             predict
               (set_fitted
                  (set_populated_columns_
                     (set_islogvar
                        (set_training default_classifier [3; 7]%Z
                           [[Fin 0]; [Fin 0]; [Fin 1]; [Fin 3]] [3; 3; 7; 7]%Z)
                        [false])
                     [0; 1]%nat)
                  [[[]]; []]
                  [(3%Z, [None]);
                   (7%Z, [Some (create_gaussian_mixture [np_mean [1; 3]]
                                                        [np_std [1; 3]])])])
               [[Fin 0]] = Returned [0%nat] self').
  { rewrite mixture_1_3. unfold predict, _predict. cbn. rewrite !Hc. cbn.
    settle_R. cbn. rewrite !Hu.
    unfold floor_minprob, logprior_of. cbn. settle_R. cbn.
    destruct (Rltb c (ln (1 / 100000))); cbn; settle_R; cbn; now eexists. }
  destruct Hp as [self' Hp]. exists self'.
  split; [apply fit_labels_3_7|]. split; [reflexivity|]. split; [reflexivity|].
  split; [exact Hp|].
  simpl. intros [H|[H|[]]]; discriminate.
Qed.

(** *** A refit on data with another sign *)

Lemma fit_positive :
  fit nat keep_initial_guess unit_weights default_classifier 0%nat [[Fin 1]] [0%Z]
  = (Returned tt fitted_on_positive, 0%nat).
Proof.
  unfold fit. cbn. settle_R. cbn. settle_R.
  rewrite !degenerate_column_absent by (right; apply variance_singleton).
  reflexivity.
Qed.

Lemma refit_nonpositive :
  fit nat keep_initial_guess unit_weights fitted_on_positive 0%nat [[Fin 0]] [0%Z]
  = (Returned tt
       (set_fitted
          (set_populated_columns_
             (set_training fitted_on_positive [0%Z] [[Fin 0]] [0%Z]) [0%nat])
          [[]] [(0%Z, [None])]),
     0%nat).
Proof.
  unfold fit. cbn. settle_R. cbn. reflexivity.
Qed.

Lemma fit_nonpositive :
  fit nat keep_initial_guess unit_weights default_classifier 0%nat [[Fin 0]] [0%Z]
  = (Returned tt
       (set_fitted
          (set_populated_columns_
             (set_islogvar (set_training default_classifier [0%Z] [[Fin 0]] [0%Z]) [false])
             [0%nat])
          [[]] [(0%Z, [None])]),
     0%nat).
Proof.
  unfold fit. cbn. settle_R. cbn.
  rewrite !degenerate_column_absent by (right; apply variance_singleton).
  reflexivity.
Qed.

(** C5, counterexample.  [fit([[1]], [0])] followed by [fit([[0]], [0])]
    leaves the transform flag of the first fit set; [fit([[0]], [0])] on a
    fresh instance of the same configuration, from the same generator state,
    leaves it unset.  The two fitted states differ. *)
Lemma refit_keeps_flags_counterexample :
  exists self1 g1 self2 g2 fresh2 g2',
    fit nat keep_initial_guess unit_weights default_classifier 0%nat [[Fin 1]] [0%Z]
    = (Returned tt self1, g1)
    /\ fit nat keep_initial_guess unit_weights self1 0%nat [[Fin 0]] [0%Z]
       = (Returned tt self2, g2)
    /\ fit nat keep_initial_guess unit_weights default_classifier 0%nat [[Fin 0]] [0%Z]
       = (Returned tt fresh2, g2')
    /\ islogvar self2 = Some [true]
    /\ islogvar fresh2 = Some [false]
    /\ fitted_state self2 <> fitted_state fresh2.
Proof.
  do 6 eexists.
  split; [apply fit_positive|]. split; [apply refit_nonpositive|].
  split; [apply fit_nonpositive|].
  split; [reflexivity|]. split; [reflexivity|].
  unfold fitted_state. simpl. intros H. discriminate.
Qed.

(** C5, witness. *)
Lemma refit_keeps_transform_flags_witness :
  islogvar default_classifier = None
  /\ fit nat keep_initial_guess unit_weights default_classifier 0%nat [[Fin 1]] [0%Z]
     = (Returned tt fitted_on_positive, 0%nat)
  /\ exists self2 self2',
       fit nat keep_initial_guess unit_weights fitted_on_positive 0%nat [[Fin 0]] [0%Z]
       = (Returned tt self2, 0%nat)
       /\ islogvar self2 = Some (positive_columns [[Fin 1]])
       /\ fit nat keep_initial_guess unit_weights
            (set_islogvar default_classifier (positive_columns [[Fin 1]])) 0%nat
            [[Fin 0]] [0%Z] = (Returned tt self2', 0%nat)
       /\ fitted_state self2' = fitted_state self2.
Proof.
  split; [reflexivity|]. split; [apply fit_positive|].
  destruct (refit_keeps_transform_flags nat keep_initial_guess unit_weights
              default_classifier fitted_on_positive _ 0%nat 0%nat 0%nat 0%nat
              [[Fin 1]] [[Fin 0]] [0%Z] [0%Z] eq_refl fit_positive refit_nonpositive)
    as (H1 & (self2' & H2 & H3) & _).
  eexists. exists self2'.
  split; [apply refit_nonpositive|]. split; [exact H1|]. split; [exact H2 | exact H3].
Defined.

(** *** The remaining witnesses *)

(** C6, witness: one class with an absent and a present mixture, and a row
    of two NaN. *)
Lemma missing_row_scores_logprior_witness :
  minprob (hyper default_classifier) <= 1
  /\ exists scores,
       _evaluate_feature_dist default_classifier
         [None; Some (create_gaussian_mixture [Fin 0] [Fin 1])]
         [[NaN; NaN]] (logprior_of [3; 7]%Z) = Some scores
       /\ nth_error scores 0 = Some (logprior_of [3; 7]%Z).
Proof.
  assert (H : minprob (hyper default_classifier) <= 1) by (simpl; lra).
  split; [exact H|].
  apply (missing_row_scores_logprior default_classifier
           [None; Some (create_gaussian_mixture [Fin 0] [Fin 1])]
           [[NaN; NaN]] (logprior_of [3; 7]%Z) 0 [NaN; NaN]).
  - exact H.
  - repeat constructor.
  - reflexivity.
  - reflexivity.
  - repeat constructor.
Defined.

(** C7, witness: three values in two segments. *)
Lemma quantile_partition_witness :
  (1 <= 2)%nat /\ (2 <= length [1; 2; 3])%nat
  /\ exists means covs,
       _make_single_mixture [1; 2; 3] 2 = Some (means, covs)
       /\ length means = 2%nat /\ length covs = 2%nat
       /\ (forall i j, (i <= j)%nat -> (j < 2)%nat -> nth i means 0 <= nth j means 0).
Proof.
  assert (H1 : (1 <= 2)%nat) by lia.
  assert (H2 : (2 <= length [1; 2; 3])%nat) by (simpl; lia).
  split; [exact H1|]. split; [exact H2|].
  destruct (quantile_partition [1; 2; 3] 2 H1 H2)
    as (means & covs & E & Lm & Lc & _ & _ & Hmono).
  exists means, covs. repeat split; assumption.
Defined.

(** C8, witness: the instance fitted on the labels 3 and 7, and the row [0]. *)
Lemma predict_proba_rows_sum_to_one_witness :
  exists self g' P self',
    fit nat keep_initial_guess unit_weights default_classifier 0%nat
      [[Fin 0]; [Fin 0]; [Fin 1]; [Fin 3]] [3; 3; 7; 7]%Z = (Returned tt self, g')
    /\ predict_proba self [[Fin 0]] = Returned P self'
    /\ length P = 1%nat
    /\ Forall (fun row => exists s, fl_sum row = Fin s /\ Rabs (s - 1) <= 1e-6) P.
Proof.
  destruct (predict_proba_rows_sum_to_one nat keep_initial_guess unit_weights
              _ _ _ _ _ [[Fin 0]] _ fit_labels_3_7) as [Hrows Hreturns].
  destruct (Hreturns keep_initial_guess_ok eq_refl) as (P & self' & HP);
    try reflexivity; try discriminate.
  destruct (Hrows P self' HP) as [Hlen Hsum].
  eexists. eexists. exists P, self'.
  split; [apply fit_labels_3_7|]. split; [exact HP|]. split; [exact Hlen | exact Hsum].
Defined.

(** *** A constant column whose mean is not a float64 number *)

(** C9.  The three entries of the column [0.1, 0.1, 0.1] are equal, so its
    variance is zero.  In float64 the sum is 0.30000000000000004 and the mean
    0.10000000000000002, so [col.std()] is 2^-56, about 1.39e-17: the test
    [std > 0] succeeds and, with the default thresholds, the builder returns
    the single Gaussian of this mean and of covariance 2^-56 instead of the
    absent mixture.  On exact numbers the same column has the standard
    deviation 0. *)
Theorem constant_column_is_not_absent :
  Forall (fun v => v = float64_tenth) [float64_tenth; float64_tenth; float64_tenth]
  /\ float64_sum [float64_tenth; float64_tenth; float64_tenth] = 0x1.3333333333334p-2%float
  /\ float64_mean [float64_tenth; float64_tenth; float64_tenth] = 0x1.999999999999bp-4%float
  /\ float64_std [float64_tenth; float64_tenth; float64_tenth] = 0x1p-56%float
  /\ PrimFloat.ltb 0%float (float64_std [float64_tenth; float64_tenth; float64_tenth]) = true
  /\ _make_mixture_for_column_float64 [float64_tenth; float64_tenth; float64_tenth] 10 1000
     = single_gaussian 0x1.999999999999bp-4%float 0x1p-56%float
  /\ _make_mixture_for_column_float64 [float64_tenth; float64_tenth; float64_tenth] 10 1000 <> no_useful_samples
  /\ np_std [1 / 10; 1 / 10; 1 / 10] = Fin 0.
Proof.
  split; [repeat constructor|].
  split; [reflexivity|]. split; [reflexivity|]. split; [reflexivity|].
  split; [reflexivity|]. split; [reflexivity|].
  split; [intros H; vm_compute in H; discriminate H|].
  unfold np_std. rewrite (variance_constant (1 / 10)).
  - now rewrite sqrt_0.
  - intros v [<-|[<-|[<-|[]]]]; reflexivity.
Qed.

(** ** The further properties on concrete data *)

Lemma unit_weights_ok :
  forall target proposal N g,
    (0 < N)%nat ->
    fst (unit_weights target proposal N g) <> []
    /\ Forall (fun w => exists r, w = Fin r /\ 0 <= r)
              (fst (unit_weights target proposal N g)).
Proof.
  intros t p N g HN. unfold unit_weights. simpl. split.
  - destruct N; [lia | discriminate].
  - apply Forall_forall. intros w Hw. apply repeat_spec in Hw.
    exists 1. split; [assumption | lra].
Qed.

(** The instance fitted on the labels 3 and 7 predicts on every valid batch
    of one column. *)
Lemma labels_3_7_predict (X' : matrix) :
  check_array X' = Some X' -> ncols X' = 1%nat ->
  exists self g' s nearest logproba,
    fit nat keep_initial_guess unit_weights default_classifier 0%nat
      [[Fin 0]; [Fin 0]; [Fin 1]; [Fin 3]] [3; 3; 7; 7]%Z = (Returned tt self, g')
    /\ predict self X' = Returned nearest s
    /\ predict_log_proba self X' = Returned logproba s
    /\ predict_proba self X' = Returned (map (map fl_exp) logproba) s.
Proof.
  intros Hc Hn.
  destruct (fitted_predict_returns nat keep_initial_guess unit_weights
              _ _ _ _ _ X' _ keep_initial_guess_ok fit_labels_3_7 eq_refl)
    as [s Hs]; [discriminate | assumption | assumption |].
  destruct (predict_all_return _ _ _ Hs) as (nr & lp & H1 & H2 & H3).
  do 2 eexists. exists s, nr, lp. split; [apply fit_labels_3_7|]. auto.
Qed.

(** No label of the configured class set occurs in [y]. *)
Lemma fit_unseen_label :
  exists self,
    fit nat keep_initial_guess unit_weights (__init__ (Some [5%Z]) 10 5 1000 None) 0%nat
      [[Fin 0]] [0%Z] = (Returned tt self, 0%nat).
Proof. eexists. unfold fit. cbn. settle_R. cbn. reflexivity. Qed.

(** Two column names for a matrix of one column: the builder raises after
    the training data were stored. *)
Lemma fit_wrong_names :
  exists self',
    fit nat keep_initial_guess unit_weights
      (__init__ None 10 5 1000 (Some [String.EmptyString; String.EmptyString])) 0%nat
      [[Fin 0]] [0%Z] = (Raised self', 0%nat).
Proof. eexists. unfold fit. cbn. settle_R. cbn. reflexivity. Qed.

(** X1, witness: three values in two segments. *)
Lemma partition_within_range_witness :
  [1; 2; 3] <> []
  /\ exists means covs,
       _make_single_mixture [1; 2; 3] 2 = Some (means, covs)
       /\ Forall (fun m => Rmin_list [1; 2; 3] <= m <= Rmax_list [1; 2; 3]) means
       /\ Forall (fun c => ((Rmax_list [1; 2; 3] - Rmin_list [1; 2; 3]) / 100) ^ 2 <= c
                           <= (Rmax_list [1; 2; 3] - Rmin_list [1; 2; 3]) ^ 2) covs.
Proof.
  assert (H : [1; 2; 3] <> []) by discriminate.
  split; [exact H|].
  do 2 eexists.
  assert (E := _make_single_mixture_eq [1; 2; 3] 2 (le_S 1 1 (le_n 1))).
  split; [exact E|].
  destruct (partition_within_range [1; 2; 3] 2 _ _ H E) as (Hm & Hc & _).
  split; [exact Hm | exact Hc].
Defined.

(** X4, witness: the column [0, 4] with one component asked for and the
    threshold 2. *)
Lemma builder_initial_guess_witness :
  0 < variance (finite_values [Fin 0; Fin 4])
  /\ (2 <= length (finite_values [Fin 0; Fin 4]))%nat
  /\ 1000%nat <> 0%nat
  /\ (1 <= 1)%nat
  /\ exists means covs,
       _make_single_mixture [0; 4] 1 = Some (means, covs)
       /\ _make_mixture_for_column keep_initial_guess [Fin 0; Fin 4] 1 2 1000
          = Some (Some (create_gaussian_mixture (map Fin means) (map Fin covs)))
       /\ Forall (fun c => 0 < c) covs.
Proof.
  assert (H1 : 0 < variance (finite_values [Fin 0; Fin 4]))
    by (simpl; rewrite variance_pair; lra).
  assert (H2 : (2 <= length (finite_values [Fin 0; Fin 4]))%nat) by (simpl; lia).
  assert (H3 : 1000%nat <> 0%nat) by discriminate.
  assert (H4 : (1 <= 1)%nat) by lia.
  split; [exact H1|]. split; [exact H2|]. split; [exact H3|]. split; [exact H4|].
  destruct (builder_initial_guess keep_initial_guess [Fin 0; Fin 4] 1 2 1000 H1 H2 H3 H4)
    as (means & covs & E1 & E2 & _ & _ & Hpos & _).
  exists means, covs. split; [exact E1|]. split; [exact E2 | exact Hpos].
Defined.

(** X5, witness: one present mixture and the row [1]. *)
Lemma scores_bounded_below_witness :
  0 < minprob (hyper default_classifier)
  /\ exists scores,
       _evaluate_feature_dist default_classifier
         [Some (create_gaussian_mixture [Fin 0] [Fin 1])] [[Fin 1]] (Fin 0) = Some scores
       /\ Forall (fun s => exists r, s = Fin r
                                     /\ INR 1 * ln (minprob (hyper default_classifier)) + 0
                                        <= r) scores.
Proof.
  assert (H : 0 < minprob (hyper default_classifier)) by (simpl; lra).
  split; [exact H|].
  destruct (_evaluate_feature_dist_total default_classifier
              [Some (create_gaussian_mixture [Fin 0] [Fin 1])] [[Fin 1]] (Fin 0) eq_refl)
    as [scores Hs]; [repeat constructor|].
  exists scores. split; [exact Hs|].
  exact (scores_bounded_below default_classifier _ _ 0 scores H Hs).
Defined.

(** X6, witness: a profile of two entries on a batch of one column raises. *)
Lemma aggregator_returns_iff_witness :
  [[Fin 1]] <> []
  /\ ~ exists scores,
         _evaluate_feature_dist default_classifier [None; None] [[Fin 1]] (Fin 0)
         = Some scores.
Proof.
  assert (H : [[Fin 1]] <> []) by discriminate.
  split; [exact H|].
  intros Hs.
  apply (aggregator_returns_iff default_classifier [None; None] [[Fin 1]] (Fin 0) H) in Hs.
  destruct Hs as [Hl _]. discriminate.
Defined.

(** X7, witness. *)
Lemma predict_picks_most_probable_witness :
  exists self g' nearest s1 P s2,
    fit nat keep_initial_guess unit_weights default_classifier 0%nat
      [[Fin 0]; [Fin 0]; [Fin 1]; [Fin 3]] [3; 3; 7; 7]%Z = (Returned tt self, g')
    /\ predict self [[Fin 0]; [Fin 2]] = Returned nearest s1
    /\ predict_proba self [[Fin 0]; [Fin 2]] = Returned P s2
    /\ Forall2 (fun i row =>
                  exists p,
                    nth_error row i = Some (Fin p)
                    /\ Forall (fun v => exists q, v = Fin q /\ q <= p) row
                    /\ Forall (fun v => exists q, v = Fin q /\ q < p) (firstn i row))
               nearest P.
Proof.
  destruct (labels_3_7_predict [[Fin 0]; [Fin 2]] eq_refl eq_refl) as (self & g' & s & nr & lp & Hf & H1 & _ & H3).
  exists self, g', nr, s, (map (map fl_exp) lp), s.
  split; [exact Hf|]. split; [exact H1|]. split; [exact H3|].
  exact (predict_picks_most_probable nat keep_initial_guess unit_weights
           _ _ _ _ _ _ _ _ _ _ _ Hf H1 H3).
Defined.

(** X8, witness. *)
Lemma probabilities_in_unit_interval_witness :
  exists self g' P s,
    fit nat keep_initial_guess unit_weights default_classifier 0%nat
      [[Fin 0]; [Fin 0]; [Fin 1]; [Fin 3]] [3; 3; 7; 7]%Z = (Returned tt self, g')
    /\ predict_proba self [[Fin 0]; [Fin 2]] = Returned P s
    /\ Forall (Forall (fun v => exists q, v = Fin q /\ 0 <= q <= 1)) P.
Proof.
  destruct (labels_3_7_predict [[Fin 0]; [Fin 2]] eq_refl eq_refl) as (self & g' & s & nr & lp & Hf & _ & _ & H3).
  exists self, g', (map (map fl_exp) lp), s.
  split; [exact Hf|]. split; [exact H3|].
  destruct (probabilities_in_unit_interval nat keep_initial_guess unit_weights
              _ _ _ _ _ _ _ _ _ Hf H3) as (cp & LP & _ & _ & _ & _ & HP).
  revert HP. apply Forall_impl. intros row [_ Hrow]. exact Hrow.
Defined.

(** X10, witness: the class set [5] and the label 0. *)
Lemma no_populated_class_cannot_predict_witness :
  exists self,
    all_labels (hyper (__init__ (Some [5%Z]) 10 5 1000 None)) = Some [5%Z]
    /\ (forall label, In label [5%Z] -> ~ In label [0%Z])
    /\ fit nat keep_initial_guess unit_weights (__init__ (Some [5%Z]) 10 5 1000 None) 0%nat
         [[Fin 0]] [0%Z] = (Returned tt self, 0%nat)
    /\ class_properties_ self = Some []
    /\ predict self [[Fin 0]] = Raised self.
Proof.
  destruct fit_unseen_label as [self Hf]. exists self.
  assert (H1 : all_labels (hyper (__init__ (Some [5%Z]) 10 5 1000 None)) = Some [5%Z])
    by reflexivity.
  assert (H2 : forall label, In label [5%Z] -> ~ In label [0%Z]).
  { intros label [<-|[]] [H|[]]. discriminate. }
  split; [exact H1|]. split; [exact H2|]. split; [exact Hf|].
  destruct (no_populated_class_cannot_predict nat keep_initial_guess unit_weights
              _ _ _ _ _ _ _ H1 H2 Hf) as (Hcp & _ & _ & _ & Hp).
  split; [exact Hcp|]. apply (Hp [[Fin 0]]).
Defined.

(** X11, witness. *)
Lemma populated_columns_index_classes_witness :
  exists self g' classes cp j,
    fit nat keep_initial_guess unit_weights default_classifier 0%nat
      [[Fin 0]; [Fin 0]; [Fin 1]; [Fin 3]] [3; 3; 7; 7]%Z = (Returned tt self, g')
    /\ classes_ self = Some classes
    /\ class_properties_ self = Some cp
    /\ populated_columns_ self = Some j
    /\ Forall2 (fun k c => nth_error classes k = Some (fst c)) j cp.
Proof.
  destruct (populated_columns_index_classes nat keep_initial_guess unit_weights
              _ _ _ _ _ _ fit_labels_3_7) as (classes & cp & j & H1 & H2 & H3 & _ & H5 & _).
  do 2 eexists. exists classes, cp, j.
  split; [apply fit_labels_3_7|]. auto.
Defined.

(** X12, witness. *)
Lemma failed_fit_is_partial_witness :
  exists self',
    fit nat keep_initial_guess unit_weights
      (__init__ None 10 5 1000 (Some [String.EmptyString; String.EmptyString])) 0%nat
      [[Fin 0]] [0%Z] = (Raised self', 0%nat)
    /\ class_properties_ self' = None
    /\ X_ self' = Some [[Fin 0]]
    /\ classes_ self' = Some [0%Z].
Proof.
  destruct fit_wrong_names as [self' Hf]. exists self'.
  split; [exact Hf|].
  destruct (failed_fit_is_partial nat keep_initial_guess unit_weights _ _ _ _ _ _ Hf)
    as (_ & Hcp & _ & _ & _ & Hpart).
  split; [exact Hcp|].
  destruct Hpart as (HX & _ & Hc & _); [discriminate|].
  split; [exact HX | exact Hc].
Defined.

(** X14, witness. *)
Lemma refit_same_data_is_idempotent_witness :
  islogvar default_classifier = None
  /\ exists self1,
       fit nat keep_initial_guess unit_weights default_classifier 0%nat [[Fin 0]] [0%Z]
       = (Returned tt self1, 0%nat)
       /\ fit nat keep_initial_guess unit_weights self1 0%nat [[Fin 0]] [0%Z]
          = (Returned tt self1, 0%nat).
Proof.
  split; [reflexivity|].
  eexists. split; [apply fit_nonpositive|].
  exact (refit_same_data_is_idempotent nat keep_initial_guess unit_weights
           default_classifier _ 0%nat 0%nat [[Fin 0]] [0%Z] eq_refl fit_nonpositive).
Defined.

(** X15, witness: the sampler that returns unit weights, and two classes
    that both have a mixture. *)
Lemma KL_estimates_finite_and_capped_witness :
  (forall target proposal N g,
      (0 < N)%nat ->
      fst (unit_weights target proposal N g) <> []
      /\ Forall (fun w => exists r, w = Fin r /\ 0 <= r)
                (fst (unit_weights target proposal N g)))
  /\ exists self g' KL,
       fit nat keep_initial_guess unit_weights default_classifier 0%nat
         [[Fin 0]; [Fin 2]; [Fin 1]; [Fin 3]] [3; 3; 7; 7]%Z = (Returned tt self, g')
       /\ KL_ self = Some KL
       /\ Forall (Forall (Forall (fun v => exists k, v = Fin k /\ k <= - ln 1e-300))) KL.
Proof.
  split; [exact unit_weights_ok|].
  destruct fit_two_profiles as (self & g' & Hf & _).
  destruct (KL_estimates_finite_and_capped nat keep_initial_guess unit_weights
              unit_weights_ok _ _ _ _ _ _ Hf) as (KL & H1 & H2).
  exists self, g', KL. split; [exact Hf|]. split; [exact H1 | exact H2].
Defined.

(** X16, witness: a positive and a non-positive column, with a missing
    value. *)
Lemma training_transform_keeps_finite_witness :
  check_array [[Fin 1; Fin 0]; [NaN; Fin 2]] = Some [[Fin 1; Fin 0]; [NaN; Fin 2]]
  /\ exists XT,
       where_islogvar (Some (positive_columns [[Fin 1; Fin 0]; [NaN; Fin 2]]))
         [[Fin 1; Fin 0]; [NaN; Fin 2]] = Some XT
       /\ Forall2 (Forall2 (fun v w => isfinite w = isfinite v
                                       /\ (isnan v = true -> w = NaN)))
                  [[Fin 1; Fin 0]; [NaN; Fin 2]] XT.
Proof.
  split; [reflexivity|].
  destruct (training_transform_keeps_finite [[Fin 1; Fin 0]; [NaN; Fin 2]] eq_refl)
    as (XT & H1 & H2 & _).
  exists XT. split; [exact H1 | exact H2].
Defined.

(** X17, witness. *)
Lemma fit_without_all_labels_witness :
  all_labels (hyper default_classifier) = None
  /\ exists self g' classes cp,
       fit nat keep_initial_guess unit_weights default_classifier 0%nat
         [[Fin 0]; [Fin 0]; [Fin 1]; [Fin 3]] [3; 3; 7; 7]%Z = (Returned tt self, g')
       /\ classes_ self = Some classes
       /\ class_properties_ self = Some cp
       /\ map fst cp = classes
       /\ populated_columns_ self = Some (seq 0 (length classes)).
Proof.
  split; [reflexivity|].
  destruct (fit_without_all_labels nat keep_initial_guess unit_weights
              default_classifier _ _ _ _ _ eq_refl fit_labels_3_7)
    as (classes & cp & KL & H1 & H2 & _ & _ & _ & H6 & H7 & _).
  do 2 eexists. exists classes, cp.
  split; [apply fit_labels_3_7|]. auto.
Defined.

(** X18, witness: the second row of a batch of two. *)
Lemma prediction_is_row_by_row_witness :
  exists self g' nearest s s1,
    fit nat keep_initial_guess unit_weights default_classifier 0%nat
      [[Fin 0]; [Fin 0]; [Fin 1]; [Fin 3]] [3; 3; 7; 7]%Z = (Returned tt self, g')
    /\ predict self [[Fin 0]; [Fin 2]] = Returned nearest s
    /\ nth_error [[Fin 0]; [Fin 2]] 1 = Some [Fin 2]
    /\ predict self [[Fin 2]] = Returned [nth 1 nearest 0%nat] s1.
Proof.
  destruct (labels_3_7_predict [[Fin 0]; [Fin 2]] eq_refl eq_refl) as (self & g' & s & nr & lp & Hf & H1 & _ & _).
  destruct (prediction_is_row_by_row self s [[Fin 0]; [Fin 2]] nr 1 [Fin 2] H1 eq_refl)
    as (lp' & s1 & _ & _ & _ & _ & H5 & _).
  exists self, g', nr, s, s1.
  split; [exact Hf|]. split; [exact H1|]. split; [reflexivity | exact H5].
Defined.

(** X20, witness: a prediction on one batch, then on another. *)
Lemma prediction_ignores_earlier_outputs_witness :
  exists self g' nearest s,
    fit nat keep_initial_guess unit_weights default_classifier 0%nat
      [[Fin 0]; [Fin 0]; [Fin 1]; [Fin 3]] [3; 3; 7; 7]%Z = (Returned tt self, g')
    /\ predict self [[Fin 0]; [Fin 2]] = Returned nearest s
    /\ predict s [[Fin 0]; [Fin 2]] = Returned nearest s
    /\ (forall nearest' s', predict self [[Fin 2]] = Returned nearest' s' ->
                            predict s [[Fin 2]] = Returned nearest' s').
Proof.
  destruct (labels_3_7_predict [[Fin 0]; [Fin 2]] eq_refl eq_refl)
    as (self & g' & s & nr & lp & Hf & H1 & _ & _).
  destruct (prediction_ignores_earlier_outputs self s [[Fin 0]; [Fin 2]] [[Fin 2]] nr H1)
    as (Ha & Hb & _).
  exists self, g', nr, s.
  split; [exact Hf|]. split; [exact H1|]. split; [exact Ha | exact Hb].
Defined.

(** X21, witness: a row that holds NaN only, in a batch of two rows, for the
    two profiles of the labels 3 and 7. *)
Lemma row_without_values_is_uniform_witness :
  minprob (hyper default_classifier) <= 1
  /\ nth_error [[NaN]; [Fin 2]] 0 = Some [NaN]
  /\ Forall (fun v => v = NaN) [NaN]
  /\ exists self g' nearest s1 P s2,
       fit nat keep_initial_guess unit_weights default_classifier 0%nat
         [[Fin 0]; [Fin 0]; [Fin 1]; [Fin 3]] [3; 3; 7; 7]%Z = (Returned tt self, g')
       /\ predict self [[NaN]; [Fin 2]] = Returned nearest s1
       /\ predict_proba self [[NaN]; [Fin 2]] = Returned P s2
       /\ nth_error nearest 0 = Some 0%nat
       /\ nth_error P 0 = Some [Fin (1 / INR 2); Fin (1 / INR 2)].
Proof.
  assert (H1 : minprob (hyper default_classifier) <= 1) by (simpl; lra).
  assert (H2 : nth_error [[NaN]; [Fin 2]] 0 = Some [NaN]) by reflexivity.
  assert (H3 : Forall (fun v => v = NaN) [NaN]) by (repeat constructor).
  split; [exact H1|]. split; [exact H2|]. split; [exact H3|].
  destruct (labels_3_7_predict [[NaN]; [Fin 2]] eq_refl eq_refl)
    as (self & g' & s & nr & lp & Hf & Hp & _ & Hpp).
  destruct (row_without_values_is_uniform nat keep_initial_guess unit_weights
              default_classifier self s s 0%nat g' _ [[NaN]; [Fin 2]] _ nr _ 0%nat [NaN]
              H1 Hf Hp Hpp H2 H3) as (cp & Hcp & Hn & HP).
  exists self, g', nr, s, (map (map fl_exp) lp), s.
  split; [exact Hf|]. split; [exact Hp|]. split; [exact Hpp|]. split; [exact Hn|].
  assert (Hcp2 : length cp = 2%nat).
  { pose proof fit_labels_3_7 as Hf'. rewrite Hf in Hf'. injection Hf' as -> _.
    simpl in Hcp. injection Hcp as <-. reflexivity. }
  rewrite Hcp2 in HP. exact HP.
Defined.

(** X22, witness: a profile of a present and an absent mixture, and the row
    [1, 5]; without the second feature the batch is the row [1]. *)
Lemma absent_mixture_contributes_zero_witness :
  minprob (hyper default_classifier) <= 1
  /\ [[Fin 1; Fin 5]] <> []
  /\ (forall row, In row [[Fin 1; Fin 5]] -> length row = 2%nat)
  /\ _evaluate_feature_dist default_classifier
       [Some (create_gaussian_mixture [Fin 0] [Fin 1]); None] [[Fin 1; Fin 5]] (Fin 0)
     = _evaluate_feature_dist default_classifier
         [Some (create_gaussian_mixture [Fin 0] [Fin 1])] [[Fin 1]] (Fin 0).
Proof.
  assert (H1 : minprob (hyper default_classifier) <= 1) by (simpl; lra).
  assert (H2 : [[Fin 1; Fin 5]] <> []) by discriminate.
  assert (H3 : forall row, In row [[Fin 1; Fin 5]] -> length row = 2%nat)
    by (intros row [<-|[]]; reflexivity).
  split; [exact H1|]. split; [exact H2|]. split; [exact H3|].
  exact (absent_mixture_contributes_zero default_classifier
           [Some (create_gaussian_mixture [Fin 0] [Fin 1])] [] [[Fin 1; Fin 5]] (Fin 0)
           H1 H2 H3).
Defined.
